(** * scopus_scraper: a shallow embedding of the fetch client, the schemes,
      the database connector and the driver, with the properties of the
      specification stated over it.

    Layout:
    - [Py]       Python values that the code manipulates, exceptions, and a
                 small state-and-exception monad;
    - [models]   core/db/models.py, the declarative table metadata;
    - [engine]   the PostgreSQL statements the connector issues
                 (INSERT .. ON CONFLICT), over an explicit table store;
    - [schemes]  core/schemes.py, the validated entities and their dumps,
                 and the "before" validators over a heap of dicts and lists;
    - [connector] core/db/connector.py;
    - [scraper]  core/scraper.py, the session and the retry wrapper;
    - [main]     main.py. *)

From Stdlib Require Import ZArith QArith Lia Lqa.
From stdpp Require Import base option list gmap strings fin_maps.

Local Open Scope Z_scope.
Local Open Scope string_scope.
Local Open Scope list_scope.

(* ===================================================================== *)
(** * Python-level basics *)
(* ===================================================================== *)

Module Py.

(** Exception classes that the program raises, catches or lets through.
    [bases] gives the direct base classes as the libraries declare them. *)
Inductive exception :=
  (* builtins *)
  | ValueError | TypeError | AttributeError | KeyError | NameError
  | UnboundLocalError
  (* requests.exceptions *)
  | RequestException | InvalidJSONError | JSONDecodeError | HTTPError
  | ConnectionError | ProxyError | SSLError | Timeout | ConnectTimeout
  | ReadTimeout | TooManyRedirects | ChunkedEncodingError
  (* pydantic *)
  | ValidationError
  (* sqlalchemy.exc *)
  | SQLAlchemyError | CompileError | StatementError | DBAPIError
  | DatabaseError | IntegrityError | ProgrammingError | DataError
  | OperationalError.

#[export] Instance exception_eq_dec : EqDecision exception.
Proof. solve_decision. Defined.

Definition bases (e : exception) : list exception :=
  match e with
  | ValueError | TypeError | AttributeError | KeyError | NameError => []
  | UnboundLocalError => [NameError]
  | RequestException => []
  | InvalidJSONError => [RequestException]
  | JSONDecodeError => [InvalidJSONError; ValueError]
  | HTTPError => [RequestException]
  | ConnectionError => [RequestException]
  | ProxyError => [ConnectionError]
  | SSLError => [ConnectionError]
  | Timeout => [RequestException]
  | ConnectTimeout => [ConnectionError; Timeout]
  | ReadTimeout => [Timeout]
  | TooManyRedirects => [RequestException]
  | ChunkedEncodingError => [RequestException]
  | ValidationError => [ValueError]
  | SQLAlchemyError => []
  | CompileError => [SQLAlchemyError]
  | StatementError => [SQLAlchemyError]
  | DBAPIError => [StatementError]
  | DatabaseError => [DBAPIError]
  | IntegrityError | ProgrammingError | DataError | OperationalError =>
      [DatabaseError]
  end.

(** [issubclass_ n e c]: [c] is reached from [e] in at most [n] steps along
    [bases].  No chain above is longer than five. *)
Fixpoint issubclass_ (n : nat) (e c : exception) : bool :=
  bool_decide (e = c) ||
  match n with
  | O => false
  | S n' => existsb (fun b => issubclass_ n' b c) (bases e)
  end.

Definition issubclass (e c : exception) : bool := issubclass_ 6 e c.

(** [isinstance(e, (c1, c2, ...))] for a raised exception of class [e]. *)
Definition isinstance (e : exception) (classes : list exception) : bool :=
  existsb (issubclass e) classes.

(** What running a piece of code gives: a value, or a raised exception. *)
Inductive outcome (A : Type) :=
  | Return (a : A)
  | Raise (e : exception).
Arguments Return {A} a.
Arguments Raise {A} e.

(** State and exceptions: the state survives a raise, as Python objects do. *)
Definition M (St A : Type) : Type := St -> outcome A * St.

Definition ret {St A} (a : A) : M St A := fun s => (Return a, s).
Definition raise {St A} (e : exception) : M St A := fun s => (Raise e, s).
Definition bind {St A B} (m : M St A) (k : A -> M St B) : M St B :=
  fun s => match m s with
           | (Return a, s') => k a s'
           | (Raise e, s') => (Raise e, s')
           end.
Definition get {St} : M St St := fun s => (Return s, s).
Definition put {St} (s : St) : M St unit := fun _ => (Return tt, s).
Definition modify {St} (f : St -> St) : M St unit := fun s => (Return tt, f s).

(** [for x in xs: body x]. *)
Fixpoint for_each {St A} (xs : list A) (body : A -> M St unit) : M St unit :=
  match xs with
  | [] => ret tt
  | x :: xs' => bind (body x) (fun _ => for_each xs' body)
  end.

(** [try: m  except <classes>: handler]; the first clause whose classes
    match the raised exception runs, later clauses are not looked at. *)
Definition try_except {St A} (m : M St A)
    (clauses : list (list exception * (exception -> M St A))) : M St A :=
  fun s =>
    match m s with
    | (Return a, s') => (Return a, s')
    | (Raise e, s') =>
        (fix pick cls :=
           match cls with
           | [] => (Raise e, s')
           | (classes, handler) :: rest =>
               if isinstance e classes then handler e s' else pick rest
           end) clauses
    end.

(** The same with a budget: [None] when the budget ran out before the
    code had returned or raised. *)
Definition PM (St A : Type) : Type := St -> option (outcome A * St).

Definition pret {St A} (a : A) : PM St A := fun s => Some (Return a, s).
Definition praise {St A} (e : exception) : PM St A :=
  fun s => Some (Raise e, s).
Definition pbind {St A B} (m : PM St A) (k : A -> PM St B) : PM St B :=
  fun s => match m s with
           | Some (Return a, s') => k a s'
           | Some (Raise e, s') => Some (Raise e, s')
           | None => None
           end.
Definition lift {St A} (m : M St A) : PM St A := fun s => Some (m s).

Definition ptry_except {St A} (m : PM St A)
    (clauses : list (list exception * (exception -> PM St A))) : PM St A :=
  fun s =>
    match m s with
    | None => None
    | Some (Return a, s') => Some (Return a, s')
    | Some (Raise e, s') =>
        (fix pick cls :=
           match cls with
           | [] => Some (Raise e, s')
           | (classes, handler) :: rest =>
               if isinstance e classes then handler e s' else pick rest
           end) clauses
    end.

(** What [response.json()] builds: a tree of fresh objects. *)
#[warnings="-register-all"]
Inductive json :=
  | JNull
  | JBool (b : bool)
  | JInt (z : Z)
  | JStr (s : string)
  | JList (items : list json)
  | JDict (items : list (string * json)).

(** The pieces of an f-string: literal text and formatted values. *)
Inductive fragment := Lit (s : string) | Fmt (v : json).

(** [d.get(key)] on a dict given by its items. *)
Fixpoint assoc {A} (key : string) (items : list (string * A)) : option A :=
  match items with
  | [] => None
  | (k, v) :: rest => if String.eqb k key then Some v else assoc key rest
  end.

(** Truth value of a JSON value. *)
Definition truthy (v : json) : bool :=
  match v with
  | JNull => false
  | JBool b => b
  | JInt z => negb (Z.eqb z 0)
  | JStr s => negb (String.eqb s "")
  | JList items => match items with [] => false | _ => true end
  | JDict items => match items with [] => false | _ => true end
  end.

End Py.

Declare Scope py_scope.
Delimit Scope py_scope with py.
Notation "x <- m ;; k" := (Py.bind m (fun x => k))
  (at level 100, m at next level, right associativity) : py_scope.
Notation "m ;;; k" := (Py.bind m (fun _ => k))
  (at level 100, right associativity) : py_scope.

Declare Scope pyf_scope.
Delimit Scope pyf_scope with pyf.
Notation "x <- m ;; k" := (Py.pbind m (fun x => k))
  (at level 100, m at next level, right associativity) : pyf_scope.
Notation "m ;;; k" := (Py.pbind m (fun _ => k))
  (at level 100, right associativity) : pyf_scope.

(* ===================================================================== *)
(** * core/db/models.py *)
(* ===================================================================== *)

Module models.

(** [Column(...)]: SQLAlchemy's defaults are [nullable=True] (except for a
    primary key), [unique=False], no foreign key.  Column types are not kept:
    every record the connector writes comes out of a typed scheme. *)
Record Column := mk_column {
  name : string;
  primary_key : bool;
  nullable : bool;
  unique : bool;
  autoincrement : bool;
  ForeignKey : option (string * string)
}.

Definition col (n : string) (null : bool) : Column :=
  mk_column n false null false false None.
Definition col_unique (n : string) (null : bool) : Column :=
  mk_column n false null true false None.
Definition col_pk (n : string) : Column :=
  mk_column n true false false false None.
Definition col_serial (n : string) : Column :=
  mk_column n true false false true None.
Definition col_fk (n : string) (null uniq : bool) (t c : string) : Column :=
  mk_column n false null uniq false (Some (t, c)).

(** A declarative class: its table name, its columns, and the
    [UniqueConstraint]s of [__table_args__]. *)
Record Base := mk_model {
  __tablename__ : string;
  columns : list Column;
  __table_args__ : list (list string)
}.

Definition Document : Base := mk_model "documents"
  [ col_pk "scopus_id"; col "main_title" false; col_unique "eid" false;
    col "pub_year" false;
    col "document_type" true; col "publication_stage" true;
    col "total_authors" true;
    col "abstract_available" true;
    col "citations_count" true; col "references_count" true;
    col "status_type" true; col "free_to_read" true;
    col "doi" true; col "pui" true; col "scopus_id_" true;
    col "src_occ_id" true; col "reaxyscar" true; col "cpx" true;
    col "car_id" true; col "sgr" true; col "tpa_id" true ]
  [].

Definition DocumentTitle : Base := mk_model "documents_titles"
  [ col_serial "id";
    col_fk "document_id" false false "documents" "scopus_id";
    col_unique "title" false ]
  [ ["document_id"; "title"] ].

Definition DocumentAbstractText : Base := mk_model "documents_abstract_texts"
  [ col_serial "id";
    col_fk "document_id" false false "documents" "scopus_id";
    col_unique "text" false ]
  [ ["document_id"; "text"] ].

Definition DocumentSubjectArea : Base := mk_model "documents_subject_areas"
  [ col_serial "id";
    col_fk "document_id" false false "documents" "scopus_id";
    col_fk "subject_area_code" false false "subject_areas" "code" ]
  [ ["document_id"; "subject_area_code"] ].

Definition DocumentSourceRelationship : Base :=
  mk_model "documents_sources_relationships"
  [ col_serial "id";
    col_fk "document_id" false true "documents" "scopus_id";
    col "issue" true; col "volume" true; col "article_number" true;
    col "page_count" true; col "first_page" true; col "last_page" true;
    col "info_page" true ]
  [].

Definition DocumentSource : Base := mk_model "documents_sources"
  [ col_serial "id";
    col_fk "document_id" false true "documents" "scopus_id";
    col_fk "source_id" false false "sources" "id" ]
  [].

Definition Source : Base := mk_model "sources"
  [ col_pk "id";
    col "title" false; col "title_abbreviation" true;
    col "pub_year" true; col "publisher" true; col "is_active" true;
    col "issn" true; col "coden" true; col "eissn" true; col "isbn" true;
    col "issnp" true ]
  [].

Definition DocumentAuthorship : Base := mk_model "documents_authorship"
  [ col_serial "id";
    col_fk "document_id" false false "documents" "scopus_id";
    col_fk "author_id" false false "authors" "id" ]
  [ ["document_id"; "author_id"] ].

Definition Author : Base := mk_model "authors"
  [ col_pk "id"; col "eid" false; col "orc_id" true;
    col "first_name" false; col "last_name" false; col "full_name" false;
    col "email_address" true;
    col_fk "affiliated_institution_id" false false
           "authors_affiliated_institutions" "id";
    col "document_count" true; col "coauthors_count" true;
    col "citations_count" true; col "cited_by_count" true;
    col "h_index" true ]
  [].

Definition AuthorNameVariant : Base := mk_model "authors_name_variants"
  [ col_serial "id";
    col_fk "author_id" false false "authors" "id";
    col "name" false ]
  [ ["author_id"; "name"] ].

Definition AuthorSubjectArea : Base := mk_model "authors_subject_areas"
  [ col_serial "id";
    col_fk "author_id" false false "authors" "id";
    col_fk "subject_area_codename" false false "subject_areas" "codename" ]
  [ ["author_id"; "subject_area_codename"] ].

Definition AuthorAffiliatedInstitution : Base :=
  mk_model "authors_affiliated_institutions"
  [ col_pk "id"; col "name" false;
    col "domain" true; col "url" true;
    col "country" true; col "state" true; col "city" true;
    col "postal_code" true; col "street_address" true ]
  [].

Definition SubjectArea : Base := mk_model "subject_areas"
  [ col_serial "id";
    col_unique "code" true;
    col_unique "codename" true;
    col_unique "name" false ]
  [].

(** [Base.metadata]: every table that [create_all] creates. *)
Definition metadata : list Base :=
  [ Document; DocumentTitle; DocumentAbstractText; DocumentSubjectArea;
    DocumentSourceRelationship; DocumentSource; Source; DocumentAuthorship;
    Author; AuthorNameVariant; AuthorSubjectArea;
    AuthorAffiliatedInstitution; SubjectArea ].

Definition column_names (m : Base) : list string := map name (columns m).

(** The unique indexes the table gets: the primary key, one per
    [unique=True] column, one per [UniqueConstraint]. *)
Definition unique_indexes (m : Base) : list (list string) :=
  map name (filter (fun c => primary_key c = true) (columns m))
  :: map (fun c => [name c]) (filter (fun c => unique c = true) (columns m))
  ++ __table_args__ m.

End models.

(* ===================================================================== *)
(** * The statements the connector sends to PostgreSQL *)
(* ===================================================================== *)

Module engine.
Import Py models.

(** A cell of a row; Python's [None] is SQL's NULL. *)
Inductive value := Null | Int (z : Z) | Str (s : string) | Bool (b : bool).

#[export] Instance value_eq_dec : EqDecision value.
Proof. solve_decision. Defined.

(** A row, and a Python [dict] of column values, are maps from column
    names; a table keeps its rows in insertion order. *)
Abbreviation row := (gmap string value).
Abbreviation tables := (gmap string (list (gmap string value))).
Abbreviation sequences := (gmap string Z).

Definition cell (r : row) (c : string) : value := default Null (r !! c).

Definition rows_of (t : tables) (m : Base) : list row :=
  default [] (t !! __tablename__ m).

(** An [insert(model)] statement carrying the record as its values, with
    its ON CONFLICT clause. *)
Inductive OnConflict :=
  | DoUpdate (index_elements : list string) (set_ : row)
  | DoNothing (index_elements : list string).

Record Insert := mk_insert {
  table : Base;
  values : row;
  conflict : option OnConflict
}.

Definition insert (model : Base) (record : row) : Insert :=
  mk_insert model record None.

(** [OnConflictDoUpdate.__init__] refuses an empty [set_] dictionary with a
    [ValueError], when the statement is built. *)
Definition on_conflict_do_update {St} (stmt : Insert)
    (index_elements : list string) (set_ : row) : M St Insert :=
  if decide (set_ = ∅) then raise ValueError
  else ret (mk_insert (table stmt) (values stmt)
                      (Some (DoUpdate index_elements set_))).

Definition on_conflict_do_nothing (stmt : Insert)
    (index_elements : list string) : Insert :=
  mk_insert (table stmt) (values stmt) (Some (DoNothing index_elements)).

Definition index_elements_of (oc : OnConflict) : list string :=
  match oc with DoUpdate ix _ => ix | DoNothing ix => ix end.

(** ** Constraints *)

Definition same_columns (a b : list string) : bool :=
  forallb (fun c => bool_decide (c ∈ b)) a
  && forallb (fun c => bool_decide (c ∈ a)) b.

(** ON CONFLICT (cols) needs a unique index on exactly these columns. *)
Definition infer_arbiter (m : Base) (ix : list string) : bool :=
  existsb (same_columns ix) (unique_indexes m).

(** The key of a row under an index; a NULL in it never conflicts. *)
Definition key_of (ix : list string) (r : row) : option (list value) :=
  if existsb (fun c => bool_decide (cell r c = Null)) ix then None
  else Some (map (cell r) ix).

Definition conflicts (ix : list string) (r r' : row) : bool :=
  match key_of ix r with
  | Some k => bool_decide (key_of ix r' = Some k)
  | None => false
  end.

Definition not_null_ok (m : Base) (r : row) : bool :=
  forallb (fun c => nullable c || negb (bool_decide (cell r (name c) = Null)))
          (columns m).

Definition unique_ok (m : Base) (r : row) (others : list row) : bool :=
  forallb (fun ix => negb (existsb (conflicts ix r) others))
          (unique_indexes m).

(** Every foreign key of the row points at an existing row. *)
Definition foreign_keys_ok (t : tables) (m : Base) (r : row) : bool :=
  forallb (fun c =>
    match ForeignKey c with
    | None => true
    | Some (tbl, tc) =>
        match cell r (name c) with
        | Null => true
        | v => existsb (fun r' => bool_decide (cell r' tc = v))
                       (default [] (t !! tbl))
        end
    end) (columns m).

(** No row elsewhere still points at a value this update takes away. *)
Definition still_referenced_ok (t : tables) (m : Base) (old new : row) : bool :=
  forallb (fun m' =>
    forallb (fun c' =>
      match ForeignKey c' with
      | None => true
      | Some (tbl, tc) =>
          if bool_decide (tbl = __tablename__ m) then
            bool_decide (cell old tc = cell new tc)
            || bool_decide (cell old tc = Null)
            || negb (existsb (fun r' => bool_decide (cell r' (name c') = cell old tc))
                             (rows_of t m'))
          else true
      end) (columns m')) metadata.

(** ** Executing an INSERT *)

Definition nextval (seqs : sequences) (tbl : string) : Z * sequences :=
  let n := default 1 (seqs !! tbl) in (n, <[tbl := n + 1]> seqs).

Definition uses_sequence (m : Base) (vals : row) : bool :=
  existsb (fun c => autoincrement c && bool_decide (vals !! name c = None))
          (columns m).

(** The row proposed for insertion: the given values, the next sequence
    number for an omitted serial column, NULL for the other omitted ones. *)
Definition proposed_row (m : Base) (vals : row) (seqs : sequences)
    : row * sequences :=
  let (n, seqs') := nextval seqs (__tablename__ m) in
  (list_to_map
     (map (fun c =>
             (name c,
              match vals !! name c with
              | Some v => v
              | None => if autoincrement c then Int n else Null
              end)) (columns m)),
   if uses_sequence m vals then seqs' else seqs).

Definition known_columns (m : Base) (vals : row) : bool :=
  bool_decide (dom vals ⊆ list_to_set (column_names m)).

(** Foreign keys are checked once the statement has run, so a row may
    point at itself. *)
Definition plain_insert (m : Base) (r : row) (t : tables) : outcome tables :=
  let rows := rows_of t m in
  let t' := <[__tablename__ m := rows ++ [r]]> t in
  if not_null_ok m r && unique_ok m r rows && foreign_keys_ok t' m r
  then Return t'
  else Raise IntegrityError.

Definition update_row (m : Base) (i : nat) (old : row) (set_ : row)
    (t : tables) : outcome tables :=
  let rows := rows_of t m in
  let new := set_ ∪ old in
  let t' := <[__tablename__ m := <[i := new]> rows]> t in
  if not_null_ok m new && unique_ok m new (delete i rows)
     && foreign_keys_ok t' m new && still_referenced_ok t' m old new
  then Return t'
  else Raise IntegrityError.

(** One statement inside the open transaction: [t] is what the transaction
    sees.  A sequence number that was drawn stays drawn, whatever comes of
    the statement. *)
Definition execute (stmt : Insert) : M (tables * sequences) unit :=
  fun '(t, seqs) =>
  let m := table stmt in
  if negb (known_columns m (values stmt)) then (Raise CompileError, (t, seqs))
  else
    let (r, seqs') := proposed_row m (values stmt) seqs in
    match conflict stmt with
    | None =>
        match plain_insert m r t with
        | Return t' => (Return tt, (t', seqs'))
        | Raise e => (Raise e, (t, seqs'))
        end
    | Some oc =>
        let ix := index_elements_of oc in
        if negb (infer_arbiter m ix) then (Raise ProgrammingError, (t, seqs))
        else
          match list_find (fun r' => conflicts ix r r' = true) (rows_of t m) with
          | None =>
              match plain_insert m r t with
              | Return t' => (Return tt, (t', seqs'))
              | Raise e => (Raise e, (t, seqs'))
              end
          | Some (i, old) =>
              match oc with
              | DoNothing _ => (Return tt, (t, seqs'))
              | DoUpdate _ set_ =>
                  if negb (known_columns m set_)
                  then (Raise CompileError, (t, seqs))
                  else
                    match update_row m i old set_ t with
                    | Return t' => (Return tt, (t', seqs'))
                    | Raise e => (Raise e, (t, seqs'))
                    end
              end
          end
    end.

End engine.

(* ===================================================================== *)
(** * Python objects that are shared and changed in place *)
(* ===================================================================== *)

Module objects.
Import Py.

(** A value is a scalar or a reference to a list or a dict in the heap; two
    references to one object see each other's changes. *)
Inductive val :=
  | VNone
  | VBool (b : bool)
  | VInt (z : Z)
  | VStr (s : string)
  | VRef (l : nat).

Inductive obj :=
  | OList (items : list val)
  | ODict (items : gmap string val).

Abbreviation heap := (gmap nat obj).

#[export] Instance val_eq_dec : EqDecision val.
Proof. solve_decision. Defined.

(** A new object gets an address that is not in use. *)
Definition alloc (o : obj) : M heap val :=
  fun h => let l := fresh (dom h) in (Return (VRef l), <[l := o]> h).

Definition truthy (h : heap) (v : val) : bool :=
  match v with
  | VNone => false
  | VBool b => b
  | VInt z => negb (Z.eqb z 0)
  | VStr s => negb (bool_decide (s = ""))
  | VRef l =>
      match h !! l with
      | Some (OList items) => negb (bool_decide (items = []))
      | Some (ODict items) => negb (bool_decide (items = ∅))
      | None => true
      end
  end.

(** [isinstance(v, Dict)] and [isinstance(v, List)], with the contents. *)
Definition as_dict (h : heap) (v : val) : option (gmap string val) :=
  match v with
  | VRef l => match h !! l with Some (ODict items) => Some items | _ => None end
  | _ => None
  end.



(** [d.get(key)] *)
Definition get (items : gmap string val) (key : string) : val :=
  default VNone (items !! key).

(** [d.get(key, <empty container>) or <empty container>]: the value under
    the key when there is one and it is truthy; [None] stands for the empty
    container made on the spot, which nothing else refers to. *)
Definition get_or_empty (h : heap) (items : gmap string val) (key : string)
    : option val :=
  match items !! key with
  | Some v => if truthy h v then Some v else None
  | None => None
  end.

(** [d[key] = v] *)
Definition setitem (data : nat) (key : string) (v : val) : M heap unit :=
  fun h =>
    match h !! data with
    | Some (ODict items) => (Return tt, <[data := ODict (<[key := v]> items)]> h)
    | _ => (Raise TypeError, h)
    end.

(** [del d[key]] *)
Definition delitem (data : nat) (key : string) : M heap unit :=
  fun h =>
    match h !! data with
    | Some (ODict items) =>
        match items !! key with
        | Some _ => (Return tt, <[data := ODict (delete key items)]> h)
        | None => (Raise KeyError, h)
        end
    | _ => (Raise TypeError, h)
    end.

(** [d.update(other)] *)
Definition update (data : nat) (other : gmap string val) : M heap unit :=
  fun h =>
    match h !! data with
    | Some (ODict items) => (Return tt, <[data := ODict (other ∪ items)]> h)
    | _ => (Raise AttributeError, h)
    end.


(** Building the objects of a decoded payload. *)
Fixpoint load (j : json) : M heap val :=
  match j with
  | JNull => ret VNone
  | JBool b => ret (VBool b)
  | JInt z => ret (VInt z)
  | JStr s => ret (VStr s)
  | JList items =>
      bind ((fix load_all (js : list json) : M heap (list val) :=
               match js with
               | [] => ret []
               | x :: rest =>
                   bind (load x) (fun v =>
                   bind (load_all rest) (fun vs => ret (v :: vs)))
               end) items)
           (fun vs => alloc (OList vs))
  | JDict items =>
      bind ((fix load_all (kvs : list (string * json))
               : M heap (list (string * val)) :=
               match kvs with
               | [] => ret []
               | (k, x) :: rest =>
                   bind (load x) (fun v =>
                   bind (load_all rest) (fun vs => ret ((k, v) :: vs)))
               end) items)
           (fun kvs => alloc (ODict (list_to_map (reverse kvs))))
  end.

End objects.

(* ===================================================================== *)
(** * core/schemes.py: the entities, their validators and their dumps *)
(* ===================================================================== *)

Module schemes.
Import Py engine objects.

Definition of_str (s : string) : value := Str s.
Definition of_opt_str (o : option string) : value := from_option Str Null o.
Definition of_opt_int (o : option Z) : value := from_option Int Null o.
Definition of_opt_bool (o : option bool) : value := from_option Bool Null o.

(** A Python dict literal. *)
Definition dict (items : list (string * value)) : row := list_to_map items.

Module SubjectArea.
Record t := mk {
  name : string;
  code : option Z;          (* Optional[PositiveInt] *)
  codename : option string
}.
Definition model_dump (s : t) : row :=
  dict [ ("name", of_str (name s)); ("code", of_opt_int (code s));
         ("codename", of_opt_str (codename s)) ].

(** *** The "before" validator, on the caller's own dict *)

Section validator.
(** [str.isdecimal] goes by the Unicode category of the characters; it is
    taken as given. *)
Context (isdecimal : string -> bool).

Definition prevalidate_subject_area_data (data : val) : M heap val :=
  fun h =>
    match data, as_dict h data with
    | VRef d, Some items =>
        (setitem d "name"
           (if truthy h (get items "displayName") then get items "displayName"
            else get items "name") ;;;
         match get items "code" with
         | VStr code_value =>
             if negb (isdecimal code_value) then
               delitem d "code" ;;;
               setitem d "codename" (VStr code_value)
             else ret tt
         | _ => ret tt
         end ;;;
         ret data)%py h
    | _, _ => (Return data, h)
    end.

(** The items of a dict payload once the validator has run. *)
Definition items_after (h : heap) (items : gmap string val)
    : gmap string val :=
  let items1 :=
    <["name" := if truthy h (get items "displayName")
                then get items "displayName" else get items "name"]> items in
  match get items "code" with
  | VStr code_value =>
      if isdecimal code_value then items1
      else <["codename" := VStr code_value]> (delete "code" items1)
  | _ => items1
  end.

End validator.
End SubjectArea.

Module SourceRelationship.
Record t := mk {
  issue : option string;
  volume : option string;
  article_number : option string;
  page_count : option Z;
  first_page : option Z;
  last_page : option Z;
  info_page : option Z
}.
Definition model_dump (s : t) : row :=
  dict [ ("issue", of_opt_str (issue s)); ("volume", of_opt_str (volume s));
         ("article_number", of_opt_str (article_number s));
         ("page_count", of_opt_int (page_count s));
         ("first_page", of_opt_int (first_page s));
         ("last_page", of_opt_int (last_page s));
         ("info_page", of_opt_int (info_page s)) ].

(** *** The "before" validator, on the caller's own dict *)

Definition extract_pages_nums (source_relationship_data : val) : M heap val :=
  fun h =>
    match source_relationship_data, as_dict h source_relationship_data with
    | VRef d, Some items =>
        (match get_or_empty h items "pages" with
         | None => update d ∅
         | Some pages_nums =>
             match as_dict h pages_nums with
             | Some pages_nums_ => update d pages_nums_
             | None => ret tt
             end
         end ;;;
         ret source_relationship_data)%py h
    | _, _ => (Return source_relationship_data, h)
    end.

End SourceRelationship.

Module Source.
Record t := mk {
  id : string;
  title : string;
  title_abbreviation : option string;
  pub_year : option Z;
  publisher : option string;
  is_active : option bool;
  issn : option string;
  coden : option string;
  eissn : option string;
  isbn : option string;
  issnp : option string
}.
Definition model_dump (s : t) : row :=
  dict [ ("id", of_str (id s)); ("title", of_str (title s));
         ("title_abbreviation", of_opt_str (title_abbreviation s));
         ("pub_year", of_opt_int (pub_year s));
         ("publisher", of_opt_str (publisher s));
         ("is_active", of_opt_bool (is_active s));
         ("issn", of_opt_str (issn s)); ("coden", of_opt_str (coden s));
         ("eissn", of_opt_str (eissn s)); ("isbn", of_opt_str (isbn s));
         ("issnp", of_opt_str (issnp s)) ].
End Source.

Module Document.
Record t := mk {
  scopus_id : string;
  main_title : string;
  eid : string;
  titles : list string;
  authors_ids : list string;
  pub_year : Z;
  document_type : option string;
  publication_stage : option string;
  total_authors : option Z;
  abstract_available : option bool;
  abstract_texts : list (option string);
  citations_count : option Z;
  references_count : option Z;
  status_type : option string;
  free_to_read : option bool;
  doi : option string;
  pui : option string;
  scopus_id_ : option string;
  src_occ_id : option string;
  reaxyscar : option string;
  cpx : option string;
  car_id : option string;
  sgr : option string;
  tpa_id : option string;
  subject_areas : list SubjectArea.t;
  source_relationship : SourceRelationship.t;
  source : Source.t
}.

(** *** The "before" validator, on the caller's own dict *)


(** [author.get('authorId')] for the authors that are dicts with a truthy
    id. *)
Definition authors_ids_of (h : heap) (authors : list val) : list val :=
  omap (fun author =>
          match as_dict h author with
          | Some a => if truthy h (get a "authorId")
                      then Some (get a "authorId") else None
          | None => None
          end) authors.










(** *** Reading the payload, for the statements below *)



(** *** Dumps *)

Definition dump_titles (d : t) : list row :=
  map (fun title => dict [ ("document_id", of_str (scopus_id d));
                           ("title", of_str title) ]) (titles d).

Definition dump_abstract_texts (d : t) : list row :=
  map (fun abstract_text =>
         dict [ ("document_id", of_str (scopus_id d));
                ("text", of_opt_str abstract_text) ]) (abstract_texts d).

Definition dump_subject_areas (d : t) : list row :=
  map (fun subject_area =>
         dict [ ("document_id", of_str (scopus_id d));
                ("subject_area_code",
                 of_opt_int (SubjectArea.code subject_area)) ])
      (subject_areas d).

Definition dump_source_relationship (d : t) : row :=
  <["document_id" := of_str (scopus_id d)]>
    (SourceRelationship.model_dump (source_relationship d)).

Definition dump_source (d : t) : row :=
  dict [ ("document_id", of_str (scopus_id d));
         ("source_id", of_str (Source.id (source d))) ].

Definition dump_authors (d : t) : list row :=
  map (fun author_id => dict [ ("document_id", of_str (scopus_id d));
                               ("author_id", of_str author_id) ])
      (authors_ids d).

(** [model_dump] without titles, authors_ids, abstract_texts,
    subject_areas, source_relationship and source. *)
Definition dump (d : t) : row :=
  dict [ ("scopus_id", of_str (scopus_id d));
         ("main_title", of_str (main_title d));
         ("eid", of_str (eid d));
         ("pub_year", Int (pub_year d));
         ("document_type", of_opt_str (document_type d));
         ("publication_stage", of_opt_str (publication_stage d));
         ("total_authors", of_opt_int (total_authors d));
         ("abstract_available", of_opt_bool (abstract_available d));
         ("citations_count", of_opt_int (citations_count d));
         ("references_count", of_opt_int (references_count d));
         ("status_type", of_opt_str (status_type d));
         ("free_to_read", of_opt_bool (free_to_read d));
         ("doi", of_opt_str (doi d)); ("pui", of_opt_str (pui d));
         ("scopus_id_", of_opt_str (scopus_id_ d));
         ("src_occ_id", of_opt_str (src_occ_id d));
         ("reaxyscar", of_opt_str (reaxyscar d));
         ("cpx", of_opt_str (cpx d)); ("car_id", of_opt_str (car_id d));
         ("sgr", of_opt_str (sgr d)); ("tpa_id", of_opt_str (tpa_id d)) ].
End Document.

Module AffiliatedInstitution.
Record t := mk {
  id : string;
  name : string;
  country : string;
  city : string;
  state : option string;
  postal_code : option string;
  street_address : option string;
  url : option string;
  domain : option string
}.
Definition model_dump (a : t) : row :=
  dict [ ("id", of_str (id a)); ("name", of_str (name a));
         ("country", of_str (country a)); ("city", of_str (city a));
         ("state", of_opt_str (state a));
         ("postal_code", of_opt_str (postal_code a));
         ("street_address", of_opt_str (street_address a));
         ("url", of_opt_str (url a)); ("domain", of_opt_str (domain a)) ].

(** *** The "before" validator, on the caller's own dict *)

Definition extract_address (affiliated_institution_data : val) : M heap val :=
  fun h =>
    match affiliated_institution_data,
          as_dict h affiliated_institution_data with
    | VRef d, Some items =>
        (match get_or_empty h items "address" with
         | None => update d ∅
         | Some address =>
             match as_dict h address with
             | Some address_ => update d address_
             | None => ret tt
             end
         end ;;;
         ret affiliated_institution_data)%py h
    | _, _ => (Return affiliated_institution_data, h)
    end.

End AffiliatedInstitution.

Module Author.
Record t := mk {
  id : string;
  eid : string;
  orc_id : option string;
  first_name : string;
  last_name : string;
  full_name : string;
  name_variants : list (option string);
  email_address : option string;
  affiliated_institution : AffiliatedInstitution.t;
  affiliated_institution_id : string;
  document_count : option Z;
  coauthors_count : option Z;
  citations_count : option Z;
  cited_by_count : option Z;
  h_index : option Z;
  subject_areas : list SubjectArea.t
}.

(** *** The "before" validator, on the caller's own dict *)




(** *** Reading the payload, for the statements below *)

(** What [_extract_names] merges into a dict with these items. *)
Definition names_written (h : heap) (items : gmap string val)
    : gmap string val :=
  match get_or_empty h items "preferredName" with
  | None => ∅
  | Some names => default ∅ (as_dict h names)
  end.

(** What [_extract_affiliated_institution_id] merges into it. *)
Definition affiliation_written (h : heap) (items : gmap string val)
    : gmap string val :=
  match get_or_empty h items "latestAffiliatedInstitution" with
  | None => {[ "affiliated_institution_id" := VNone ]}
  | Some affiliated_institution =>
      match as_dict h affiliated_institution with
      | Some a =>
          {[ "affiliated_institution_id" :=
               if truthy h (get a "id") then get a "id" else VNone ]}
      | None => ∅
      end
  end.

(** The items of the dict at [data] once both have run. *)
Definition items_after (h : heap) (data : nat) (items : gmap string val)
    : gmap string val :=
  let items1 := names_written h items ∪ items in
  let h1 := <[data := ODict items1]> h in
  affiliation_written h1 items1 ∪ items1.

(** *** Dumps *)

(** [model_dump] without name_variants, affiliated_institution and
    subject_areas. *)
Definition model_dump (a : t) : row :=
  dict [ ("id", of_str (id a)); ("eid", of_str (eid a));
         ("orc_id", of_opt_str (orc_id a));
         ("first_name", of_str (first_name a));
         ("last_name", of_str (last_name a));
         ("full_name", of_str (full_name a));
         ("email_address", of_opt_str (email_address a));
         ("affiliated_institution_id",
          of_str (affiliated_institution_id a));
         ("document_count", of_opt_int (document_count a));
         ("coauthors_count", of_opt_int (coauthors_count a));
         ("citations_count", of_opt_int (citations_count a));
         ("cited_by_count", of_opt_int (cited_by_count a));
         ("h_index", of_opt_int (h_index a)) ].

Definition dump_name_variants (a : t) : list row :=
  map (fun name => dict [ ("author_id", of_str (id a));
                          ("name", of_opt_str name) ]) (name_variants a).

Definition dump_subject_areas (a : t) : list row :=
  map (fun subject_area =>
         dict [ ("author_id", of_str (id a));
                ("subject_area_codename",
                 of_opt_str (SubjectArea.codename subject_area)) ])
      (subject_areas a).
End Author.

(** What [d.update(d.get(key, {}) or {})] merges into a dict with these
    items when the value under the key is a dict, and nothing otherwise. *)
Definition nested_written (h : heap) (items : gmap string val)
    (key : string) : gmap string val :=
  match get_or_empty h items key with
  | None => ∅
  | Some nested => default ∅ (as_dict h nested)
  end.

End schemes.

(* ===================================================================== *)
(** * core/db/connector.py *)
(* ===================================================================== *)

Module connector.
Import Py engine.
Local Open Scope py_scope.

(** The database as the connector's one connection reaches it:
    the committed tables, the tables as the open session's transaction sees
    them, and the sequences (which no rollback takes back). *)
Record Database := mk_db {
  committed : tables;
  session : tables;
  sequence_values : sequences
}.

(** [__enter__]: a new session, which starts from the committed state. *)
Definition __enter__ : M Database unit :=
  modify (fun db => mk_db (committed db) (committed db) (sequence_values db)).

(** [__exit__]: [session.close()] gives up whatever was not committed. *)
Definition __exit__ : M Database unit :=
  modify (fun db => mk_db (committed db) (committed db) (sequence_values db)).

Definition session_commit : M Database unit :=
  modify (fun db => mk_db (session db) (session db) (sequence_values db)).

Definition session_rollback : M Database unit :=
  modify (fun db => mk_db (committed db) (committed db) (sequence_values db)).

Definition session_execute (stmt : Insert) : M Database unit :=
  fun db =>
    match execute stmt (session db, sequence_values db) with
    | (r, (t, seqs)) => (r, mk_db (committed db) t seqs)
    end.

(** [SELECT EXISTS (.. WHERE column = value)]; nothing equals NULL. *)
Definition record_exists (model : models.Base) (column_name : string)
    (v : value) : M Database bool :=
  fun db =>
    (Return (negb (bool_decide (v = Null))
             && existsb (fun r => bool_decide (cell r column_name = v))
                        (rows_of (session db) model)), db).

Definition insert_record (model : models.Base) (record : row)
    (index_elements : list string) (on_conflict_do_update_ : bool)
    : M Database unit :=
  let insert_record_stmt := insert model record in
  insert_record_stmt <-
    (if on_conflict_do_update_ then
       on_conflict_do_update insert_record_stmt index_elements
         (filter (fun kv => kv.1 ∉ index_elements) record)
     else
       ret (on_conflict_do_nothing insert_record_stmt index_elements)) ;;
  session_execute insert_record_stmt.

Definition insert_affiliated_institution
    (affiliated_institution : schemes.AffiliatedInstitution.t)
    : M Database unit :=
  let affiliated_institution_desc :=
    schemes.AffiliatedInstitution.model_dump affiliated_institution in
  insert_record models.AuthorAffiliatedInstitution
                affiliated_institution_desc ["id"] true.

Definition insert_author (author : schemes.Author.t) : M Database unit :=
  let author_dump := schemes.Author.model_dump author in
  insert_record models.Author author_dump ["id"] true ;;;
  for_each (schemes.Author.dump_name_variants author) (fun name_variant =>
    insert_record models.AuthorNameVariant name_variant
                  ["author_id"; "name"] false) ;;;
  for_each (schemes.Author.dump_subject_areas author)
    (fun author_subject_area =>
       insert_record models.AuthorSubjectArea author_subject_area
                     ["author_id"; "subject_area_codename"] false).

Definition insert_source (source : schemes.Source.t) : M Database unit :=
  let source_desc := schemes.Source.model_dump source in
  insert_record models.Source source_desc ["id"] true.

Definition insert_document (document : schemes.Document.t)
    : M Database unit :=
  let document_desc := schemes.Document.dump document in
  insert_record models.Document document_desc ["scopus_id"] true ;;;
  for_each (schemes.Document.dump_titles document) (fun document_title =>
    insert_record models.DocumentTitle document_title
                  ["document_id"; "title"] false) ;;;
  for_each (schemes.Document.dump_abstract_texts document)
    (fun document_abstract_text =>
       insert_record models.DocumentAbstractText document_abstract_text
                     ["document_id"; "text"] false) ;;;
  insert_record models.DocumentSource
                (schemes.Document.dump_source document)
                ["document_id"; "source_id"] false ;;;
  insert_record models.DocumentSourceRelationship
                (schemes.Document.dump_source_relationship document)
                ["document_id"; "issue"; "volume"; "article_number";
                 "page_count"; "first_page"; "last_page"; "info_page"]
                false ;;;
  for_each (schemes.Document.dump_authors document) (fun document_author =>
    insert_record models.DocumentAuthorship document_author
                  ["document_id"; "author_id"] false) ;;;
  for_each (schemes.Document.dump_subject_areas document)
    (fun document_subject_area =>
       insert_record models.DocumentSubjectArea document_subject_area
                     ["document_id"; "subject_area_code"] false).

(** Truth value of an [Optional[PositiveInt]] and of an [Optional[str]]. *)
Definition truthy_int (o : option Z) : bool :=
  match o with Some z => negb (Z.eqb z 0) | None => false end.
Definition truthy_str (o : option string) : bool :=
  match o with Some s => negb (bool_decide (s = "")) | None => false end.

(** The [update_values] that [insert_subject_area] computes for ON CONFLICT. *)
Definition update_values (subject_area : schemes.SubjectArea.t) : row :=
  if truthy_int (schemes.SubjectArea.code subject_area)
     && negb (truthy_str (schemes.SubjectArea.codename subject_area))
  then schemes.dict
         [("code", schemes.of_opt_int (schemes.SubjectArea.code subject_area))]
  else if negb (truthy_int (schemes.SubjectArea.code subject_area))
          && truthy_str (schemes.SubjectArea.codename subject_area)
  then schemes.dict
         [("codename",
           schemes.of_opt_str (schemes.SubjectArea.codename subject_area))]
  else ∅.

Definition insert_subject_area (subject_area : schemes.SubjectArea.t)
    : M Database unit :=
  let subject_area_desc := schemes.SubjectArea.model_dump subject_area in
  let insert_subject_area_stmt := insert models.SubjectArea subject_area_desc in
  let index_elements := ["name"] in
  insert_subject_area_stmt <-
    on_conflict_do_update insert_subject_area_stmt index_elements
                          (update_values subject_area) ;;
  session_execute insert_subject_area_stmt.

(** ** Reading a table, for the statements below *)

(** The table has no serial column: inserting draws no sequence number. *)
Definition no_serial (m : models.Base) : bool :=
  forallb (fun c => negb (models.autoincrement c)) (models.columns m).

(** Every column of the index is declared NOT NULL (or is a primary key). *)
Definition non_nullable (m : models.Base) (ix : list string) : bool :=
  forallb (fun c => existsb (fun col => bool_decide (models.name col = c)
                                        && negb (models.nullable col))
                            (models.columns m)) ix.

(** The upserts issued with [on_conflict_do_update=True]: the model and
    the index elements of [insert_document], [insert_author],
    [insert_source] and [insert_affiliated_institution]. *)
Definition refresh_upserts : list (models.Base * list string) :=
  [ (models.Document, ["scopus_id"]);
    (models.Author, ["id"]);
    (models.Source, ["id"]);
    (models.AuthorAffiliatedInstitution, ["id"]) ].

(** The upserts issued with [on_conflict_do_update=False]. *)
Definition append_once_upserts : list (models.Base * list string) :=
  [ (models.DocumentTitle, ["document_id"; "title"]);
    (models.DocumentAbstractText, ["document_id"; "text"]);
    (models.AuthorNameVariant, ["author_id"; "name"]);
    (models.DocumentSubjectArea, ["document_id"; "subject_area_code"]);
    (models.AuthorSubjectArea, ["author_id"; "subject_area_codename"]);
    (models.DocumentAuthorship, ["document_id"; "author_id"]);
    (models.DocumentSourceRelationship,
     ["document_id"; "issue"; "volume"; "article_number";
      "page_count"; "first_page"; "last_page"; "info_page"]);
    (models.DocumentSource, ["document_id"; "source_id"]) ].

(** The first subject-area row with a given name, and its position. *)
Definition subject_area_named (t : tables) (n : string) : option (nat * row) :=
  list_find (fun r => cell r "name" = Str n) (rows_of t models.SubjectArea).

(** No two rows of the list carry the same (NULL-free) key under the index. *)
Definition distinct_keys (ix : list string) (rows : list row) : Prop :=
  forall i j ri rj,
    rows !! i = Some ri -> rows !! j = Some rj ->
    conflicts ix ri rj = true -> i = j.

(** The operation leaves every table but the named ones as the session saw
    them before, whatever its outcome. *)
Definition touches_only {A} (tbls : list string) (m : M Database A) : Prop :=
  forall db tbl, tbl ∉ tbls -> session (m db).2 !! tbl = session db !! tbl.

(** The one column among code and codename that a call newly supplies. *)
Definition supplied (sa : schemes.SubjectArea.t) : option string :=
  if truthy_int (schemes.SubjectArea.code sa)
     && negb (truthy_str (schemes.SubjectArea.codename sa))
  then Some "code"
  else if negb (truthy_int (schemes.SubjectArea.code sa))
          && truthy_str (schemes.SubjectArea.codename sa)
  then Some "codename"
  else None.

End connector.


(* ===================================================================== *)
(** * core/scraper.py *)
(* ===================================================================== *)

Module scraper.
Import Py.
Local Open Scope pyf_scope.

(** utils/constants.py is not among the sources at hand; the four
    addresses it defines are taken as given. *)
Record Constants := mk_constants {
  AUTH_CLAIM_URI : string;
  SCOPUS_URL : string;
  BASE_AUTHOR_PROFILE_URL : string;
  AUTHOR_DOCS_LIST_URL : string
}.

(** ** The session, the network and the other sources of outside input *)

(** What [ua_generator.generate(device='desktop')] hands back. *)
Record UserAgent := mk_ua {
  ua_text : string;
  ch_brands : string;
  ch_mobile : string;
  ch_platform : string
}.

Record Session := mk_session {
  headers : gmap string string;
  cookies : gmap string string;
  proxies : gmap string string
}.

Record Request := mk_request {
  url : string;
  params : list (string * string);
  request_headers : gmap string string;
  request_cookies : gmap string string;
  request_proxies : gmap string string
}.

Record Response := mk_response {
  status_code : Z;
  text : string;
  json_body : option json;       (* [None]: the content does not decode *)
  set_cookie : gmap string string
}.

Inductive Printed := Text (s : string) | Status (code : Z) | Content (s : string).

Inductive Event :=
  | Sent (r : Request)
  | Slept (seconds : Q)
  | LogError (message : list fragment) (e : exception)
  | LogInfo (message : list fragment)
  | Print (p : Printed).

(** The client object and its surroundings.  The network answers the n-th
    request sent; [ua_source] and [random_source] stand for the random
    draws of [ua_generator] and of [random.random()]. *)
Record World := mk_world {
  _proxies : gmap string string;
  _session : Session;
  network : nat -> Request -> outcome Response;
  ua_source : nat -> UserAgent;
  random_source : nat -> Q;
  requests_sent : nat;
  ua_drawn : nat;
  randoms_drawn : nat;
  trace : list Event
}.

Definition set_session (s : Session) (w : World) : World :=
  mk_world (_proxies w) s (network w) (ua_source w) (random_source w)
           (requests_sent w) (ua_drawn w) (randoms_drawn w) (trace w).

Definition emit (e : Event) (w : World) : World :=
  mk_world (_proxies w) (_session w) (network w) (ua_source w)
           (random_source w) (requests_sent w) (ua_drawn w) (randoms_drawn w)
           (trace w ++ [e]).

Definition logger_error (message : list fragment) (e : exception) : M World unit :=
  modify (emit (LogError message e)).
Definition logger_info (message : list fragment) : M World unit :=
  modify (emit (LogInfo message)).
Definition print (p : Printed) : M World unit := modify (emit (Print p)).

(** [time.sleep]. *)
Definition sleep (seconds : Q) : M World unit := modify (emit (Slept seconds)).

Definition ua_generator_generate : M World UserAgent :=
  fun w =>
    (Return (ua_source w (ua_drawn w)),
     mk_world (_proxies w) (_session w) (network w) (ua_source w)
              (random_source w) (requests_sent w) (S (ua_drawn w))
              (randoms_drawn w) (trace w)).

Definition random_random : M World Q :=
  fun w =>
    (Return (random_source w (randoms_drawn w)),
     mk_world (_proxies w) (_session w) (network w) (ua_source w)
              (random_source w) (requests_sent w) (ua_drawn w)
              (S (randoms_drawn w)) (trace w)).

(** [self._session.get(url, headers=.., params=.., proxies=self._session.proxies)]:
    the request carries the session's headers overridden by the call's, and
    the session's cookies; cookies set by a response go into the jar. *)
Definition session_get (url_ : string) (headers_ : gmap string string)
    (params_ : list (string * string)) : M World Response :=
  fun w =>
    let s := _session w in
    let request :=
      mk_request url_ params_ (headers_ ∪ headers s) (cookies s) (proxies s) in
    let w1 :=
      mk_world (_proxies w) s (network w) (ua_source w) (random_source w)
               (S (requests_sent w)) (ua_drawn w) (randoms_drawn w)
               (trace w ++ [Sent request]) in
    match network w (requests_sent w) request with
    | Raise e => (Raise e, w1)
    | Return response =>
        (Return response,
         set_session (mk_session (headers s) (set_cookie response ∪ cookies s)
                                 (proxies s)) w1)
    end.

Definition raise_for_status {St} (r : Response) : M St unit :=
  if Z.leb 400 (status_code r) && Z.ltb (status_code r) 600
  then raise HTTPError else ret tt.

Definition response_json {St} (r : Response) : M St json :=
  match json_body r with
  | Some j => ret j
  | None => raise JSONDecodeError
  end.

(** ** The retry policy *)

Definition request_exc : list exception :=
  [RequestException; JSONDecodeError; ProxyError; ConnectTimeout].

(** [wait_random(min, max)] sleeps [min + random.random() * (max - min)]. *)
Definition wait_random (min max : Q) (u : Q) : Q :=
  (min + u * (max - min))%Q.

Definition stop_after_attempt (max_attempt_number : nat)
    (attempt_number : nat) : bool :=
  Nat.leb max_attempt_number attempt_number.

(** tenacity's default for [stop]. *)
Definition stop_never (attempt_number : nat) : bool := false.

Definition retry_if_exc_type (types : list exception) (e : exception) : bool :=
  isinstance e types.

Definition wait_to_retry : Q -> Q := wait_random (30 # 1) (45 # 1).
Definition stop_retry : nat -> bool := stop_after_attempt 5.

(** [@retry(sleep, retry, wait, stop, reraise=True)] around [fn]: call; on
    an exception that [retry] accepts, give up with that exception if
    [stop] says so, else sleep for [wait] and call again. *)
Fixpoint retry {A} (fuel : nat) (retry_ : exception -> bool)
    (wait : Q -> Q) (stop : nat -> bool) (attempt_number : nat)
    (fn : PM World A) : PM World A :=
  fun w =>
    match fuel with
    | O => None
    | S fuel' =>
        match fn w with
        | None => None
        | Some (Return a, w') => Some (Return a, w')
        | Some (Raise e, w') =>
            if retry_ e then
              if stop attempt_number then Some (Raise e, w')
              else
                match random_random w' with
                | (Return u, w'') =>
                    retry fuel' retry_ wait stop (S attempt_number) fn
                          (emit (Slept (wait u)) w'')
                | (Raise e', w'') => Some (Raise e', w'')
                end
            else Some (Raise e, w')
        end
    end.

Section client.
Context (constants : Constants).

(** ** ScopusClient *)

Definition _update_session_headers : M World unit :=
  (ua <- ua_generator_generate ;;
   let headers_ : gmap string string := list_to_map
     [ ("accept", "text/html,application/xhtml+xml,application/xml;q=0.9,image/avif,image/webp,image/apng,*/*;q=0.8,application/signed-exchange;v=b3;q=0.7");
       ("accept-language", "ru-RU,ru;q=0.9,en-US;q=0.8,en;q=0.7");
       ("cache-control", "max-age=0");
       ("priority", "u=0, i");
       ("sec-ch-ua", ch_brands ua);
       ("sec-ch-ua-mobile", ch_mobile ua);
       ("sec-ch-ua-platform", ch_platform ua);
       ("sec-fetch-dest", "document");
       ("sec-fetch-mode", "navigate");
       ("sec-fetch-site", "none");
       ("sec-fetch-user", "?1");
       ("upgrade-insecure-requests", "1");
       ("user-agent", ua_text ua) ] in
   modify (fun w =>
     let s := _session w in
     set_session (mk_session (headers_ ∪ headers s) (cookies s) (proxies s)) w)
  )%py.

(** One call of the body of [_scopus_auth]; the client reset it may ask
    for is passed in. *)
Definition scopus_auth_attempt (_reset_client : PM World unit)
    : PM World unit :=
  ptry_except
    (w <- lift get ;;
     let h := headers (_session w) in
     let auth_claim_headers : gmap string string := list_to_map
       [ ("accept", "*/*");
         ("accept-language", "ru,en;q=0.9,en-GB;q=0.8,en-US;q=0.7");
         ("priority", "u=1, i");
         ("sec-ch-ua", default "" (h !! "sec-ch-ua"));
         ("sec-ch-ua-mobile", default "" (h !! "sec-ch-ua-mobile"));
         ("sec-ch-ua-platform", default "" (h !! "sec-ch-ua-platform"));
         ("sec-fetch-dest", "empty");
         ("sec-fetch-mode", "cors");
         ("sec-fetch-site", "same-origin");
         ("user-agent", default "" (h !! "user-agent"));
         ("x-requested-with", "XMLHttpRequest") ] in
     r <- lift (session_get (AUTH_CLAIM_URI constants) auth_claim_headers []) ;;
     lift (print (Text (text r))) ;;;
     lift (raise_for_status r) ;;;
     r' <- lift (session_get (SCOPUS_URL constants) ∅ []) ;;
     lift (raise_for_status r'))
    [ ([HTTPError],
       fun e =>
         lift (logger_error [Lit "Unable to authorize to SCOPUS: "] e) ;;;
         _reset_client ;;;
         praise e);
      ([ProxyError; ConnectTimeout],
       fun e =>
         lift (logger_error [Lit "Proxy error: "] e) ;;;
         praise e) ].

(** [_reset_client], given the authentication it ends with. *)
Definition reset_client_then (_scopus_auth : PM World unit) : PM World unit :=
  lift (modify (fun w =>
          let s := _session w in
          set_session (mk_session (headers s) ∅ (proxies s)) w)) ;;;
  lift _update_session_headers ;;;
  _scopus_auth.

(** [_scopus_auth] as decorated: no [stop] is given to [retry]. *)
Fixpoint _scopus_auth (fuel : nat) : PM World unit :=
  match fuel with
  | O => fun _ => None
  | S fuel' =>
      retry fuel (retry_if_exc_type request_exc) wait_to_retry stop_never 1
            (scopus_auth_attempt (reset_client_then (_scopus_auth fuel')))
  end.

Definition _reset_client (fuel : nat) : PM World unit :=
  reset_client_then (_scopus_auth fuel).

Definition _init_client (fuel : nat) : PM World unit :=
  lift (modify (fun w =>
          let s := _session w in
          set_session (mk_session (headers s) (cookies s)
                                  (_proxies w ∪ proxies s)) w)) ;;;
  lift _update_session_headers ;;;
  _scopus_auth fuel.

Definition __enter__ (fuel : nat) : PM World unit := _init_client fuel.

(** [__exit__] closes the session's connections; headers and cookies stay. *)
Definition __exit__ : PM World unit := pret tt.

Definition soft_empty (status : Z) : bool :=
  bool_decide (status ∈ [400; 403; 404]).

(** One call of the body of [get_author]. *)
Definition get_author_attempt (_reset_client : PM World unit)
    (author_id : string) : PM World json :=
  ptry_except
    (response <-
       lift (session_get (BASE_AUTHOR_PROFILE_URL constants +:+ author_id) ∅ []) ;;
     if soft_empty (status_code response) then
       lift (print (Status (status_code response))) ;;;
       lift (print (Content (text response))) ;;;
       pret (JDict [])
     else
       lift (raise_for_status response) ;;;
       j <- lift (response_json response) ;;
       lift (logger_info [Lit "Author ID: "; Lit author_id; Lit " | "; Fmt j]) ;;;
       lift (response_json response))
    [ ([RequestException; JSONDecodeError],
       fun e =>
         lift (logger_error
                 [Lit "Author ID: "; Lit author_id;
                  Lit " | Unable to get author description: "] e) ;;;
         _reset_client ;;;
         praise e);
      ([ProxyError; ConnectTimeout],
       fun e =>
         lift (logger_error [Lit "Proxy error: "] e) ;;;
         praise e) ].

Definition get_author (fuel : nat) (author_id : string) : PM World json :=
  retry fuel (retry_if_exc_type request_exc) wait_to_retry stop_never 1
        (get_author_attempt (_reset_client fuel) author_id).

Definition author_documents_params (author_id : string)
    : list (string * string) :=
  [ ("allauthors", "false");
    ("authorid", author_id);
    ("documentClassificationEnum", "primary");
    ("itemcount", "10");
    ("offset", "0");
    ("outwardlinks", "true");
    ("preprint", "false");
    ("showAbstract", "false");
    ("sort", "plf-f") ].

(** One call of the body of [get_author_documents]. *)
Definition get_author_documents_attempt (_reset_client : PM World unit)
    (author_id : string) : PM World json :=
  ptry_except
    (let params_ := author_documents_params author_id in
     response <-
       lift (session_get (AUTHOR_DOCS_LIST_URL constants) ∅ params_) ;;
     if soft_empty (status_code response) then
       pret (JDict [])
     else
       lift (raise_for_status response) ;;;
       j <- lift (response_json response) ;;
       lift (logger_info [Lit "Author ID: "; Lit author_id; Lit " | "; Fmt j]) ;;;
       lift (response_json response))
    [ ([RequestException; JSONDecodeError],
       fun e =>
         lift (logger_error
                 [Lit "Author ID: "; Lit author_id;
                  Lit " | Unable to get author documents: "] e) ;;;
         _reset_client ;;;
         praise e);
      ([ProxyError; ConnectTimeout],
       fun e =>
         lift (logger_error [Lit "Proxy error: "] e) ;;;
         praise e) ].

Definition get_author_documents (fuel : nat) (author_id : string)
    : PM World json :=
  retry fuel (retry_if_exc_type request_exc) wait_to_retry stop_never 1
        (get_author_documents_attempt (_reset_client fuel) author_id).

End client.

(** ** Reading a trace, for the statements below *)

(** The requests that [get_author] and [get_author_documents] send from a
    given state of the session. *)
Definition author_request (constants : Constants) (author_id : string)
    (w : World) : Request :=
  mk_request (BASE_AUTHOR_PROFILE_URL constants +:+ author_id) []
             (∅ ∪ headers (_session w)) (cookies (_session w))
             (proxies (_session w)).

Definition author_documents_request (constants : Constants)
    (author_id : string) (w : World) : Request :=
  mk_request (AUTHOR_DOCS_LIST_URL constants)
             (author_documents_params author_id)
             (∅ ∪ headers (_session w)) (cookies (_session w))
             (proxies (_session w)).

Definition is_sleep (e : Event) : bool :=
  match e with Slept _ => true | _ => false end.
Definition sleeps (w : World) : list Event := List.filter is_sleep (trace w).

Definition is_sent_to (url_ : string) (e : Event) : bool :=
  match e with Sent r => String.eqb (url r) url_ | _ => false end.
(** The requests sent to one address: the attempts at it. *)
Definition attempts (url_ : string) (w : World) : nat :=
  length (List.filter (is_sent_to url_) (trace w)).

Definition auth_claim_request (constants : Constants) (w : World) : Request :=
  let h := headers (_session w) in
  mk_request (AUTH_CLAIM_URI constants) []
    (list_to_map
       [ ("accept", "*/*");
         ("accept-language", "ru,en;q=0.9,en-GB;q=0.8,en-US;q=0.7");
         ("priority", "u=1, i");
         ("sec-ch-ua", default "" (h !! "sec-ch-ua"));
         ("sec-ch-ua-mobile", default "" (h !! "sec-ch-ua-mobile"));
         ("sec-ch-ua-platform", default "" (h !! "sec-ch-ua-platform"));
         ("sec-fetch-dest", "empty");
         ("sec-fetch-mode", "cors");
         ("sec-fetch-site", "same-origin");
         ("user-agent", default "" (h !! "user-agent"));
         ("x-requested-with", "XMLHttpRequest") ] ∪ h)
    (cookies (_session w)) (proxies (_session w)).

(** Between [w] and [w'] one request went out and its response came in,
    and nothing else happened to the client: no sleep, no random draw, no
    new identity, the headers and proxies as they were, the cookie jar only
    taking what the response set. *)
Definition one_request_only (w w' : World) (response : Response) : Prop :=
  requests_sent w' = S (requests_sent w) /\
  sleeps w' = sleeps w /\
  randoms_drawn w' = randoms_drawn w /\
  ua_drawn w' = ua_drawn w /\
  headers (_session w') = headers (_session w) /\
  proxies (_session w') = proxies (_session w) /\
  cookies (_session w') = set_cookie response ∪ cookies (_session w).

(** The request that [_scopus_auth] sends to the site itself once the claim
    went through: it carries the cookies that the answer to the claim set. *)
Definition scopus_request (constants : Constants) (claim : Response)
    (w : World) : Request :=
  mk_request (SCOPUS_URL constants) []
             (∅ ∪ headers (_session w))
             (set_cookie claim ∪ cookies (_session w))
             (proxies (_session w)).

(** A status that [raise_for_status] lets through. *)
Definition status_ok (status : Z) : bool :=
  negb (Z.leb 400 status && Z.ltb status 600).

(** [_init_client]'s first step: the client's proxies go into the session. *)
Definition with_proxies (w : World) : World :=
  let s := _session w in
  set_session (mk_session (headers s) (cookies s) (_proxies w ∪ proxies s)) w.

(** What the client adds to the trace from a state [w] on: requests that go
    through the session's proxies, sleeps that [wait_to_retry] makes of a
    draw, log lines and prints. *)
Definition within_policy (w : World) (e : Event) : Prop :=
  match e with
  | Sent r => request_proxies r = proxies (_session w)
  | Slept seconds => exists n, seconds = wait_to_retry (random_source w n)
  | LogError _ _ | LogInfo _ | Print _ => True
  end.

(** [w'] is a later state of the client of [w]: the same surroundings, the
    same proxies, and the trace of [w] with events within the policy after
    it. *)
Definition continues (w w' : World) : Prop :=
  _proxies w' = _proxies w /\
  proxies (_session w') = proxies (_session w) /\
  network w' = network w /\
  ua_source w' = ua_source w /\
  random_source w' = random_source w /\
  exists events,
    trace w' = trace w ++ events /\ Forall (within_policy w) events.

Definition M_continues {A} (m : M World A) : Prop :=
  forall w, continues w (m w).2.

Definition PM_continues {A} (m : PM World A) : Prop :=
  forall w r w', m w = Some (r, w') -> continues w w'.

End scraper.

(* ===================================================================== *)
(** * main.py *)
(* ===================================================================== *)

Module main.
Import Py engine.

Definition OMSTU_AFF_INST_IDS : list string :=
  ["100459484"; "60075514"; "110906095"; "100339616"; "101349208";
   "100423925"].

Definition PUB_YEAR : list Z := [2024].

(** The process: the one client (once created) with its surroundings, and
    the one database. The logger is the client's. *)
Record Process := mk_process {
  client_created : bool;
  world : scraper.World;
  database : connector.Database
}.

Definition on_world {A} (m : PM scraper.World A) : PM Process A :=
  fun p =>
    match m (world p) with
    | None => None
    | Some (r, w) => Some (r, mk_process (client_created p) w (database p))
    end.

Definition on_db {A} (m : M connector.Database A) : M Process A :=
  fun p =>
    match m (database p) with
    | (r, db) => (r, mk_process (client_created p) (world p) db)
    end.

Definition _logger_error (message : list fragment) (e : exception)
    : M Process unit :=
  fun p =>
    match scraper.logger_error message e (world p) with
    | (r, w) => (r, mk_process (client_created p) w (database p))
    end.

Section driver.
(** Taken as given: the addresses of utils/constants.py, the proxy settings
    [_proxies], the session that [requests.Session()] builds, and what
    pydantic's [model_validate] makes of a payload for the Author and the
    Document schemes. *)
Context (constants : scraper.Constants)
        (_proxies : gmap string string)
        (Session : scraper.Session)
        (Author_model_validate : json -> outcome schemes.Author.t)
        (Document_model_validate : json -> outcome schemes.Document.t).

(** [ScopusClient(proxies)]: the instance is built at the first call only. *)
Definition ScopusClient (proxies : gmap string string) : M Process unit :=
  fun p =>
    if client_created p then (Return tt, p)
    else
      let w := world p in
      (Return tt,
       mk_process true
         (scraper.mk_world proxies Session (scraper.network w)
            (scraper.ua_source w) (scraper.random_source w)
            (scraper.requests_sent w) (scraper.ua_drawn w)
            (scraper.randoms_drawn w) (scraper.trace w))
         (database p)).

(** [with <manager>: body]: [exit] runs whether the body returns or raises,
    and lets the exception through. *)
Definition with_ {St A} (enter : PM St unit) (exit : St -> St)
    (body : PM St A) : PM St A :=
  fun s =>
    match enter s with
    | None => None
    | Some (Raise e, s1) => Some (Raise e, s1)
    | Some (Return _, s1) =>
        match body s1 with
        | None => None
        | Some (r, s2) => Some (r, exit s2)
        end
    end.

Definition connector_exit (p : Process) : Process :=
  (on_db connector.__exit__ p).2.

(** A value read from a payload, as a query parameter. *)
Definition as_parameter {St} (v : json) : M St value :=
  match v with
  | JNull => ret Null
  | JBool b => ret (Bool b)
  | JInt z => ret (Int z)
  | JStr s => ret (Str s)
  | JList _ | JDict _ => raise ProgrammingError
  end.

(** The condition of the comprehension in [_get_documents]:
    [document.get('pubYear', 0) or 0 in PUB_YEAR and not record_exists(..)],
    which Python reads as [a or ((0 in PUB_YEAR) and (not ..))]. *)
Definition keep_document (document : json) : M connector.Database bool :=
  match document with
  | JDict items =>
      if truthy (default (JInt 0) (assoc "pubYear" items)) then ret true
      else if existsb (Z.eqb 0) PUB_YEAR then
        (v <- as_parameter (default (JStr "") (assoc "scopusId" items)) ;;
         found <- connector.record_exists models.Document "scopus_id" v ;;
         ret (negb found))%py
      else ret false
  | _ => raise AttributeError
  end.

Fixpoint comprehension (items : list json) : M connector.Database (list json) :=
  match items with
  | [] => ret []
  | document :: rest =>
      (keep <- keep_document document ;;
       kept <- comprehension rest ;;
       ret (if keep then document :: kept else kept))%py
  end.

(** [documents.get('items', [])], then what iterating over it yields. *)
Definition items_of {St} (documents : json) : M St (list json) :=
  match documents with
  | JDict d =>
      match default (JList []) (assoc "items" d) with
      | JList items => ret items
      | JDict d' => ret (map (fun kv => JStr kv.1) d')
      | JStr s => ret (map (fun c => JStr (String c EmptyString))
                           (String.list_ascii_of_string s))
      | JNull | JBool _ | JInt _ => raise TypeError
      end
  | _ => raise AttributeError
  end.

Definition _get_documents (fuel : nat) (author_id : string)
    : PM Process (list json) :=
  (lift (ScopusClient _proxies) ;;;
   with_ (on_world (scraper.__enter__ constants fuel)) (fun p => p)
     (with_ (lift (on_db connector.__enter__)) connector_exit
        (documents <-
           on_world (scraper.get_author_documents constants fuel author_id) ;;
         items <- lift (items_of documents) ;;
         lift (on_db (comprehension items)))))%pyf.

(** The statements of one author's unit, in the order [_insert_author]
    issues them before it commits. *)
Definition author_unit (author : schemes.Author.t)
    : M connector.Database unit :=
  (connector.insert_affiliated_institution
     (schemes.Author.affiliated_institution author) ;;;
   for_each (schemes.Author.subject_areas author)
            connector.insert_subject_area ;;;
   connector.insert_author author)%py.

Definition _insert_author (author_desc : json) : PM Process unit :=
  with_ (lift (on_db connector.__enter__)) connector_exit
    (lift
       (try_except
          (fun p =>
             match Author_model_validate author_desc with
             | Raise e => (Raise e, p)
             | Return author =>
                 if negb (bool_decide
                            (schemes.Author.affiliated_institution_id author
                             ∈ OMSTU_AFF_INST_IDS))
                 then (Return tt, p)
                 else
                   (on_db (author_unit author) ;;;
                    on_db connector.session_commit)%py p
             end)
          [ ([ValidationError],
             fun e =>
               match author_desc with
               | JDict items =>
                   let author_id := default JNull (assoc "authorId" items) in
                   _logger_error
                     [Lit "Author ID: "; Fmt author_id; Lit " | "] e
               | _ => raise AttributeError
               end);
            ([SQLAlchemyError],
             fun e =>
               (on_db connector.session_rollback ;;;
                match Author_model_validate author_desc with
                | Return author =>
                    _logger_error
                      [Lit "Author ID: "; Lit (schemes.Author.id author);
                       Lit " | Unable to insert author description into database: "]
                      e
                | Raise _ => raise UnboundLocalError
                end)%py) ])).

(** The statements of one document's unit, in the order [_insert_document]
    issues them before it commits. *)
Definition document_unit (document : schemes.Document.t)
    : M connector.Database unit :=
  (connector.insert_source (schemes.Document.source document) ;;;
   for_each (schemes.Document.subject_areas document)
            connector.insert_subject_area ;;;
   connector.insert_document document)%py.

Definition _insert_document (author_id : string) (document_desc : json)
    : PM Process unit :=
  with_ (lift (on_db connector.__enter__)) connector_exit
    (lift
       (try_except
          (fun p =>
             match Document_model_validate document_desc with
             | Raise e => (Raise e, p)
             | Return document =>
                 (on_db (document_unit document) ;;;
                  on_db connector.session_commit)%py p
             end)
          [ ([ValidationError],
             fun e =>
               _logger_error [Lit "Author ID: "; Lit author_id; Lit " | "] e);
            ([SQLAlchemyError],
             fun e =>
               (on_db connector.session_rollback ;;;
                _logger_error
                  [Lit "Author ID: "; Lit author_id;
                   Lit " | Unable to insert document description into database: "]
                  e)%py) ])).

End driver.

(** ** Reading a payload and a database, for the statements below *)

(** The database as a session that has just been opened finds it. *)
Definition entered (db : connector.Database) : connector.Database :=
  (connector.__enter__ db).2.

(** The publication year a payload carries, when it is an integer. *)
Definition pub_year_of (document : json) : option Z :=
  match document with
  | JDict items =>
      match assoc "pubYear" items with Some (JInt y) => Some y | _ => None end
  | _ => None
  end.

(** Whether a payload carries a publication year that Python takes as true. *)
Definition has_year (document : json) : bool :=
  match document with
  | JDict items => truthy (default (JInt 0) (assoc "pubYear" items))
  | _ => false
  end.

Definition is_dict (v : json) : Prop := exists items, v = JDict items.

(** ** The authors of the documents, and the run over all authors *)

(** A value that can be a member of a set. *)
Inductive hashable :=
  | HNone
  | HBool (b : bool)
  | HInt (z : Z)
  | HStr (s : string).

#[export] Instance hashable_eq_dec : EqDecision hashable.
Proof. solve_decision. Defined.

(** [set(values)] hashes each value in turn; a list or a dict has no
    hash. *)
Fixpoint hash_all {St} (values : list json) : M St (list hashable) :=
  match values with
  | [] => ret []
  | v :: rest =>
      match v with
      | JNull => (hs <- hash_all rest ;; ret (HNone :: hs))%py
      | JBool b => (hs <- hash_all rest ;; ret (HBool b :: hs))%py
      | JInt z => (hs <- hash_all rest ;; ret (HInt z :: hs))%py
      | JStr s => (hs <- hash_all rest ;; ret (HStr s :: hs))%py
      | JList _ | JDict _ => raise TypeError
      end
  end.

(** What iterating over a value yields. *)
Definition iterate {St} (v : json) : M St (list json) :=
  match v with
  | JList items => ret items
  | JDict d => ret (map (fun kv => JStr kv.1) d)
  | JStr s => ret (map (fun c => JStr (String c EmptyString))
                       (String.list_ascii_of_string s))
  | JNull | JBool _ | JInt _ => raise TypeError
  end.

(** [author.get('authorId') for author in authors if author.get('authorId')] *)
Fixpoint authors_ids_of {St} (authors : list json) : M St (list json) :=
  match authors with
  | [] => ret []
  | author :: rest =>
      match author with
      | JDict a =>
          let author_id := default JNull (assoc "authorId" a) in
          (ids <- authors_ids_of rest ;;
           ret (if truthy author_id then author_id :: ids else ids))%py
      | _ => raise AttributeError
      end
  end.

(** The same over [document.get('authors', []) or []] of each document in
    turn. *)
Fixpoint documents_authors_ids {St} (documents : list json)
    : M St (list json) :=
  match documents with
  | [] => ret []
  | document :: rest =>
      match document with
      | JDict d =>
          let authors := default (JList []) (assoc "authors" d) in
          (authors_ <- (if truthy authors then iterate authors else ret []) ;;
           ids <- authors_ids_of authors_ ;;
           ids' <- documents_authors_ids rest ;;
           ret (ids ++ ids'))%py
      | _ => raise AttributeError
      end
  end.

(** An id as the parameter of the lookup and as the f-string of the
    address renders it.  The id column is a string column: the database
    refuses to compare it with a number or a boolean. *)
Definition as_author_id (doc_author_id : hashable) : option (value * string) :=
  match doc_author_id with
  | HStr s => Some (Str s, s)
  | HNone => Some (Null, "None")
  | HBool _ | HInt _ => None
  end.

Fixpoint pfor_each {St A} (xs : list A) (body : A -> PM St unit)
    : PM St unit :=
  match xs with
  | [] => pret tt
  | x :: xs' => pbind (body x) (fun _ => pfor_each xs' body)
  end.

Section run.
(** Taken as given, beside what the driver takes: the order in which
    [list(set(..))] hands the members of a set back. *)
Context (constants : scraper.Constants)
        (_proxies : gmap string string)
        (Session : scraper.Session)
        (Author_model_validate : json -> outcome schemes.Author.t)
        (Document_model_validate : json -> outcome schemes.Document.t)
        (list_set : list hashable -> list hashable).

(** [[client.get_author(author_id=doc_author_id)
      for doc_author_id in authors_ids
      if not connector.record_exists(models.Author, 'id', doc_author_id)]] *)
Fixpoint fetch_new (fuel : nat) (authors_ids : list hashable)
    : PM Process (list json) :=
  match authors_ids with
  | [] => pret []
  | doc_author_id :: rest =>
      match as_author_id doc_author_id with
      | None => praise ProgrammingError
      | Some (parameter, rendered) =>
          (found <- lift (on_db (connector.record_exists models.Author "id"
                                   parameter)) ;;
           if found then fetch_new fuel rest
           else
             author <- on_world (scraper.get_author constants fuel rendered) ;;
             authors <- fetch_new fuel rest ;;
             pret (author :: authors))%pyf
      end
  end.

Definition _get_documents_authors (fuel : nat) (author_id : string)
    (documents : list json) : PM Process (list json) :=
  (authors_ids <- lift (documents_authors_ids documents) ;;
   members <- lift (hash_all (authors_ids ++ [JStr author_id])) ;;
   let authors_ids := list_set members in
   lift (ScopusClient Session _proxies) ;;;
   with_ (on_world (scraper.__enter__ constants fuel)) (fun p => p)
     (with_ (lift (on_db connector.__enter__)) connector_exit
        (fetch_new fuel authors_ids)))%pyf.

Definition main (fuel : nat) (authors_id : list string) : PM Process unit :=
  pfor_each authors_id (fun author_id =>
    (documents <- _get_documents constants _proxies Session fuel author_id ;;
     authors <- _get_documents_authors fuel author_id documents ;;
     pfor_each authors (_insert_author Author_model_validate) ;;;
     pfor_each documents
               (_insert_document Document_model_validate author_id))%pyf).

End run.

(** The call leaves every committed table but the named ones as it was. *)
Definition commits_within {A} (tbls : list string) (m : PM Process A) : Prop :=
  forall p r p',
    m p = Some (r, p') ->
    forall tbl, tbl ∉ tbls ->
      connector.committed (database p') !! tbl
      = connector.committed (database p) !! tbl.

(** The tables of the authors, and the tables of the documents. *)
Definition author_tables : list string :=
  ["authors_affiliated_institutions"; "subject_areas"; "authors";
   "authors_name_variants"; "authors_subject_areas"].

Definition document_tables : list string :=
  ["sources"; "documents"; "documents_titles"; "documents_abstract_texts";
   "documents_sources"; "documents_sources_relationships";
   "documents_authorship"; "documents_subject_areas"].

End main.

(* ===================================================================== *)
(** * Concrete inputs used in the statements below *)
(* ===================================================================== *)

Module examples.
Import Py engine connector.

Definition empty_db : Database := mk_db ∅ ∅ ∅.

Definition X_code_17 : schemes.SubjectArea.t :=
  schemes.SubjectArea.mk "X" (Some 17) None.
Definition X_codename_COMP : schemes.SubjectArea.t :=
  schemes.SubjectArea.mk "X" None (Some "COMP").
Definition X_code_99 : schemes.SubjectArea.t :=
  schemes.SubjectArea.mk "X" (Some 99) None.

(** The subject-area row that the two first upserts leave behind. *)
Definition X_17_COMP : row :=
  schemes.dict [ ("id", Int 1); ("name", Str "X"); ("code", Int 17);
                 ("codename", Str "COMP") ].

Definition db_X_17_COMP : Database :=
  (Py.bind (insert_subject_area X_code_17)
           (fun _ => insert_subject_area X_codename_COMP) empty_db).2.

(** A database holding one name variant of author A1. *)
Definition variant_row : row :=
  schemes.dict [ ("id", Int 1); ("author_id", Str "A1"); ("name", Str "N") ].
Definition db_one_variant : Database :=
  mk_db {[ "authors_name_variants" := [variant_row] ]}
        {[ "authors_name_variants" := [variant_row] ]}
        {[ "authors_name_variants" := 2 ]}.
(** The same key again, with another id in the payload. *)
Definition variant_again : row :=
  schemes.dict [ ("id", Int 7); ("author_id", Str "A1"); ("name", Str "N") ].

(** A subject area that brings both its code and its codename. *)
Definition X_both : schemes.SubjectArea.t :=
  schemes.SubjectArea.mk "X" (Some 17) (Some "COMP").

(** An author of one of the institutions looked for, and the database once
    the institution and the subject area are in. *)
Definition institution_60075514 : schemes.AffiliatedInstitution.t :=
  schemes.AffiliatedInstitution.mk "60075514" "OmSTU" "Russian Federation"
    "Omsk" None None None None None.
Definition author_A1 : schemes.Author.t :=
  schemes.Author.mk "A1" "9-s2.0-A1" None "Ada" "Lovelace" "Lovelace, Ada"
    [Some "Lovelace A."] None institution_60075514 "60075514"
    None None None None None [X_codename_COMP].
Definition db_before_author_A1 : Database :=
  (Py.bind (insert_affiliated_institution institution_60075514)
           (fun _ => insert_subject_area X_codename_COMP) db_X_17_COMP).2.

(** An author whose one subject area brings both a code and a codename, and
    a validator that makes this author of every payload. *)
Definition author_A2 : schemes.Author.t :=
  schemes.Author.mk "A2" "9-s2.0-A2" None "Alan" "Turing" "Turing, Alan"
    [] None institution_60075514 "60075514"
    None None None None None [X_both].
Definition validates_to_A2 (author_desc : json) : outcome schemes.Author.t :=
  Return author_A2.

(** ** A client and a network *)

Import scraper.

Definition constants : Constants :=
  mk_constants "https://scopus.test/auth/claim" "https://scopus.test/"
               "https://scopus.test/api/authors/"
               "https://scopus.test/api/documents/search".

Definition author_url : string := "https://scopus.test/api/authors/42".

Definition ok_200 : Response := mk_response 200 "" None ∅.
Definition profile : json := JDict [("authorId", JStr "42")].
Definition profile_200 : Response := mk_response 200 "{..}" (Some profile) ∅.
Definition not_found_404 : Response := mk_response 404 "" None ∅.

Definition user_agents (n : nat) : UserAgent :=
  mk_ua (if Nat.eqb n 0 then "UA-0" else "UA-n") "brands" "?0" "Linux".

(** An authenticated client: an identity and a session cookie. *)
Definition client (net : nat -> Request -> outcome Response) : World :=
  mk_world ∅
    (mk_session {[ "user-agent" := "UA-init" ]} {[ "SCSessionID" := "s1" ]} ∅)
    net user_agents (fun _ => (1 # 2)%Q) 0 0 0 [].

(** The author profile is behind a failing proxy for its first [k]
    requests (each failed one is followed by the two requests of a new
    authentication); every other request is answered 200. *)
Definition proxy_fails (k : nat) : nat -> Request -> outcome Response :=
  fun n request =>
    if String.eqb (url request) author_url then
      if Nat.ltb n (3 * k) then Raise ProxyError else Return profile_200
    else Return ok_200.

(** The author profile is behind a proxy that never recovers. *)
Definition proxy_down : nat -> Request -> outcome Response :=
  fun n request =>
    if String.eqb (url request) author_url then Raise ProxyError
    else Return ok_200.

(** Every request is answered 404. *)
Definition all_404 : nat -> Request -> outcome Response :=
  fun _ _ => Return not_found_404.

(** The claim address is behind a failing proxy for the first request. *)
Definition auth_proxy_fails_once : nat -> Request -> outcome Response :=
  fun n _ => if Nat.eqb n 0 then Raise ProxyError else Return ok_200.


(** Sending fails with something that is no request exception. *)
Definition unexpected : nat -> Request -> outcome Response :=
  fun _ _ => Raise TypeError.

(** A client that has proxies of its own and a session without any. *)
Definition client_with_proxies (net : nat -> Request -> outcome Response)
    : World :=
  mk_world {[ "https" := "http://proxy.test:3128" ]}
    (mk_session ∅ ∅ ∅) net user_agents (fun _ => (1 # 2)%Q) 0 0 0 [].

(** ** A document listing *)

Definition doc_2023 : json :=
  JDict [("scopusId", JStr "85182507917"); ("pubYear", JInt 2023);
         ("title", JStr "Bot Detection Using Mouse Movements")].
Definition doc_2024 : json :=
  JDict [("scopusId", JStr "85190000000"); ("pubYear", JInt 2024);
         ("title", JStr "A Later Paper")].
Definition doc_no_year : json :=
  JDict [("scopusId", JStr "85170000000"); ("title", JStr "Undated")].

Definition listing_200 : Response :=
  mk_response 200 "{..}"
    (Some (JDict [("items", JList [doc_2023; doc_2024; doc_no_year])])) ∅.

(** The document listing is answered with the three documents above, every
    other request with a bare 200. *)
Definition listing : nat -> Request -> outcome Response :=
  fun _ request =>
    if String.eqb (url request) (AUTHOR_DOCS_LIST_URL constants)
    then Return listing_200 else Return ok_200.

Definition fresh_session : Session := mk_session ∅ ∅ ∅.

(** A process that has not built its client yet, over an empty database. *)
Definition process (net : nat -> Request -> outcome Response) : main.Process :=
  main.mk_process false (client net) empty_db.

(** The document listing is answered with the three documents, an author
    profile with 404, every other request with a bare 200. *)
Definition listing_without_profiles : nat -> Request -> outcome Response :=
  fun _ request =>
    if String.eqb (url request) (AUTHOR_DOCS_LIST_URL constants)
    then Return listing_200
    else if String.eqb (url request) author_url then Return not_found_404
    else Return ok_200.

(** Validators for a run: every author payload is taken for author A1, no
    document payload validates. *)
Definition validates_to_A1 (author_desc : json) : outcome schemes.Author.t :=
  Return author_A1.
Definition never_validates (document_desc : json)
    : outcome schemes.Document.t :=
  Raise ValidationError.

(** An order for the members of a set: that of their first occurrence. *)
Definition first_occurrences (members : list main.hashable)
    : list main.hashable :=
  @remove_dups _ main.hashable_eq_dec members.

(** ** Raw payloads *)






(** ASCII digits only, for the payloads at hand. *)
Definition ascii_isdecimal (s : string) : bool :=
  negb (String.eqb s "")
  && forallb (fun c => (48 <=? Z.of_N (Ascii.N_of_ascii c))
                       && (Z.of_N (Ascii.N_of_ascii c) <=? 57))%Z
             (String.list_ascii_of_string s).

(** A subject area as an author profile has it, as objects. *)
Definition subject_area_payload : json :=
  JDict [("displayName", JStr "Computer Science"); ("code", JStr "COMP")].
Definition subject_area_heap : objects.heap :=
  (objects.load subject_area_payload ∅).2.
Definition subject_area_data : objects.val :=
  match (objects.load subject_area_payload ∅).1 with
  | Return v => v
  | Raise _ => objects.VNone
  end.

(** An institution with its address, as objects. *)
Definition institution_payload : json :=
  JDict [("id", JStr "60075514"); ("name", JStr "OmSTU");
         ("address", JDict [("city", JStr "Omsk");
                            ("country", JStr "Russian Federation")])].
Definition institution_heap : objects.heap :=
  (objects.load institution_payload ∅).2.
Definition institution_data : objects.val :=
  match (objects.load institution_payload ∅).1 with
  | Return v => v
  | Raise _ => objects.VNone
  end.

End examples.

(* ===================================================================== *)
(** * Facts about the connector and the statements it issues *)
(* ===================================================================== *)

Module db_facts.
Import Py engine connector schemes.
Local Open Scope Z_scope.
Local Open Scope string_scope.
Local Open Scope list_scope.

Lemma subject_area_proposed_name sa seqs :
  cell (proposed_row models.SubjectArea (SubjectArea.model_dump sa) seqs).1 "name"
  = Str (SubjectArea.name sa).
Proof. destruct sa as [n c cn]. vm_compute. reflexivity. Qed.

Lemma conflicts_name (r r' : row) n :
  cell r "name" = Str n ->
  conflicts ["name"] r r' = true <-> cell r' "name" = Str n.
Proof.
  intros Hr. unfold conflicts, key_of. cbn. rewrite Hr.
  rewrite (bool_decide_eq_false_2 (Str n = Null)) by discriminate. cbn.
  rewrite bool_decide_eq_true.
  destruct (bool_decide (cell r' "name" = Null)) eqn:E; cbn.
  - apply bool_decide_eq_true in E. rewrite E. split; discriminate.
  - split; [intros [= ->]; done | intros ->; done].
Qed.

Lemma update_values_known sa :
  known_columns models.SubjectArea (update_values sa) = true.
Proof.
  unfold update_values.
  destruct (_ && _); [reflexivity|]. destruct (_ && _); reflexivity.
Qed.

Lemma execute_conflict_hit stmt oc t seqs r seqs' i old :
  known_columns (table stmt) (values stmt) = true ->
  proposed_row (table stmt) (values stmt) seqs = (r, seqs') ->
  conflict stmt = Some oc ->
  infer_arbiter (table stmt) (index_elements_of oc) = true ->
  list_find (fun r' => conflicts (index_elements_of oc) r r' = true)
            (rows_of t (table stmt)) = Some (i, old) ->
  execute stmt (t, seqs) =
    match oc with
    | DoNothing _ => (Return tt, (t, seqs'))
    | DoUpdate _ set_ =>
        if negb (known_columns (table stmt) set_)
        then (Raise CompileError, (t, seqs))
        else match update_row (table stmt) i old set_ t with
             | Return t' => (Return tt, (t', seqs'))
             | Raise e => (Raise e, (t, seqs'))
             end
    end.
Proof.
  intros Hk Hp Hc Ha Hf. unfold execute.
  rewrite Hk, Hp, Hc, Ha, Hf. reflexivity.
Qed.

Lemma execute_conflict_miss stmt oc t seqs r seqs' :
  known_columns (table stmt) (values stmt) = true ->
  proposed_row (table stmt) (values stmt) seqs = (r, seqs') ->
  conflict stmt = Some oc ->
  infer_arbiter (table stmt) (index_elements_of oc) = true ->
  list_find (fun r' => conflicts (index_elements_of oc) r r' = true)
            (rows_of t (table stmt)) = None ->
  execute stmt (t, seqs) =
    match plain_insert (table stmt) r t with
    | Return t' => (Return tt, (t', seqs'))
    | Raise e => (Raise e, (t, seqs'))
    end.
Proof.
  intros Hk Hp Hc Ha Hf. unfold execute.
  rewrite Hk, Hp, Hc, Ha, Hf. reflexivity.
Qed.

Lemma update_row_cases m i old set_ t :
  update_row m i old set_ t =
    Return (<[models.__tablename__ m := <[i := set_ ∪ old]> (rows_of t m)]> t)
  \/ update_row m i old set_ t = Raise IntegrityError.
Proof. unfold update_row. destruct (_ && _); auto. Qed.

Lemma subject_area_known sa :
  known_columns models.SubjectArea (SubjectArea.model_dump sa) = true.
Proof. destruct sa. reflexivity. Qed.

Lemma insert_subject_area_on_conflict sa db i old :
  subject_area_named (session db) (SubjectArea.name sa) = Some (i, old) ->
  update_values sa ≠ ∅ ->
  let new := update_values sa ∪ old in
  let res := insert_subject_area sa db in
  committed res.2 = committed db /\
  ( res.1 = Return tt /\
    session res.2 =
      <["subject_areas" := <[i := new]> (rows_of (session db) models.SubjectArea)]>
        (session db)
    \/
    res.1 = Raise IntegrityError /\ session res.2 = session db ).
Proof.
  intros Hfind Hne new res. subst res new.
  unfold insert_subject_area, bind, on_conflict_do_update.
  destruct (decide (update_values sa = ∅)) as [|_]; [done|].
  unfold ret, session_execute.
  destruct (proposed_row models.SubjectArea (SubjectArea.model_dump sa)
              (sequence_values db)) as [r seqs'] eqn:Hp.
  erewrite execute_conflict_hit with (i := i) (old := old);
    [ | apply subject_area_known | exact Hp | reflexivity | reflexivity | ].
  - cbn [table values conflict insert]. rewrite update_values_known. cbn [negb].
    destruct (update_row_cases models.SubjectArea i old (update_values sa)
                (session db)) as [-> | ->]; cbn; auto.
  - cbn [index_elements_of table insert].
    erewrite list_find_ext; [exact Hfind|].
    intros r'. apply conflicts_name.
    pose proof (subject_area_proposed_name sa (sequence_values db)) as Hn.
    rewrite Hp in Hn. exact Hn.
Qed.

Lemma list_find_insert_hit {A} (P : A -> Prop) `{!forall x, Decision (P x)}
    (l : list A) i x y :
  list_find P l = Some (i, x) -> P y -> list_find P (<[i := y]> l) = Some (i, y).
Proof.
  intros Hf Hy. apply list_find_Some in Hf as (Hl & _ & Hmin).
  apply list_find_Some. split_and!.
  - apply list_lookup_insert_eq. by eapply lookup_lt_Some.
  - done.
  - intros j z Hj Hlt. rewrite list_lookup_insert_ne in Hj by lia. eauto.
Qed.

Lemma rows_of_insert (t : tables) (m : models.Base) rows :
  rows_of (<[models.__tablename__ m := rows]> t) m = rows.
Proof. unfold rows_of. by rewrite lookup_insert_eq. Qed.

Lemma update_values_supplied sa col :
  supplied sa = Some col ->
  update_values sa = {[ col := cell (SubjectArea.model_dump sa) col ]}.
Proof.
  unfold supplied, update_values. destruct sa as [n c cn]. cbn.
  destruct (truthy_int c && negb (truthy_str cn)).
  { intros [= <-]. reflexivity. }
  destruct (negb (truthy_int c) && truthy_str cn); [|done].
  intros [= <-]. reflexivity.
Qed.

Lemma supplied_not_name sa col : supplied sa = Some col -> col <> "name".
Proof.
  unfold supplied. repeat case_match; intros [= <-]; done.
Qed.

Lemma insert_subject_area_merge sa db i old col :
  subject_area_named (session db) (SubjectArea.name sa) = Some (i, old) ->
  supplied sa = Some col ->
  let res := insert_subject_area sa db in
  committed res.2 = committed db /\
  exists new,
    subject_area_named (session res.2) (SubjectArea.name sa) = Some (i, new) /\
    (forall c, c <> col -> new !! c = old !! c) /\
    (res.1 = Return tt -> cell new col = cell (SubjectArea.model_dump sa) col) /\
    (res.1 <> Return tt -> session res.2 = session db).
Proof.
  intros Hfind Hs res.
  pose proof (update_values_supplied sa col Hs) as Hu.
  destruct (insert_subject_area_on_conflict sa db i old Hfind) as (Hc & Hcases).
  { rewrite Hu. apply insert_non_empty. }
  fold res in Hc, Hcases. split; [exact Hc|].
  destruct Hcases as [(Hr & Hsess) | (Hr & Hsess)].
  - exists (update_values sa ∪ old). rewrite Hsess, Hu. split_and!.
    + unfold subject_area_named.
      change "subject_areas" with (models.__tablename__ models.SubjectArea).
      rewrite rows_of_insert. eapply list_find_insert_hit; [exact Hfind|].
      apply list_find_Some in Hfind as (_ & Hn & _).
      unfold cell in *. rewrite lookup_union_r; [exact Hn|].
      apply lookup_singleton_ne. exact (supplied_not_name _ _ Hs).
    + intros c Hne. rewrite lookup_union_r; [done|].
      by apply lookup_singleton_ne.
    + intros _. unfold cell at 1.
      erewrite lookup_union_Some_l; [done|]. apply lookup_singleton_eq.
    + rewrite Hr. done.
  - exists old. rewrite Hsess. split_and!; try done.
    rewrite Hr. done.
Qed.
Lemma proposed_row_lookup m vals seqs c v :
  known_columns m vals = true ->
  vals !! c = Some v ->
  (proposed_row m vals seqs).1 !! c = Some v.
Proof.
  intros Hk Hv. unfold known_columns in Hk. apply bool_decide_eq_true in Hk.
  assert (c ∈ models.column_names m) as Hc.
  { assert (c ∈ dom vals) as Hd by (apply elem_of_dom; eauto).
    apply Hk in Hd. by apply elem_of_list_to_set in Hd. }
  unfold proposed_row. destruct (nextval _ _) as [n seqs']. cbn [fst].
  unfold models.column_names in Hc.
  induction (models.columns m) as [|col cols IH]; [by apply elem_of_nil in Hc|].
  cbn. destruct (decide (models.name col = c)) as [->|Hne].
  - rewrite lookup_insert_eq, Hv. done.
  - rewrite lookup_insert_ne by done. apply IH.
    cbn in Hc. apply elem_of_cons in Hc as [?|?]; [congruence|done].
Qed.

Lemma key_of_ext ix (r r' : row) :
  (forall c, c ∈ ix -> cell r c = cell r' c) -> key_of ix r = key_of ix r'.
Proof.
  intros H. unfold key_of.
  assert (map (cell r) ix = map (cell r') ix) as ->.
  { apply map_ext_in. intros c Hc. apply H. by apply list_elem_of_In. }
  assert (existsb (fun c => bool_decide (cell r c = Null)) ix
          = existsb (fun c => bool_decide (cell r' c = Null)) ix) as ->; [|done].
  induction ix as [|c ix IH]; [done|]. cbn.
  rewrite H by left. f_equal. apply IH. intros c' Hc'. apply H. by right.
Qed.

Lemma key_of_not_null ix (r : row) k c :
  key_of ix r = Some k -> c ∈ ix -> cell r c <> Null.
Proof.
  unfold key_of. destruct (existsb _ ix) eqn:E; [done|]. intros _ Hc Hn.
  apply not_true_iff_false in E. apply E, existsb_exists.
  exists c. split; [by apply list_elem_of_In | by apply bool_decide_eq_true].
Qed.

Lemma key_of_proposed m vals seqs ix k :
  known_columns m vals = true ->
  key_of ix vals = Some k ->
  key_of ix (proposed_row m vals seqs).1 = Some k.
Proof.
  intros Hk Hkey. rewrite <- Hkey. apply key_of_ext. intros c Hc.
  pose proof (key_of_not_null _ _ _ _ Hkey Hc) as Hnn.
  unfold cell in *. destruct (vals !! c) as [v|] eqn:Hv; [|done].
  by erewrite proposed_row_lookup.
Qed.

Lemma plain_insert_cases m r t :
  plain_insert m r t =
    Return (<[models.__tablename__ m := rows_of t m ++ [r]]> t)
  \/ plain_insert m r t = Raise IntegrityError.
Proof. unfold plain_insert. destruct (_ && _); auto. Qed.

(** What a do-nothing upsert can do to the session's tables. *)
Lemma insert_record_do_nothing_cases model record index_elements db :
  let res := insert_record model record index_elements false db in
  committed res.2 = committed db /\
  (session res.2 = session db \/
   res.1 = Return tt /\
   exists r, session res.2 =
     <[models.__tablename__ model := rows_of (session db) model ++ [r]]> (session db)).
Proof.
  intros res. subst res. unfold insert_record, bind, ret, session_execute, execute.
  cbn [table values conflict insert on_conflict_do_nothing index_elements_of].
  destruct (negb (known_columns model record)); [cbn; auto|].
  destruct (proposed_row model record (sequence_values db)) as [r seqs'].
  destruct (negb (infer_arbiter model index_elements)); [cbn; auto|].
  destruct (list_find _ _) as [[i old]|]; [cbn; auto|].
  destruct (plain_insert_cases model r (session db)) as [-> | ->]; cbn; eauto.
Qed.

Lemma insert_record_do_nothing_conflict model record index_elements db old k :
  old ∈ rows_of (session db) model ->
  key_of index_elements record = Some k ->
  key_of index_elements old = Some k ->
  let res := insert_record model record index_elements false db in
  session res.2 = session db /\ committed res.2 = committed db.
Proof.
  intros Hold Hk Hko res. subst res.
  unfold insert_record, bind, ret, session_execute, execute.
  cbn [table values conflict insert on_conflict_do_nothing index_elements_of].
  destruct (known_columns model record) eqn:Hkn; [|cbn; auto].
  cbn [negb].
  pose proof (key_of_proposed model record (sequence_values db) _ _ Hkn Hk) as Hp.
  destruct (proposed_row model record (sequence_values db)) as [r seqs'].
  cbn [fst] in Hp.
  destruct (negb (infer_arbiter model index_elements)); [cbn; auto|].
  destruct (list_find _ _) as [[i old']|] eqn:Hf; [cbn; auto|].
  exfalso. apply list_find_None in Hf. rewrite Forall_forall in Hf.
  apply (Hf old Hold). unfold conflicts. rewrite Hp.
  apply bool_decide_eq_true. done.
Qed.

(** ** Refresh upserts *)

Lemma proposed_row_no_serial m vals seqs :
  no_serial m = true ->
  proposed_row m vals seqs = ((proposed_row m vals ∅).1, seqs).
Proof.
  unfold no_serial, proposed_row, uses_sequence. intros Hn.
  destruct (nextval seqs _) as [n s1]. destruct (nextval ∅ _) as [n0 s0].
  cbn [fst]. f_equal.
  - f_equal. induction (models.columns m) as [|c cs IH]; [done|].
    cbn in Hn. apply andb_true_iff in Hn as [Hc Hcs].
    cbn. apply negb_true_iff in Hc. rewrite Hc. f_equal. by apply IH.
  - assert (existsb (fun c => models.autoincrement c
                       && bool_decide (vals !! models.name c = None))
              (models.columns m) = false) as ->; [|done].
    induction (models.columns m) as [|c cs IH]; [done|].
    cbn in Hn. apply andb_true_iff in Hn as [Hc Hcs].
    cbn. apply negb_true_iff in Hc. rewrite Hc. cbn. by apply IH.
Qed.

Lemma not_null_key m ix (r : row) :
  non_nullable m ix = true -> not_null_ok m r = true ->
  exists k, key_of ix r = Some k.
Proof.
  unfold non_nullable, not_null_ok, key_of. intros Hix Hnn.
  assert (existsb (fun c => bool_decide (cell r c = Null)) ix = false) as ->;
    [|eauto].
  apply not_true_iff_false. intros (c & Hc & Hnull)%existsb_exists.
  apply bool_decide_eq_true in Hnull.
  rewrite forallb_forall in Hix. apply Hix in Hc.
  apply existsb_exists in Hc as (col & Hcol & Hp).
  apply andb_true_iff in Hp as [Hname Hnullable].
  apply bool_decide_eq_true in Hname. subst c.
  rewrite forallb_forall in Hnn. apply Hnn in Hcol.
  apply negb_true_iff in Hnullable. rewrite Hnullable in Hcol. cbn in Hcol.
  apply negb_true_iff, bool_decide_eq_false in Hcol. done.
Qed.

Lemma still_referenced_same t m (r : row) : still_referenced_ok t m r r = true.
Proof.
  unfold still_referenced_ok. apply forallb_forall. intros m' _.
  apply forallb_forall. intros c' _.
  destruct (models.ForeignKey c') as [[tbl tc]|]; [|done].
  destruct (bool_decide (tbl = _)); [|done].
  rewrite (bool_decide_eq_true_2 (cell r tc = cell r tc)) by done. done.
Qed.

Lemma list_delete_insert {A} (l : list A) i x :
  delete i (<[i := x]> l) = delete i l.
Proof.
  revert i. induction l as [|y l IH]; intros [|i]; [done..|].
  cbn. f_equal. apply IH.
Qed.

Lemma list_delete_app_last {A} (l : list A) x :
  delete (length l) (l ++ [x]) = l.
Proof. induction l as [|y l IH]; [done|]. cbn. f_equal. exact IH. Qed.

Lemma filter_key_subseteq_proposed m (record : row) (ix : list string) seqs :
  known_columns m record = true ->
  filter (fun kv : string * value => kv.1 ∉ ix) record ⊆ (proposed_row m record seqs).1.
Proof.
  intros Hk. apply map_subseteq_spec. intros c v Hc.
  apply map_lookup_filter_Some_1_1 in Hc. by apply proposed_row_lookup.
Qed.

Lemma key_of_update (ix : list string) (record old : row) :
  key_of ix (filter (fun kv : string * value => kv.1 ∉ ix) record ∪ old) = key_of ix old.
Proof.
  apply key_of_ext. intros c Hc. unfold cell. rewrite lookup_union_r; [done|].
  apply map_lookup_filter_None_2. right. intros x _ Hn. by apply Hn.
Qed.

Lemma filter_known m (record : row) (ix : list string) :
  known_columns m record = true ->
  known_columns m (filter (fun kv : string * value => kv.1 ∉ ix) record) = true.
Proof.
  unfold known_columns. rewrite !bool_decide_eq_true. intros H c Hc.
  apply H. apply elem_of_dom. apply elem_of_dom in Hc as [v Hv].
  apply map_lookup_filter_Some_1_1 in Hv. eauto.
Qed.

Lemma update_row_Return m i old set_ t t' :
  update_row m i old set_ t = Return t' <->
  t' = <[models.__tablename__ m := <[i := set_ ∪ old]> (rows_of t m)]> t /\
  not_null_ok m (set_ ∪ old) = true /\
  unique_ok m (set_ ∪ old) (delete i (rows_of t m)) = true /\
  foreign_keys_ok t' m (set_ ∪ old) = true /\
  still_referenced_ok t' m old (set_ ∪ old) = true.
Proof.
  unfold update_row. split.
  - destruct (_ && _) eqn:E; [|discriminate]. intros [= <-].
    repeat (apply andb_true_iff in E as [E ?]). done.
  - intros (-> & -> & -> & -> & ->). done.
Qed.

Lemma plain_insert_Return m r t t' :
  plain_insert m r t = Return t' <->
  t' = <[models.__tablename__ m := rows_of t m ++ [r]]> t /\
  not_null_ok m r = true /\
  unique_ok m r (rows_of t m) = true /\
  foreign_keys_ok t' m r = true.
Proof.
  unfold plain_insert. split.
  - destruct (_ && _) eqn:E; [|discriminate]. intros [= <-].
    repeat (apply andb_true_iff in E as [E ?]). done.
  - intros (-> & -> & -> & ->). done.
Qed.

(** A refresh upsert that went through, read backwards. *)
Lemma insert_record_refresh_Return model record ix db db1 :
  insert_record model record ix true db = (Return tt, db1) ->
  let set_ := filter (fun kv : string * value => kv.1 ∉ ix) record in
  let pr := proposed_row model record (sequence_values db) in
  set_ <> ∅ /\ known_columns model record = true /\
  infer_arbiter model ix = true /\
  committed db1 = committed db /\ sequence_values db1 = pr.2 /\
  match list_find (fun r' => conflicts ix pr.1 r' = true)
                  (rows_of (session db) model) with
  | Some (i, old) => update_row model i old set_ (session db) = Return (session db1)
  | None => plain_insert model pr.1 (session db) = Return (session db1)
  end.
Proof.
  intros H. cbv zeta. unfold insert_record, bind, on_conflict_do_update in H.
  set (set_ := filter (fun kv : string * value => kv.1 ∉ ix) record) in *.
  set (pr := proposed_row model record (sequence_values db)) in *. destruct (decide (set_ = ∅)) as [|Hne]; [discriminate|].
  unfold ret, session_execute, execute in H.
  cbn [table values conflict insert index_elements_of] in H.
  destruct (known_columns model record) eqn:Hk; [|discriminate].
  cbn [negb] in H. fold pr in H. destruct pr as [r seqs'] eqn:Hpr.
  destruct (infer_arbiter model ix) eqn:Ha; [|discriminate]. cbn [negb] in H.
  cbn [fst snd].
  destruct (list_find _ _) as [[i old]|].
  - destruct (known_columns model set_); [|discriminate]. cbn [negb] in H.
    destruct (update_row _ _ _ _ _); [|discriminate].
    injection H as <-. done.
  - destruct (plain_insert _ _ _); [|discriminate].
    injection H as <-. done.
Qed.

Lemma insert_record_refresh_hit model record ix db i old t' :
  let set_ := filter (fun kv : string * value => kv.1 ∉ ix) record in
  let pr := proposed_row model record (sequence_values db) in
  set_ <> ∅ -> known_columns model record = true ->
  infer_arbiter model ix = true ->
  list_find (fun r' => conflicts ix pr.1 r' = true)
            (rows_of (session db) model) = Some (i, old) ->
  update_row model i old set_ (session db) = Return t' ->
  insert_record model record ix true db
  = (Return tt, mk_db (committed db) t' pr.2).
Proof.
  cbv zeta. intros Hne Hk Ha Hf Hu.
  set (set_ := filter (fun kv : string * value => kv.1 ∉ ix) record) in *.
  unfold insert_record, bind, on_conflict_do_update. fold set_.
  destruct (decide (set_ = ∅)); [done|].
  unfold ret, session_execute.
  erewrite execute_conflict_hit;
    [ | exact Hk | apply surjective_pairing | reflexivity | exact Ha | exact Hf ].
  cbn [table values conflict insert].
  pose proof (filter_known model record ix Hk) as Hfk. fold set_ in Hfk.
  rewrite Hfk. cbn [negb]. rewrite Hu. done.
Qed.

Lemma insert_record_refresh_again model record ix db db1 :
  no_serial model = true ->
  non_nullable model ix = true ->
  insert_record model record ix true db = (Return tt, db1) ->
  insert_record model record ix true db1 = (Return tt, db1).
Proof.
  intros Hns Hnn H.
  apply insert_record_refresh_Return in H as (Hne & Hk & Ha & Hc & Hs & H).
  rewrite (proposed_row_no_serial model record (sequence_values db)) in H, Hs by done.
  cbn [fst snd] in H, Hs.
  set (set_ := filter (fun kv : string * value => kv.1 ∉ ix) record) in *.
  set (r := (proposed_row model record ∅).1) in *.
  set (rows := rows_of (session db) model) in *.
  assert (exists i new,
    rows_of (session db1) model !! i = Some new /\
    list_find (fun r' => conflicts ix r r' = true) (rows_of (session db1) model)
      = Some (i, new) /\
    update_row model i new set_ (session db1) = Return (session db1))
    as (i & new & _ & Hf1 & Hu1).
  { destruct (list_find _ rows) as [[i old]|] eqn:Hf.
    - apply update_row_Return in H as (Ht & C1 & C2 & C3 & C4).
      fold rows in Ht, C2.
      assert (rows_of (session db1) model = <[i := set_ ∪ old]> rows) as Hr1
        by (rewrite Ht; apply rows_of_insert).
      exists i, (set_ ∪ old). rewrite Hr1. split_and!.
      + apply list_lookup_insert_eq. apply list_find_Some in Hf as (Hl & _).
        by eapply lookup_lt_Some.
      + eapply list_find_insert_hit; [exact Hf|].
        apply list_find_Some in Hf as (_ & Hcf & _).
        unfold conflicts in *. subst set_. by rewrite key_of_update.
      + apply update_row_Return. rewrite Hr1.
        assert (set_ ∪ (set_ ∪ old) = set_ ∪ old) as ->
          by apply map_subseteq_union, map_union_subseteq_l.
        rewrite list_insert_insert_eq, list_delete_insert.
        assert (<[models.__tablename__ model := <[i := set_ ∪ old]> rows]> (session db1)
                = session db1) as Hid
          by (rewrite Ht at 1; rewrite insert_insert_eq; done).
        rewrite Hid. split_and!; try done. apply still_referenced_same.
    - apply plain_insert_Return in H as (Ht & C1 & C2 & C3).
      fold rows in Ht, C2.
      assert (rows_of (session db1) model = rows ++ [r]) as Hr1
        by (rewrite Ht; apply rows_of_insert).
      destruct (not_null_key model ix r Hnn C1) as [k Hkey].
      exists (length rows), r. rewrite Hr1. split_and!.
      + rewrite lookup_app_r, Nat.sub_diag; [done|lia].
      + rewrite list_find_app_r by exact Hf.
        assert (list_find (fun r' => conflicts ix r r' = true) [r]
                = Some (0%nat, r)) as ->; [|done].
        apply list_find_Some. split_and!; [done| |intros; lia].
        unfold conflicts. rewrite Hkey. by apply bool_decide_eq_true.
      + apply update_row_Return. rewrite Hr1.
        assert (set_ ∪ r = r) as ->.
        { apply map_subseteq_union. subst set_ r.
          by apply filter_key_subseteq_proposed. }
        rewrite list_delete_app_last.
        rewrite (list_insert_id (rows ++ [r]) (length rows) r)
          by (rewrite lookup_app_r, Nat.sub_diag; [done|lia]).
        assert (<[models.__tablename__ model := rows ++ [r]]> (session db1)
                = session db1) as Hid
          by (rewrite Ht at 1; rewrite insert_insert_eq; done).
        rewrite Hid. split_and!; try done. apply still_referenced_same. }
  erewrite insert_record_refresh_hit; [ | done | done | done | | exact Hu1 ].
  - rewrite (proposed_row_no_serial model record (sequence_values db1)) by done.
    cbn [snd]. destruct db1; cbn in *. by subst.
  - rewrite (proposed_row_no_serial model record (sequence_values db1)) by done.
    exact Hf1.
Qed.

End db_facts.

(* ===================================================================== *)
(** * Facts about the fetch client *)
(* ===================================================================== *)

Module scraper_facts.
Import Py scraper examples.
Local Open Scope Z_scope.
Local Open Scope string_scope.
Local Open Scope list_scope.

Lemma get_author_soft_empty constants fuel author_id w response :
  network w (requests_sent w) (author_request constants author_id w)
    = Return response ->
  soft_empty (status_code response) = true ->
  get_author constants (S fuel) author_id w =
    Some (Return (JDict []),
          mk_world (_proxies w)
            (mk_session (headers (_session w))
                        (set_cookie response ∪ cookies (_session w))
                        (proxies (_session w)))
            (network w) (ua_source w) (random_source w)
            (S (requests_sent w)) (ua_drawn w) (randoms_drawn w)
            (trace w ++ [Sent (author_request constants author_id w);
                         Print (Status (status_code response));
                         Print (Content (text response))])).
Proof.
  intros Hnet Hsoft. unfold get_author. cbn [retry].
  unfold get_author_attempt, ptry_except, pbind, lift, session_get.
  fold (author_request constants author_id w). rewrite Hnet. cbn.
  rewrite Hsoft. cbn. unfold emit, set_session. cbn.
  rewrite <- !app_assoc. cbn. reflexivity.
Qed.

Lemma get_author_documents_soft_empty constants fuel author_id w response :
  network w (requests_sent w) (author_documents_request constants author_id w)
    = Return response ->
  soft_empty (status_code response) = true ->
  get_author_documents constants (S fuel) author_id w =
    Some (Return (JDict []),
          mk_world (_proxies w)
            (mk_session (headers (_session w))
                        (set_cookie response ∪ cookies (_session w))
                        (proxies (_session w)))
            (network w) (ua_source w) (random_source w)
            (S (requests_sent w)) (ua_drawn w) (randoms_drawn w)
            (trace w ++ [Sent (author_documents_request constants author_id w)])).
Proof.
  intros Hnet Hsoft. unfold get_author_documents. cbn [retry].
  unfold get_author_documents_attempt, ptry_except, pbind, lift, session_get.
  fold (author_documents_request constants author_id w). rewrite Hnet. cbn.
  rewrite Hsoft. cbn. unfold emit, set_session. cbn. reflexivity.
Qed.

Lemma sleeps_app w evs :
  List.filter is_sleep (trace w ++ evs) = sleeps w ++ List.filter is_sleep evs.
Proof. unfold sleeps. apply List.filter_app. Qed.

(** The sibling path: in [_scopus_auth] a proxy error or a connect timeout
    on the claim request is logged and raised again, and the session is left
    as it was. *)
Lemma scopus_auth_proxy_error_keeps_session constants reset w e :
  e = ProxyError \/ e = ConnectTimeout ->
  network w (requests_sent w) (auth_claim_request constants w) = Raise e ->
  scopus_auth_attempt constants reset w =
    Some (Raise e,
          mk_world (_proxies w) (_session w) (network w) (ua_source w)
            (random_source w) (S (requests_sent w)) (ua_drawn w)
            (randoms_drawn w)
            (trace w ++ [Sent (auth_claim_request constants w);
                         LogError [Lit "Proxy error: "] e])).
Proof.
  intros He Hnet.
  unfold scopus_auth_attempt, ptry_except, pbind, lift, get, session_get.
  fold (auth_claim_request constants w). rewrite Hnet.
  destruct He as [-> | ->]; cbn; unfold emit; cbn;
    rewrite <- !app_assoc; reflexivity.
Qed.

(** With the proxy down, a request to any other address is answered 200. *)
Lemma session_get_proxy_down w url_ headers_ params_ :
  network w = proxy_down ->
  String.eqb url_ author_url = false ->
  exists w',
    session_get url_ headers_ params_ w = (Return ok_200, w')
    /\ network w' = proxy_down.
Proof.
  intros Hnet Hurl. unfold session_get. rewrite Hnet.
  unfold proxy_down at 1. cbn [url]. rewrite Hurl.
  eexists. split; [reflexivity|]. reflexivity.
Qed.

(** With the proxy down, an authentication goes through at the first attempt
    whenever it has any budget, and the network stays what it is. *)
Lemma scopus_auth_proxy_down f w :
  network w = proxy_down ->
  _scopus_auth constants f w = None \/
  exists w', _scopus_auth constants f w = Some (Return tt, w')
             /\ network w' = proxy_down.
Proof.
  intros Hnet. destruct f as [|f]; [by left|]. right.
  cbn [_scopus_auth retry].
  unfold scopus_auth_attempt, ptry_except, pbind, lift, get.
  match goal with |- context [session_get ?u ?h ?p w] =>
    destruct (session_get_proxy_down w u h p Hnet eq_refl) as (w1 & -> & Hw1) end.
  unfold print, modify, raise_for_status.
  change (Z.leb 400 (status_code ok_200) && Z.ltb (status_code ok_200) 600)
    with false. cbn [ret].
  match goal with |- context [session_get ?u ?h ?p ?w0] =>
    destruct (session_get_proxy_down w0 u h p Hw1 eq_refl) as (w2 & -> & Hw2) end.
  cbn [ret]. eauto.
Qed.

Lemma reset_client_proxy_down f w :
  network w = proxy_down ->
  _reset_client constants f w = None \/
  exists w', _reset_client constants f w = Some (Return tt, w')
             /\ network w' = proxy_down.
Proof.
  intros Hnet. unfold _reset_client, reset_client_then, pbind, lift.
  cbn [modify _update_session_headers bind ua_generator_generate].
  match goal with |- context [_scopus_auth constants f ?w1] =>
    destruct (scopus_auth_proxy_down f w1) as [-> | (w' & -> & Hw')] end.
  - cbn. exact Hnet.
  - by left.
  - right. eauto.
Qed.

(** In [get_author] every exception of the request that is a
    [RequestException] is handled by the first clause: it is logged as a
    failed fetch, the client is reset, and the exception is raised again. *)
Lemma get_author_attempt_request_exception constants reset author_id w e :
  network w (requests_sent w) (author_request constants author_id w) = Raise e ->
  issubclass e RequestException = true ->
  get_author_attempt constants reset author_id w =
    pbind reset (fun _ => praise e)
      (emit (LogError [Lit "Author ID: "; Lit author_id;
                       Lit " | Unable to get author description: "] e)
         (mk_world (_proxies w) (_session w) (network w) (ua_source w)
            (random_source w) (S (requests_sent w)) (ua_drawn w)
            (randoms_drawn w)
            (trace w ++ [Sent (author_request constants author_id w)]))).
Proof.
  intros Hnet Hsub.
  unfold get_author_attempt, ptry_except.
  unfold pbind at 1, lift at 1, session_get.
  fold (author_request constants author_id w). rewrite Hnet.
  cbn [isinstance existsb]. rewrite Hsub. cbn [orb].
  unfold pbind, lift, logger_error, modify. reflexivity.
Qed.

Lemma get_author_proxy_down f k w :
  network w = proxy_down ->
  retry k (retry_if_exc_type request_exc) wait_to_retry stop_never 1
        (get_author_attempt constants (_reset_client constants f) "42") w = None.
Proof.
  generalize 1%nat as attempt.
  intros attempt. revert attempt w. induction k as [|k IH]; intros attempt w Hnet; [done|].
  cbn [retry].
  rewrite (get_author_attempt_request_exception constants _ "42" w ProxyError);
    [ | by rewrite Hnet | reflexivity ].
  unfold pbind.
  match goal with |- context [_reset_client constants f ?w1] =>
    destruct (reset_client_proxy_down f w1) as [-> | (w' & -> & Hw')] end;
    [exact Hnet | done | ].
  unfold praise.
  change (retry_if_exc_type request_exc ProxyError) with true. cbn [stop_never].
  unfold random_random. apply IH. exact Hw'.
Qed.

End scraper_facts.

(* ===================================================================== *)
(** * Facts about the driver *)
(* ===================================================================== *)

Module main_facts.
Import Py engine connector main examples.
Local Open Scope Z_scope.
Local Open Scope string_scope.
Local Open Scope list_scope.


(** A payload with a non-zero, non-empty [pubYear] is kept, whatever the
    year and whatever [PUB_YEAR] holds. *)
Lemma keep_document_truthy_year items db :
  truthy (default (JInt 0) (assoc "pubYear" items)) = true ->
  keep_document (JDict items) db = (Return true, db).
Proof. intros H. unfold keep_document. rewrite H. reflexivity. Qed.

(** ** Nothing is committed by the statements themselves *)

Definition keeps_committed {A} (m : M Database A) : Prop :=
  forall db, committed (m db).2 = committed db.

Lemma keeps_committed_ret {A} (a : A) : keeps_committed (ret a).
Proof. done. Qed.

Lemma keeps_committed_bind {A B} (m : M Database A) (k : A -> M Database B) :
  keeps_committed m -> (forall a, keeps_committed (k a)) ->
  keeps_committed (bind m k).
Proof.
  intros Hm Hk db. unfold bind. specialize (Hm db).
  destruct (m db) as [[a|e] db1]; cbn in *; [|done].
  by rewrite Hk.
Qed.

Lemma keeps_committed_for_each {A} (xs : list A) (body : A -> M Database unit) :
  (forall x, keeps_committed (body x)) -> keeps_committed (for_each xs body).
Proof.
  intros Hb. induction xs as [|x xs IH]; [done|].
  cbn. apply keeps_committed_bind; auto.
Qed.

Lemma keeps_committed_execute stmt : keeps_committed (session_execute stmt).
Proof.
  intros db. unfold session_execute.
  by destruct (execute stmt _) as [r [t seqs]].
Qed.

Lemma keeps_committed_insert_record model record ix mode :
  keeps_committed (insert_record model record ix mode).
Proof.
  unfold insert_record. apply keeps_committed_bind.
  - destruct mode; [|done]. unfold on_conflict_do_update.
    by destruct (decide _).
  - intros stmt. apply keeps_committed_execute.
Qed.

Lemma keeps_committed_insert_subject_area sa :
  keeps_committed (insert_subject_area sa).
Proof.
  unfold insert_subject_area. apply keeps_committed_bind.
  - unfold on_conflict_do_update. by destruct (decide _).
  - intros stmt. apply keeps_committed_execute.
Qed.

Lemma keeps_committed_document_unit document :
  keeps_committed (document_unit document).
Proof.
  unfold document_unit, insert_source, insert_document.
  repeat (first [ apply keeps_committed_bind; [|intros _]
                | apply keeps_committed_for_each; intros ?
                | apply keeps_committed_insert_record
                | apply keeps_committed_insert_subject_area ]).
Qed.

Lemma keeps_committed_author_unit author :
  keeps_committed (author_unit author).
Proof.
  unfold author_unit, insert_affiliated_institution, insert_author.
  repeat (first [ apply keeps_committed_bind; [|intros _]
                | apply keeps_committed_for_each; intros ?
                | apply keeps_committed_insert_record
                | apply keeps_committed_insert_subject_area ]).
Qed.

End main_facts.

(* ===================================================================== *)
(** * Facts about the "before" validators *)
(* ===================================================================== *)

Module schemes_facts.
Import Py objects schemes examples.
Local Open Scope Z_scope.
Local Open Scope string_scope.
Local Open Scope list_scope.

(** ** The Author validator as one merge into the caller's dict *)

Lemma update_dict data other h items :
  h !! data = Some (ODict items) ->
  update data other h = (Return tt, <[data := ODict (other ∪ items)]> h).
Proof. intros H. unfold update. by rewrite H. Qed.





(** ** The Document validator, step by step *)


Lemma setitem_dict data key v h items :
  h !! data = Some (ODict items) ->
  setitem data key v h = (Return tt, <[data := ODict (<[key := v]> items)]> h).
Proof. intros H. unfold setitem. by rewrite H. Qed.












(** ** What [_validate_titles] leaves under ['titles'] *)





End schemes_facts.

(* ===================================================================== *)
(** * The upsert properties *)
(* ===================================================================== *)

Module db_claims.
Import Py engine connector schemes db_facts examples.
Local Open Scope Z_scope.
Local Open Scope string_scope.
Local Open Scope list_scope.
Local Open Scope py_scope.

(** C1. Subject-area upsert merges only the newly supplied one of code and
    codename.  (1) From an empty database, upserting X with code 17 and
    then X with codename COMP leaves one row for X, with code 17 and
    codename COMP.  (2) Wherever a row for X exists, upserting X with code
    17 and then X with code 99 leaves that row's codename as it was.
    (3) In general, when a row with the name exists and the call supplies
    exactly one of code and codename, the row keeps its place and every
    other column, and takes the supplied value when the statement goes
    through; committed data is not touched. *)
Theorem subject_area_upsert_merges :
  (let res := (insert_subject_area X_code_17 ;;;
               insert_subject_area X_codename_COMP) empty_db in
   res.1 = Return tt /\
   rows_of (session res.2) models.SubjectArea = [X_17_COMP] /\
   cell X_17_COMP "code" = Int 17 /\ cell X_17_COMP "codename" = Str "COMP")
  /\
  (forall db i old,
     subject_area_named (session db) "X" = Some (i, old) ->
     let res := (insert_subject_area X_code_17 ;;;
                 insert_subject_area X_code_99) db in
     exists new,
       subject_area_named (session res.2) "X" = Some (i, new) /\
       cell new "codename" = cell old "codename")
  /\
  (forall sa db i old col,
     subject_area_named (session db) (SubjectArea.name sa) = Some (i, old) ->
     supplied sa = Some col ->
     let res := insert_subject_area sa db in
     committed res.2 = committed db /\
     exists new,
       subject_area_named (session res.2) (SubjectArea.name sa) = Some (i, new) /\
       (forall c, c <> col -> new !! c = old !! c) /\
       (res.1 = Return tt -> cell new col = cell (SubjectArea.model_dump sa) col)).
Proof.
  split_and!.
  - vm_compute. done.
  - intros db i old Hfind res. subst res. unfold bind.
    destruct (insert_subject_area_merge X_code_17 db i old "code" Hfind eq_refl)
      as (_ & new1 & Hf1 & Hsame1 & _ & _).
    destruct (insert_subject_area X_code_17 db) as [[[]|e] db1]; cbn [fst snd] in *.
    + destruct (insert_subject_area_merge X_code_99 db1 i new1 "code" Hf1 eq_refl)
        as (_ & new2 & Hf2 & Hsame2 & _ & _).
      exists new2. split; [exact Hf2|]. unfold cell.
      rewrite Hsame2, Hsame1 by done. done.
    + exists new1. split; [exact Hf1|]. unfold cell. by rewrite Hsame1.
  - intros sa db i old col Hfind Hs res.
    destruct (insert_subject_area_merge sa db i old col Hfind Hs)
      as (Hc & new & Hf & Hsame & Hval & _).
    split; [exact Hc|]. exists new. done.
Qed.

Lemma subject_area_upsert_merges_witness :
  subject_area_named (session db_X_17_COMP) "X" = Some (0%nat, X_17_COMP) /\
  supplied X_code_99 = Some "code" /\
  exists new,
    subject_area_named (session (insert_subject_area X_code_99 db_X_17_COMP).2) "X"
      = Some (0%nat, new) /\
    new !! "codename" = Some (Str "COMP").
Proof.
  split; [vm_compute; reflexivity|]. split; [reflexivity|].
  destruct (proj2 (proj2 subject_area_upsert_merges) X_code_99 db_X_17_COMP
              0%nat X_17_COMP "code" eq_refl eq_refl) as (_ & new & Hf & Hsame & _).
  exists new. split; [exact Hf|]. rewrite Hsame by done. reflexivity.
Defined.

(** C8. Append-once: an upsert in do-nothing mode never alters a row that
    is already there.  Whatever the table, the record and the index
    elements: every row of every table is still there afterwards, and
    committed data is not touched; and when a row with the same key already
    exists, the tables the session sees are left exactly as they were,
    whatever else the payload carries. *)
Theorem append_once_leaves_existing_rows :
  forall model record index_elements db,
    let res := insert_record model record index_elements false db in
    committed res.2 = committed db /\
    (forall m r, r ∈ rows_of (session db) m -> r ∈ rows_of (session res.2) m) /\
    (forall old k,
       old ∈ rows_of (session db) model ->
       key_of index_elements record = Some k ->
       key_of index_elements old = Some k ->
       session res.2 = session db).
Proof.
  intros model record ix db res.
  destruct (insert_record_do_nothing_cases model record ix db) as (Hc & Hcases).
  fold res in Hc, Hcases. split_and!; [exact Hc| |].
  - intros m r Hr. destruct Hcases as [-> | (_ & r' & ->)]; [done|].
    unfold rows_of in *.
    destruct (decide (models.__tablename__ model = models.__tablename__ m)) as [E|E].
    + rewrite <- E in *. rewrite lookup_insert_eq. cbn.
      apply elem_of_app. by left.
    + by rewrite lookup_insert_ne.
  - intros old k Hold Hk Hko.
    by destruct (insert_record_do_nothing_conflict model record ix db old k).
Qed.

Lemma append_once_leaves_existing_rows_witness :
  variant_row ∈ rows_of (session db_one_variant) models.AuthorNameVariant /\
  key_of ["author_id"; "name"] variant_again = Some [Str "A1"; Str "N"] /\
  key_of ["author_id"; "name"] variant_row = Some [Str "A1"; Str "N"] /\
  variant_again <> variant_row /\
  session (insert_record models.AuthorNameVariant variant_again
             ["author_id"; "name"] false db_one_variant).2
  = session db_one_variant.
Proof.
  split; [vm_compute; left|]. split; [reflexivity|]. split; [reflexivity|].
  split; [intros H; apply (f_equal (fun r : row => r !! "id")) in H; vm_compute in H;
          discriminate|].
  refine (proj2 (proj2 (append_once_leaves_existing_rows models.AuthorNameVariant
            variant_again ["author_id"; "name"] db_one_variant))
            variant_row [Str "A1"; Str "N"] _ eq_refl eq_refl).
  vm_compute. left.
Defined.

(** C9. Refresh idempotence: for each upsert issued in overwrite mode
    (Document on scopus_id, Author on id, Source on id, affiliated
    institution on id) and every record, running the upsert twice in a row
    gives the same outcome and the same database as running it once; so do
    [insert_source] and [insert_affiliated_institution] as wholes. *)
Theorem refresh_upsert_idempotent :
  Forall (fun '(model, index_elements) =>
            forall record db,
              (insert_record model record index_elements true ;;;
               insert_record model record index_elements true) db
              = insert_record model record index_elements true db)
         refresh_upserts
  /\ (forall source db,
        (insert_source source ;;; insert_source source) db
        = insert_source source db)
  /\ (forall affiliated_institution db,
        (insert_affiliated_institution affiliated_institution ;;;
         insert_affiliated_institution affiliated_institution) db
        = insert_affiliated_institution affiliated_institution db).
Proof.
  assert (forall model ix, no_serial model = true -> non_nullable model ix = true ->
            forall record db,
              (insert_record model record ix true ;;;
               insert_record model record ix true) db
              = insert_record model record ix true db) as Hgen.
  { intros model ix Hns Hnn record db. unfold bind.
    destruct (insert_record model record ix true db) as [[[]|e] db1] eqn:E; [|done].
    by eapply insert_record_refresh_again. }
  split_and!.
  - repeat constructor; apply Hgen; reflexivity.
  - intros. apply Hgen; reflexivity.
  - intros. apply Hgen; reflexivity.
Qed.

End db_claims.

(* ===================================================================== *)
(** * The fetch client: retry, reset and soft-empty results *)
(* ===================================================================== *)

Module scraper_claims.
Import scraper_facts.
Import Py scraper examples.
Local Open Scope Z_scope.
Local Open Scope string_scope.
Local Open Scope list_scope.

(** C5. Soft-empty: when the response to [get_author] or to
    [get_author_documents] has status 400, 403 or 404, the call returns the
    empty dict on the spot, whatever budget it is given: it does not raise,
    it sends that one request and no other, it does not sleep, and the
    session is not reset (same identity headers, no new user agent drawn,
    cookies only as the response set them). *)
Theorem soft_empty_returns_empty_at_once :
  forall constants fuel author_id w response,
    status_code response ∈ [400; 403; 404] ->
    (network w (requests_sent w) (author_request constants author_id w)
       = Return response ->
     exists w',
       get_author constants (S fuel) author_id w = Some (Return (JDict []), w')
       /\ one_request_only w w' response)
    /\
    (network w (requests_sent w) (author_documents_request constants author_id w)
       = Return response ->
     exists w',
       get_author_documents constants (S fuel) author_id w
         = Some (Return (JDict []), w')
       /\ one_request_only w w' response).
Proof.
  intros constants fuel author_id w response Hstatus.
  assert (soft_empty (status_code response) = true) as Hsoft
    by (by apply bool_decide_eq_true).
  split; intros Hnet; eexists.
  - split; [by apply get_author_soft_empty|].
    unfold one_request_only. split_and!; try reflexivity.
    unfold sleeps at 1. cbn [trace]. rewrite sleeps_app. apply app_nil_r.
  - split; [by apply get_author_documents_soft_empty|].
    unfold one_request_only. split_and!; try reflexivity.
    unfold sleeps at 1. cbn [trace]. rewrite sleeps_app. apply app_nil_r.
Qed.

Lemma soft_empty_returns_empty_at_once_witness :
  status_code not_found_404 ∈ [400; 403; 404] /\
  network (client all_404) 0 (author_request constants "42" (client all_404))
    = Return not_found_404 /\
  exists w',
    get_author constants 1 "42" (client all_404) = Some (Return (JDict []), w')
    /\ one_request_only (client all_404) w' not_found_404.
Proof.
  assert (status_code not_found_404 ∈ [400; 403; 404]) as Hs
    by (right; right; left).
  split; [exact Hs|]. split; [reflexivity|].
  exact (proj1 (soft_empty_returns_empty_at_once constants 0 "42" (client all_404)
                  not_found_404 Hs) eq_refl).
Defined.

(** C2 on the code.  [stop_retry] is defined and never passed to [retry],
    so nothing stops the retries: with the profile behind a proxy that
    fails five times, [get_author] makes a sixth attempt after a fifth
    sleep and returns its result, where five attempts and four sleeps, then
    the proxy error, is what the policy with [stop_retry] gives.  With a
    proxy that stays down the call neither returns nor raises, whatever
    the budget. *)
Theorem retry_does_not_stop_after_five_attempts :
  match get_author constants 20 "42" (client (proxy_fails 5)) with
  | Some (r, w') =>
      r = Return profile
      /\ attempts author_url w' = 6%nat /\ length (sleeps w') = 5%nat
  | None => False
  end
  /\
  match retry 20 (retry_if_exc_type request_exc) wait_to_retry stop_retry 1
              (get_author_attempt constants (_reset_client constants 20) "42")
              (client (proxy_fails 5)) with
  | Some (r, w') =>
      r = Raise ProxyError
      /\ attempts author_url w' = 5%nat /\ length (sleeps w') = 4%nat
  | None => False
  end
  /\
  (forall fuel, get_author constants fuel "42" (client proxy_down) = None).
Proof.
  split_and!.
  - vm_compute. done.
  - vm_compute. done.
  - intros fuel. by apply get_author_proxy_down.
Qed.

(** C3 on the code.  In [get_author] the clause for [RequestException]
    comes first and [ProxyError] is one: a proxy error on the profile
    request is logged as a failed fetch and the client is reset.  The failed
    attempt leaves the cookie jar empty and a new user agent in the
    headers, after the two requests of a new authentication. *)
Theorem proxy_error_in_get_author_resets_the_session :
  issubclass ProxyError RequestException = true /\
  cookies (_session (client (proxy_fails 1))) = {[ "SCSessionID" := "s1" ]} /\
  headers (_session (client (proxy_fails 1))) !! "user-agent" = Some "UA-init" /\
  match get_author_attempt constants (_reset_client constants 5) "42"
                           (client (proxy_fails 1)) with
  | Some (r, w') =>
      r = Raise ProxyError
      /\ cookies (_session w') = ∅
      /\ headers (_session w') !! "user-agent" = Some "UA-0"
      /\ ua_drawn w' = 1%nat
      /\ requests_sent w' = 3%nat
      /\ existsb (fun ev =>
                    match ev with
                    | LogError [Lit "Author ID: "; Lit "42";
                                Lit " | Unable to get author description: "]
                               ProxyError => true
                    | _ => false
                    end) (trace w') = true
      /\ existsb (fun ev =>
                    match ev with
                    | LogError [Lit "Proxy error: "] _ => true
                    | _ => false
                    end) (trace w') = false
  | None => False
  end.
Proof.
  split; [reflexivity|]. split; [reflexivity|]. split; [reflexivity|].
  vm_compute. done.
Qed.

End scraper_claims.

(* ===================================================================== *)
(** * The driver: the year filter and the transactional units *)
(* ===================================================================== *)

Module main_claims.
Import main_facts.
Import Py engine connector main examples.
Local Open Scope Z_scope.
Local Open Scope string_scope.
Local Open Scope list_scope.


(** C4 on the code.  The condition of the comprehension is read by Python as
    [pubYear or ((0 in PUB_YEAR) and not exists)], so a document is kept as
    soon as it carries a year: with [PUB_YEAR = [2024]] the listing of a
    2023 document, a 2024 document and an undated one comes back as the 2023
    and the 2024 documents. *)
Theorem year_filter_keeps_a_year_outside_PUB_YEAR :
  pub_year_of doc_2023 = Some 2023 /\
  (2023 ∉ PUB_YEAR) /\
  (forall db, keep_document doc_2023 db = (Return true, db)) /\
  match _get_documents constants ∅ fresh_session 5 "42" (process listing) with
  | Some (r, _) => r = Return [doc_2023; doc_2024]
  | None => False
  end.
Proof.
  split; [reflexivity|]. split.
  { intros H. apply elem_of_cons in H as [H|H]; [discriminate|].
    by apply elem_of_nil in H. }
  split; [intros db; reflexivity|].
  vm_compute. reflexivity.
Qed.

(** C6. One unit, one transaction.  [_insert_document] and [_insert_author]
    always come back, with nothing left pending in the session.  If the
    payload does not validate (or the author is not of an institution
    looked for), the committed tables are what they were.  Otherwise the
    statements of the unit run in one session without committing anything
    on the way; if they all go through, the committed tables become exactly
    what that session saw after the last of them, and the call returns;
    if one of them raises, the committed tables are what they were before
    the unit, and a persistence error is not passed on to the caller. *)
Theorem units_are_transactional :
  (forall validate author_id document_desc p,
     exists r p',
       _insert_document validate author_id document_desc p = Some (r, p') /\
       session (database p') = committed (database p') /\
       match validate document_desc with
       | Raise _ => committed (database p') = committed (database p)
       | Return document =>
           let unit := document_unit document (entered (database p)) in
           committed unit.2 = committed (database p) /\
           match unit.1 with
           | Return _ =>
               committed (database p') = session unit.2 /\ r = Return tt
           | Raise e =>
               committed (database p') = committed (database p) /\
               (if isinstance e [SQLAlchemyError] then r = Return tt else True)
           end
       end)
  /\
  (forall validate author_desc p,
     exists r p',
       _insert_author validate author_desc p = Some (r, p') /\
       session (database p') = committed (database p') /\
       match validate author_desc with
       | Raise _ => committed (database p') = committed (database p)
       | Return author =>
           if bool_decide (schemes.Author.affiliated_institution_id author
                           ∈ OMSTU_AFF_INST_IDS)
           then
             let unit := author_unit author (entered (database p)) in
             committed unit.2 = committed (database p) /\
             match unit.1 with
             | Return _ =>
                 committed (database p') = session unit.2 /\ r = Return tt
             | Raise e =>
                 committed (database p') = committed (database p) /\
                 (if negb (isinstance e [ValidationError])
                     && isinstance e [SQLAlchemyError]
                  then r = Return tt else True)
             end
           else committed (database p') = committed (database p)
       end).
Proof.
  split.
  - intros validate author_id document_desc p.
    unfold _insert_document, with_, lift, try_except.
    unfold on_db at 1. cbn [connector.__enter__ modify].
    destruct (validate document_desc) as [document|e] eqn:Hv.
    + unfold bind at 1. unfold on_db at 1. cbn [database].
      change (mk_db (committed (database p)) (committed (database p))
               (sequence_values (database p))) with (entered (database p)).
      pose proof (keeps_committed_document_unit document (entered (database p))) as Hc.
      destruct (document_unit document (entered (database p))) as [[[]|e] db1];
        cbn [fst snd] in *.
      * do 2 eexists. split; [reflexivity|]. cbn. rewrite Hc.
        split_and!; reflexivity.
      * destruct (isinstance e [ValidationError]) eqn:E1;
          [|destruct (isinstance e [SQLAlchemyError]) eqn:E2].
        all: do 2 eexists; (split; [reflexivity|]); cbn -[isinstance];
          rewrite ?Hc, ?E2; split_and!; try reflexivity;
          try (destruct (isinstance e [SQLAlchemyError])); reflexivity || exact I.
    + destruct (isinstance e [ValidationError]) eqn:E1;
        [|destruct (isinstance e [SQLAlchemyError]) eqn:E2].
      all: do 2 eexists; (split; [reflexivity|]); cbn -[isinstance];
        split; reflexivity.
  - intros validate author_desc p.
    unfold _insert_author, with_, lift, try_except.
    unfold on_db at 1. cbn [connector.__enter__ modify].
    destruct (validate author_desc) as [author|e] eqn:Hv.
    + destruct (bool_decide _) eqn:Hin; cbn [negb].
      * unfold bind at 1. unfold on_db at 1. cbn [database].
        change (mk_db (committed (database p)) (committed (database p))
                 (sequence_values (database p))) with (entered (database p)).
        pose proof (keeps_committed_author_unit author (entered (database p))) as Hc.
        destruct (author_unit author (entered (database p))) as [[[]|e] db1];
          cbn [fst snd] in *.
        -- do 2 eexists. split; [reflexivity|]. cbn. rewrite Hc.
           split_and!; reflexivity.
        -- destruct (isinstance e [ValidationError]) eqn:E1;
             [|destruct (isinstance e [SQLAlchemyError]) eqn:E2]; cbn [negb andb].
           ++ destruct author_desc; do 2 eexists; (split; [reflexivity|]);
                cbn -[isinstance]; rewrite ?Hc; split_and!; try reflexivity; exact I.
           ++ do 2 eexists; (split; [reflexivity|]); cbn -[isinstance];
                rewrite ?Hc; split_and!; reflexivity.
           ++ do 2 eexists; (split; [reflexivity|]); cbn -[isinstance];
                rewrite ?Hc; split_and!; try reflexivity; exact I.
      * do 2 eexists. split; [reflexivity|]. cbn. split; reflexivity.
    + destruct (isinstance e [ValidationError]) eqn:E1;
        [|destruct (isinstance e [SQLAlchemyError]) eqn:E2].
      * destruct author_desc; do 2 eexists; (split; [reflexivity|]);
          cbn -[isinstance]; split; reflexivity.
      * do 2 eexists; (split; [reflexivity|]); cbn -[isinstance]; split; reflexivity.
      * do 2 eexists; (split; [reflexivity|]); cbn -[isinstance]; split; reflexivity.
Qed.

End main_claims.

(* ===================================================================== *)
(** * The schemes: title normalization and in-place validation *)
(* ===================================================================== *)

Module schemes_claims.
Import Py objects schemes examples schemes_facts.
Local Open Scope Z_scope.
Local Open Scope string_scope.
Local Open Scope list_scope.





End schemes_claims.

(* ===================================================================== *)
(** * The connector: further properties of the upserts *)
(* ===================================================================== *)

Module db_extras.
Import Py engine connector schemes db_facts examples.
Local Open Scope Z_scope.
Local Open Scope string_scope.
Local Open Scope list_scope.
Local Open Scope py_scope.

(** An upsert that went through, read backwards, in either mode. *)
Lemma insert_record_Return model record ix mode db db' :
  insert_record model record ix mode db = (Return tt, db') ->
  known_columns model record = true /\
  infer_arbiter model ix = true /\
  committed db' = committed db /\
  match list_find (fun r' => conflicts ix
                     (proposed_row model record (sequence_values db)).1 r' = true)
                  (rows_of (session db) model) with
  | Some (i, old) =>
      if mode
      then update_row model i old
             (filter (fun kv : string * value => kv.1 ∉ ix) record) (session db)
           = Return (session db')
      else session db' = session db
  | None =>
      plain_insert model (proposed_row model record (sequence_values db)).1
                   (session db) = Return (session db')
  end.
Proof.
  destruct mode.
  - intros H. apply insert_record_refresh_Return in H
      as (_ & Hk & Ha & Hc & _ & H). done.
  - unfold insert_record, bind, ret, session_execute, execute.
    cbn [table values conflict insert on_conflict_do_nothing index_elements_of].
    destruct (known_columns model record); [|discriminate]. cbn [negb].
    destruct (proposed_row model record (sequence_values db)) as [r seqs'].
    destruct (infer_arbiter model ix); [|discriminate]. cbn [negb fst].
    destruct (list_find _ _) as [[i old]|].
    + intros [= <-]. done.
    + destruct (plain_insert model r (session db)); [|discriminate].
      intros [= <-]. done.
Qed.

(** An upsert that raised left the session's tables and the committed ones
    as they were. *)
Lemma insert_record_Raise model record ix mode db e db' :
  insert_record model record ix mode db = (Raise e, db') ->
  session db' = session db /\ committed db' = committed db.
Proof.
  unfold insert_record, bind, on_conflict_do_update, ret, session_execute, execute.
  destruct mode.
  - destruct (decide _); [intros [= _ <-]; done|].
    cbn [table values conflict insert index_elements_of].
    destruct (negb (known_columns model record)); [intros [= _ <-]; done|].
    destruct (proposed_row model record (sequence_values db)) as [r seqs'].
    destruct (negb (infer_arbiter model ix)); [intros [= _ <-]; done|].
    destruct (list_find _ _) as [[i old]|].
    + destruct (negb (known_columns model _)); [intros [= _ <-]; done|].
      destruct (update_row _ _ _ _ _); [discriminate|]. intros [= _ <-]. done.
    + destruct (plain_insert _ _ _); [discriminate|]. intros [= _ <-]. done.
  - cbn [table values conflict insert on_conflict_do_nothing index_elements_of].
    destruct (negb (known_columns model record)); [intros [= _ <-]; done|].
    destruct (proposed_row model record (sequence_values db)) as [r seqs'].
    destruct (negb (infer_arbiter model ix)); [intros [= _ <-]; done|].
    destruct (list_find _ _) as [[i old]|]; [discriminate|].
    destruct (plain_insert _ _ _); [discriminate|]. intros [= _ <-]. done.
Qed.

Lemma conflicts_keys ix (a b : row) :
  conflicts ix a b = true <-> exists k, key_of ix a = Some k /\ key_of ix b = Some k.
Proof.
  unfold conflicts. destruct (key_of ix a) as [k|].
  - rewrite bool_decide_eq_true. split; [eauto|]. by intros (k' & [= ->] & ->).
  - split; [discriminate|]. by intros (k' & [=] & _).
Qed.

(** X1. Insert, then look up.  After an upsert that went through, in either
    mode, the table holds a row with the record's key (when that key has no
    NULL in it); for a one-column key [record_exists] then answers true. *)
Theorem a_stored_key_is_found :
  (forall model record index_elements mode db db' k,
     insert_record model record index_elements mode db = (Return tt, db') ->
     key_of index_elements record = Some k ->
     exists r, r ∈ rows_of (session db') model
               /\ key_of index_elements r = Some k)
  /\
  (forall model record column_name mode db db' v,
     insert_record model record [column_name] mode db = (Return tt, db') ->
     record !! column_name = Some v -> v <> Null ->
     record_exists model column_name v db' = (Return true, db')).
Proof.
  assert (forall model record index_elements mode db db' k,
     insert_record model record index_elements mode db = (Return tt, db') ->
     key_of index_elements record = Some k ->
     exists r, r ∈ rows_of (session db') model
               /\ key_of index_elements r = Some k) as Hgen.
  { intros model record ix mode db db' k H Hk.
    apply insert_record_Return in H as (Hkn & _ & _ & H).
    pose proof (key_of_proposed model record (sequence_values db) ix k Hkn Hk) as Hp.
    destruct (list_find _ _) as [[i old]|] eqn:Hf.
    - apply list_find_Some in Hf as (Hi & Hc & _).
      apply conflicts_keys in Hc as (k' & Hk1 & Hk2).
      rewrite Hp in Hk1. injection Hk1 as <-.
      destruct mode.
      + apply update_row_Return in H as (-> & _).
        eexists. split.
        * rewrite rows_of_insert. apply list_elem_of_lookup. exists i.
          apply list_lookup_insert_eq. by eapply lookup_lt_Some.
        * by rewrite key_of_update.
      + rewrite H. exists old. split; [|done].
        apply list_elem_of_lookup. eauto.
    - apply plain_insert_Return in H as (-> & _).
      eexists. split; [|exact Hp].
      rewrite rows_of_insert. apply elem_of_app. right. by left. }
  split; [exact Hgen|].
  intros model record col mode db db' v H Hv Hnn.
  assert (key_of [col] record = Some [v]) as Hk.
  { unfold key_of, cell. cbn. rewrite Hv. cbn.
    by rewrite bool_decide_eq_false_2. }
  destruct (Hgen _ _ _ _ _ _ _ H Hk) as (r & Hr & Hkr).
  unfold record_exists. do 2 f_equal.
  rewrite bool_decide_eq_false_2 by done. cbn [negb andb].
  apply existsb_exists. exists r. split; [by apply list_elem_of_In|].
  apply bool_decide_eq_true.
  unfold key_of in Hkr. cbn in Hkr.
  destruct (bool_decide (cell r col = Null)); cbn in Hkr; [discriminate|].
  by injection Hkr.
Qed.

Lemma a_stored_key_is_found_witness :
  let db' := (insert_record models.SubjectArea X_17_COMP ["codename"] true
                            empty_db).2 in
  record_exists models.SubjectArea "codename" (Str "COMP") db'
  = (Return true, db').
Proof.
  apply (proj2 a_stored_key_is_found models.SubjectArea X_17_COMP "codename"
               true empty_db _ (Str "COMP")).
  - assert ((insert_record models.SubjectArea X_17_COMP ["codename"] true
                           empty_db).1 = Return tt) as H
      by (vm_compute; reflexivity).
    destruct (insert_record _ _ _ _ _) as [r d]. cbn in H. subst r. reflexivity.
  - reflexivity.
  - discriminate.
Defined.


(** X2. An upsert never makes a second row for a key.  If no two rows of
    the table share a key under the index elements, the same holds after the
    upsert, in either mode and whether it went through or raised. *)
Theorem upsert_keeps_keys_distinct :
  forall model record index_elements mode db,
    distinct_keys index_elements (rows_of (session db) model) ->
    distinct_keys index_elements
      (rows_of (session (insert_record model record index_elements mode db).2)
               model).
Proof.
  intros model record ix mode db Hd.
  destruct (insert_record model record ix mode db) as [[[]|e] db'] eqn:H;
    cbn [snd]; [|by apply insert_record_Raise in H as [-> _]].
  apply insert_record_Return in H as (_ & _ & _ & H).
  set (r := (proposed_row model record (sequence_values db)).1) in *.
  set (rows := rows_of (session db) model) in *.
  destruct (list_find _ rows) as [[i old]|] eqn:Hf.
  - destruct mode; [|by rewrite H].
    apply update_row_Return in H as (-> & _). rewrite rows_of_insert.
    fold rows. apply list_find_Some in Hf as (Hi & _ & _).
    set (new := _ ∪ old).
    assert (key_of ix new = key_of ix old) as Hkey by apply key_of_update.
    assert (forall a ra, <[i := new]> rows !! a = Some ra ->
              exists ra', rows !! a = Some ra' /\ key_of ix ra = key_of ix ra')
      as Horig.
    { intros a ra Ha. destruct (decide (a = i)) as [->|Hne].
      - rewrite list_lookup_insert_eq in Ha by (by eapply lookup_lt_Some).
        injection Ha as <-. eauto.
      - rewrite list_lookup_insert_ne in Ha by done. eauto. }
    intros a b ra rb Ha Hb Hc.
    destruct (Horig a ra Ha) as (ra' & Ha' & Hka).
    destruct (Horig b rb Hb) as (rb' & Hb' & Hkb).
    apply (Hd a b ra' rb' Ha' Hb').
    apply conflicts_keys. apply conflicts_keys in Hc as (k & H1 & H2).
    exists k. by rewrite <- Hka, <- Hkb.
  - apply plain_insert_Return in H as (-> & _). rewrite rows_of_insert.
    fold rows. apply list_find_None in Hf. rewrite Forall_forall in Hf.
    assert (forall a ra, (rows ++ [r]) !! a = Some ra ->
              (a < length rows)%nat /\ rows !! a = Some ra
              \/ a = length rows /\ ra = r) as Hsplit.
    { intros a ra Ha. destruct (decide (a < length rows)%nat) as [Hlt|Hge].
      - left. by rewrite lookup_app_l in Ha.
      - right. rewrite lookup_app_r in Ha by lia.
        destruct (a - length rows)%nat eqn:E; cbn in Ha; [|done].
        injection Ha as <-. split; [lia|done]. }
    intros a b ra rb Ha Hb Hc.
    destruct (Hsplit a ra Ha) as [[_ Ha'] | [-> ->]];
      destruct (Hsplit b rb Hb) as [[_ Hb'] | [-> ->]]; [by eapply Hd| | |done].
    + exfalso. apply (Hf ra); [apply list_elem_of_lookup; eauto|].
      apply conflicts_keys. apply conflicts_keys in Hc as (k & ? & ?). eauto.
    + exfalso. apply (Hf rb); [apply list_elem_of_lookup; eauto|]. exact Hc.
Qed.

Lemma upsert_keeps_keys_distinct_witness :
  distinct_keys ["author_id"; "name"]
    (rows_of (session db_one_variant) models.AuthorNameVariant)
  /\ distinct_keys ["author_id"; "name"]
       (rows_of (session (insert_record models.AuthorNameVariant variant_again
                            ["author_id"; "name"] false db_one_variant).2)
                models.AuthorNameVariant).
Proof.
  assert (distinct_keys ["author_id"; "name"]
            (rows_of (session db_one_variant) models.AuthorNameVariant)) as H.
  { assert (rows_of (session db_one_variant) models.AuthorNameVariant
            = [variant_row]) as -> by (vm_compute; reflexivity).
    intros [|i] [|j] ri rj Hi Hj _; cbn in Hi, Hj; try discriminate; reflexivity. }
  split; [exact H|].
  exact (upsert_keeps_keys_distinct models.AuthorNameVariant variant_again
           ["author_id"; "name"] false db_one_variant H).
Defined.


(** ** What each operation leaves alone *)

Lemma touches_only_ret {A} (a : A) tbls : touches_only tbls (ret a).
Proof. done. Qed.

Lemma touches_only_bind {A B} tbls (m : M Database A) (k : A -> M Database B) :
  touches_only tbls m -> (forall a, touches_only tbls (k a)) ->
  touches_only tbls (bind m k).
Proof.
  intros Hm Hk db tbl Hn. unfold bind. specialize (Hm db tbl Hn).
  destruct (m db) as [[a|e] db1]; cbn [snd] in *; [|done].
  by rewrite Hk.
Qed.

Lemma touches_only_for_each {A} tbls (xs : list A) (body : A -> M Database unit) :
  (forall x, touches_only tbls (body x)) -> touches_only tbls (for_each xs body).
Proof.
  intros Hb. induction xs as [|x xs IH]; [done|].
  cbn. apply touches_only_bind; auto.
Qed.

Lemma touches_only_insert_record tbls model record ix mode :
  models.__tablename__ model ∈ tbls ->
  touches_only tbls (insert_record model record ix mode).
Proof.
  intros Hin db tbl Hn.
  assert (tbl <> models.__tablename__ model) as Hne by (intros ->; done).
  destruct (insert_record model record ix mode db) as [[[]|e] db'] eqn:H;
    cbn [snd]; [|by apply insert_record_Raise in H as [-> _]].
  apply insert_record_Return in H as (_ & _ & _ & H).
  destruct (list_find _ _) as [[i old]|].
  - destruct mode; [|by rewrite H].
    apply update_row_Return in H as (-> & _). by rewrite lookup_insert_ne.
  - apply plain_insert_Return in H as (-> & _). by rewrite lookup_insert_ne.
Qed.

Lemma touches_only_insert_subject_area tbls sa :
  "subject_areas" ∈ tbls -> touches_only tbls (insert_subject_area sa).
Proof.
  intros Hin db tbl Hn.
  assert (tbl <> "subject_areas") as Hne by (intros ->; done).
  unfold insert_subject_area, bind, on_conflict_do_update.
  destruct (decide _); [done|]. unfold ret, session_execute, execute.
  cbn [table values conflict insert index_elements_of].
  destruct (negb (known_columns _ _)); [done|].
  destruct (proposed_row _ _ _) as [r seqs'].
  destruct (negb (infer_arbiter _ _)); [done|].
  destruct (list_find _ _) as [[i old]|].
  - destruct (negb (known_columns _ _)); [done|].
    destruct (update_row _ _ _ _ _) as [t'|e] eqn:Hu; [|done].
    apply update_row_Return in Hu as (-> & _). cbn.
    by rewrite lookup_insert_ne.
  - destruct (plain_insert _ _ _) as [t'|e] eqn:Hp; [|done].
    apply plain_insert_Return in Hp as (-> & _). cbn.
    by rewrite lookup_insert_ne.
Qed.

Ltac touches :=
  repeat (first [ apply touches_only_bind; [|intros _]
                | apply touches_only_for_each; intros ?
                | apply touches_only_insert_record;
                  cbn; repeat (first [by left | right])
                | apply touches_only_insert_subject_area;
                  repeat (first [by left | right]) ]).

(** X3. What the connector's operations never write.  [insert_author]
    leaves every table but authors, authors_name_variants and
    authors_subject_areas as it was (so the institution and the subject
    areas it refers to have to be there already); [insert_document] writes
    into the document's own seven tables only; [insert_source],
    [insert_affiliated_institution] and [insert_subject_area] into one
    table each. *)
Theorem operations_touch_their_own_tables_only :
  (forall author,
     touches_only ["authors"; "authors_name_variants"; "authors_subject_areas"]
                  (insert_author author))
  /\
  (forall document,
     touches_only ["documents"; "documents_titles"; "documents_abstract_texts";
                   "documents_sources"; "documents_sources_relationships";
                   "documents_authorship"; "documents_subject_areas"]
                  (insert_document document))
  /\ (forall source, touches_only ["sources"] (insert_source source))
  /\ (forall affiliated_institution,
        touches_only ["authors_affiliated_institutions"]
                     (insert_affiliated_institution affiliated_institution))
  /\ (forall subject_area,
        touches_only ["subject_areas"] (insert_subject_area subject_area)).
Proof.
  split_and!; intros x.
  - unfold insert_author. touches.
  - unfold insert_document. touches.
  - unfold insert_source. touches.
  - unfold insert_affiliated_institution. touches.
  - touches.
Qed.

(** ** Statements that cannot go through *)

Lemma bind_Return {St A B} (m : M St A) (k : A -> M St B) s b s' :
  bind m k s = (Return b, s') ->
  exists a s1, m s = (Return a, s1) /\ k a s1 = (Return b, s').
Proof.
  unfold bind. destruct (m s) as [[a|e] s1]; [eauto|discriminate].
Qed.

Lemma source_link_raises document db :
  (insert_record models.DocumentSource (Document.dump_source document)
                 ["document_id"; "source_id"] false db).1
  = Raise ProgrammingError.
Proof.
  unfold insert_record, bind, ret, session_execute, execute.
  cbn [table values conflict insert on_conflict_do_nothing index_elements_of].
  assert (known_columns models.DocumentSource (Document.dump_source document) = true)
    as -> by reflexivity.
  cbn [negb]. destruct (proposed_row _ _ _) as [r seqs'].
  assert (infer_arbiter models.DocumentSource ["document_id"; "source_id"] = false)
    as -> by reflexivity.
  reflexivity.
Qed.

Lemma source_relationship_raises document db :
  (insert_record models.DocumentSourceRelationship
                 (Document.dump_source_relationship document)
                 ["document_id"; "issue"; "volume"; "article_number";
                  "page_count"; "first_page"; "last_page"; "info_page"]
                 false db).1
  = Raise ProgrammingError.
Proof.
  unfold insert_record, bind, ret, session_execute, execute.
  cbn [table values conflict insert on_conflict_do_nothing index_elements_of].
  assert (known_columns models.DocumentSourceRelationship
            (Document.dump_source_relationship document) = true)
    as -> by reflexivity.
  cbn [negb]. destruct (proposed_row _ _ _) as [r seqs'].
  assert (infer_arbiter models.DocumentSourceRelationship
            ["document_id"; "issue"; "volume"; "article_number";
             "page_count"; "first_page"; "last_page"; "info_page"] = false)
    as -> by reflexivity.
  reflexivity.
Qed.

Lemma insert_document_raises document db :
  (insert_document document db).1 <> Return tt.
Proof.
  intros H. destruct (insert_document document db) as [r db'] eqn:E.
  cbn [fst] in H. subst r. unfold insert_document in E.
  apply bind_Return in E as ([] & db1 & _ & E).
  apply bind_Return in E as ([] & db2 & _ & E).
  apply bind_Return in E as ([] & db3 & _ & E).
  apply bind_Return in E as ([] & db4 & E & _).
  pose proof (source_link_raises document db3) as Hr.
  rewrite E in Hr. discriminate Hr.
Qed.

(** X4. [insert_document] cannot go through on the tables that models.py
    declares.  ON CONFLICT needs a unique index on exactly the index
    elements; documents_sources has one on document_id alone and
    documents_sources_relationships on document_id alone, so the source-link
    and the source-relationship upserts raise a ProgrammingError on every
    database, and [insert_document], which issues them, never returns. *)
Theorem insert_document_never_returns :
  forall document db,
    (insert_document document db).1 <> Return tt
    /\ (insert_record models.DocumentSource (Document.dump_source document)
                      ["document_id"; "source_id"] false db).1
       = Raise ProgrammingError
    /\ (insert_record models.DocumentSourceRelationship
                      (Document.dump_source_relationship document)
                      ["document_id"; "issue"; "volume"; "article_number";
                       "page_count"; "first_page"; "last_page"; "info_page"]
                      false db).1
       = Raise ProgrammingError.
Proof.
  intros document db. split_and!;
    [apply insert_document_raises|apply source_link_raises
    |apply source_relationship_raises].
Qed.

(** X5. No statement built from a validated entity names a column that
    its table lacks: the keys of every dump that the connector inserts are
    columns of the model it is inserted into (schemes.py against
    models.py, at each insert in connector.py). *)
Theorem dumps_name_columns_of_their_tables :
  (forall a, known_columns models.AuthorAffiliatedInstitution
               (AffiliatedInstitution.model_dump a) = true)
  /\ (forall a, known_columns models.Author (Author.model_dump a) = true)
  /\ (forall a, Forall (fun r => known_columns models.AuthorNameVariant r = true)
                       (Author.dump_name_variants a))
  /\ (forall a, Forall (fun r => known_columns models.AuthorSubjectArea r = true)
                       (Author.dump_subject_areas a))
  /\ (forall s, known_columns models.Source (Source.model_dump s) = true)
  /\ (forall s, known_columns models.SubjectArea (SubjectArea.model_dump s) = true)
  /\ (forall d, known_columns models.Document (Document.dump d) = true)
  /\ (forall d, Forall (fun r => known_columns models.DocumentTitle r = true)
                       (Document.dump_titles d))
  /\ (forall d, Forall (fun r => known_columns models.DocumentAbstractText r = true)
                       (Document.dump_abstract_texts d))
  /\ (forall d, known_columns models.DocumentSource (Document.dump_source d) = true)
  /\ (forall d, known_columns models.DocumentSourceRelationship
                  (Document.dump_source_relationship d) = true)
  /\ (forall d, Forall (fun r => known_columns models.DocumentAuthorship r = true)
                       (Document.dump_authors d))
  /\ (forall d, Forall (fun r => known_columns models.DocumentSubjectArea r = true)
                       (Document.dump_subject_areas d)).
Proof.
  split_and!; intros x; try reflexivity.
  all: apply Forall_forall; intros r Hr; apply list_elem_of_In, in_map_iff in Hr;
    destruct Hr as (y & <- & _); reflexivity.
Qed.

Lemma for_each_Return {St A} (xs : list A) (body : A -> M St unit) s s' :
  for_each xs body s = (Return tt, s') ->
  Forall (fun x => exists s1 s2, body x s1 = (Return tt, s2)) xs.
Proof.
  revert s. induction xs as [|x xs IH]; intros s H; [constructor|].
  cbn in H. apply bind_Return in H as ([] & s1 & Hx & Hrest).
  constructor; eauto.
Qed.

Lemma not_null_cell m (r : row) c :
  not_null_ok m r = true -> c ∈ models.columns m -> models.nullable c = false ->
  cell r (models.name c) <> Null.
Proof.
  unfold not_null_ok. rewrite forallb_forall. intros H Hc Hn.
  apply list_elem_of_In in Hc. apply H in Hc. rewrite Hn in Hc. cbn in Hc.
  by apply negb_true_iff, bool_decide_eq_false in Hc.
Qed.

(** A row with NULL under a NOT NULL column that is part of the index
    elements cannot be inserted. *)
Lemma null_key_is_refused model record ix mode db db' c :
  c ∈ models.columns model -> models.nullable c = false ->
  models.name c ∈ ix ->
  record !! models.name c = Some Null ->
  insert_record model record ix mode db <> (Return tt, db').
Proof.
  intros Hc Hn Hix Hv H.
  apply insert_record_Return in H as (Hkn & _ & _ & H).
  pose proof (proposed_row_lookup model record (sequence_values db) _ _ Hkn Hv) as Hp.
  set (r := (proposed_row model record (sequence_values db)).1) in *.
  assert (cell r (models.name c) = Null) as Hnull by (unfold cell; by rewrite Hp).
  assert (key_of ix r = None) as Hkey.
  { unfold key_of.
    assert (existsb (fun c0 => bool_decide (cell r c0 = Null)) ix = true) as ->; [|done].
    apply existsb_exists. exists (models.name c).
    split; [by apply list_elem_of_In | by apply bool_decide_eq_true]. }
  destruct (list_find _ _) as [[i old]|] eqn:Hf.
  - apply list_find_Some in Hf as (_ & Hcf & _).
    unfold conflicts in Hcf. by rewrite Hkey in Hcf.
  - apply plain_insert_Return in H as (_ & Hnn & _).
    by apply (not_null_cell model r c Hnn Hc Hn).
Qed.

(** X6. [insert_author] goes through only for an author all of whose name
    variants are strings and all of whose subject areas have a codename:
    the scheme lets a name variant be None and a subject area lack its
    codename, but the columns they go into are NOT NULL. *)
Theorem insert_author_needs_names_and_codenames :
  forall author db db',
    insert_author author db = (Return tt, db') ->
    Forall (fun name => is_Some name) (Author.name_variants author)
    /\ Forall (fun subject_area => is_Some (SubjectArea.codename subject_area))
              (Author.subject_areas author).
Proof.
  intros author db db' H. unfold insert_author in H.
  apply bind_Return in H as ([] & db1 & _ & H).
  apply bind_Return in H as ([] & db2 & Hnames & Hareas).
  apply for_each_Return in Hnames. apply for_each_Return in Hareas.
  rewrite Forall_forall in Hnames, Hareas. split; apply Forall_forall.
  - intros name Hin. destruct name as [name|]; [eauto|]. exfalso.
    destruct (Hnames (dict [("author_id", of_str (Author.id author));
                            ("name", of_opt_str None)])) as (s1 & s2 & Hs).
    { apply list_elem_of_In, in_map_iff. exists None.
      split; [done | by apply list_elem_of_In]. }
    revert Hs.
    apply (null_key_is_refused models.AuthorNameVariant _ _ _ _ _
             (models.col "name" false)); [|done| |reflexivity].
    + cbn. do 2 right. left.
    + cbn. right. left.
  - intros sa Hin. destruct (SubjectArea.codename sa) as [cn|] eqn:Hcn; [eauto|].
    exfalso.
    destruct (Hareas (dict [("author_id", of_str (Author.id author));
                            ("subject_area_codename",
                             of_opt_str (SubjectArea.codename sa))]))
      as (s1 & s2 & Hs).
    { apply list_elem_of_In, in_map_iff. exists sa.
      split; [done | by apply list_elem_of_In]. }
    revert Hs. rewrite Hcn.
    apply (null_key_is_refused models.AuthorSubjectArea _ _ _ _ _
             (models.col_fk "subject_area_codename" false false
                            "subject_areas" "codename")); [|done| |reflexivity].
    + cbn. do 2 right. left.
    + cbn. right. left.
Qed.

Lemma insert_author_needs_names_and_codenames_witness :
  (insert_author author_A1 db_before_author_A1).1 = Return tt
  /\ Forall (fun name => is_Some name) (Author.name_variants author_A1)
  /\ Forall (fun subject_area => is_Some (SubjectArea.codename subject_area))
            (Author.subject_areas author_A1).
Proof.
  assert ((insert_author author_A1 db_before_author_A1).1 = Return tt) as H
    by (vm_compute; reflexivity).
  split; [exact H|].
  apply (insert_author_needs_names_and_codenames author_A1 db_before_author_A1
           (insert_author author_A1 db_before_author_A1).2).
  destruct (insert_author _ _) as [r d]. cbn in H. subst r. reflexivity.
Defined.


Lemma update_values_unsupplied sa : supplied sa = None -> update_values sa = ∅.
Proof.
  unfold supplied, update_values.
  destruct (_ && _); [discriminate|]. destruct (_ && _); [discriminate|done].
Qed.

Lemma insert_subject_area_unsupplied sa db :
  supplied sa = None ->
  insert_subject_area sa db = (Raise ValueError, db).
Proof.
  intros H. unfold insert_subject_area, bind, on_conflict_do_update.
  rewrite (update_values_unsupplied sa H).
  by destruct (decide _).
Qed.

(** X7. A subject area that brings both a code and a codename, or neither,
    is refused before anything reaches the database: the ON CONFLICT clause
    gets an empty [set_], [insert_subject_area] raises a ValueError, and the
    database, the sequences included, is as it was. *)
Theorem subject_area_without_one_new_field_is_refused :
  forall subject_area db,
    supplied subject_area = None ->
    insert_subject_area subject_area db = (Raise ValueError, db).
Proof. exact insert_subject_area_unsupplied. Qed.

Lemma subject_area_without_one_new_field_is_refused_witness :
  supplied X_both = None
  /\ insert_subject_area X_both db_X_17_COMP = (Raise ValueError, db_X_17_COMP).
Proof.
  split; [reflexivity|].
  apply (subject_area_without_one_new_field_is_refused X_both db_X_17_COMP).
  reflexivity.
Defined.


End db_extras.

(* ===================================================================== *)
(** * The fetch client: what every call keeps to, and the paths through it *)
(* ===================================================================== *)

Module scraper_extras.
Import scraper_facts.
Import Py scraper examples.
Local Open Scope Z_scope.
Local Open Scope string_scope.
Local Open Scope list_scope.

(** ** Later states of the client *)

Lemma continues_refl w : continues w w.
Proof.
  unfold continues. split_and!; try reflexivity.
  exists []. by rewrite app_nil_r.
Qed.

Lemma within_policy_continues w w' e :
  continues w w' -> within_policy w' e -> within_policy w e.
Proof.
  intros (_ & Hp & _ & _ & Hr & _). destruct e; cbn; try done.
  - by rewrite Hp.
  - by rewrite Hr.
Qed.

Lemma continues_trans w1 w2 w3 :
  continues w1 w2 -> continues w2 w3 -> continues w1 w3.
Proof.
  intros H12 H23.
  pose proof H12 as (Ha & Hb & Hc & Hd & He & evs & Ht & Hf).
  destruct H23 as (Ha' & Hb' & Hc' & Hd' & He' & evs' & Ht' & Hf').
  unfold continues. split_and!; try congruence.
  exists (evs ++ evs'). split; [by rewrite Ht', Ht, app_assoc|].
  apply Forall_app. split; [done|].
  eapply Forall_impl; [exact Hf'|]. intros e. by apply within_policy_continues.
Qed.

Lemma continues_emit w e : within_policy w e -> continues w (emit e w).
Proof.
  intros H. unfold continues, emit. cbn. split_and!; try reflexivity.
  exists [e]. split; [done|]. by constructor.
Qed.

Lemma M_continues_ret {A} (a : A) : M_continues (ret a).
Proof. intros w. apply continues_refl. Qed.

Lemma M_continues_raise {A} e : M_continues (@raise World A e).
Proof. intros w. apply continues_refl. Qed.

Lemma M_continues_bind {A B} (m : M World A) (k : A -> M World B) :
  M_continues m -> (forall a, M_continues (k a)) -> M_continues (bind m k).
Proof.
  intros Hm Hk w. unfold bind. specialize (Hm w).
  destruct (m w) as [[a|e] w1]; cbn in *; [|done].
  eapply continues_trans; [exact Hm|apply Hk].
Qed.

Lemma M_continues_get : M_continues get.
Proof. intros w. apply continues_refl. Qed.

Lemma M_continues_logger_error msg e : M_continues (logger_error msg e).
Proof. intros w. by apply continues_emit. Qed.

Lemma M_continues_logger_info msg : M_continues (logger_info msg).
Proof. intros w. by apply continues_emit. Qed.

Lemma M_continues_print p : M_continues (print p).
Proof. intros w. by apply continues_emit. Qed.

Lemma M_continues_raise_for_status r : M_continues (raise_for_status r).
Proof.
  intros w. unfold raise_for_status. destruct (_ && _); apply continues_refl.
Qed.

Lemma M_continues_response_json r : M_continues (response_json r).
Proof.
  intros w. unfold response_json. destruct (json_body r); apply continues_refl.
Qed.

Lemma M_continues_session_get url_ headers_ params_ :
  M_continues (session_get url_ headers_ params_).
Proof.
  intros w. unfold session_get.
  destruct (network w _ _) as [response|e]; cbn;
    (unfold continues; cbn; split_and!; try reflexivity;
     eexists; split; [reflexivity|]; by repeat constructor).
Qed.

Lemma M_continues_update_session_headers : M_continues _update_session_headers.
Proof.
  intros w. unfold _update_session_headers, bind, ua_generator_generate, modify.
  cbn. unfold continues. cbn. split_and!; try reflexivity.
  exists []. by rewrite app_nil_r.
Qed.

Lemma M_continues_clear_cookies :
  M_continues (modify (fun w =>
     let s := _session w in
     set_session (mk_session (headers s) ∅ (proxies s)) w)).
Proof.
  intros w. unfold modify. cbn. unfold continues. cbn.
  split_and!; try reflexivity. exists []. by rewrite app_nil_r.
Qed.

Lemma PM_continues_lift {A} (m : M World A) :
  M_continues m -> PM_continues (lift m).
Proof.
  intros Hm w r w' H. unfold lift in H. specialize (Hm w).
  destruct (m w) as [r1 w1]. by injection H as <- <-.
Qed.

Lemma PM_continues_pret {A} (a : A) : PM_continues (pret a).
Proof. intros w r w' H. injection H as <- <-. apply continues_refl. Qed.

Lemma PM_continues_praise {A} e : PM_continues (@praise World A e).
Proof. intros w r w' H. injection H as <- <-. apply continues_refl. Qed.

Lemma PM_continues_pbind {A B} (m : PM World A) (k : A -> PM World B) :
  PM_continues m -> (forall a, PM_continues (k a)) -> PM_continues (pbind m k).
Proof.
  intros Hm Hk w r w' H. unfold pbind in H.
  destruct (m w) as [[[a|e] w1]|] eqn:E; [| |done].
  - eapply continues_trans; [by eapply Hm|by eapply Hk].
  - injection H as <- <-. by eapply Hm.
Qed.

Lemma PM_continues_ptry_except {A} (m : PM World A) clauses :
  PM_continues m ->
  Forall (fun clause => forall e, PM_continues (clause.2 e)) clauses ->
  PM_continues (ptry_except m clauses).
Proof.
  intros Hm Hc w r w' H. unfold ptry_except in H.
  destruct (m w) as [[[a|e] w1]|] eqn:E; [| |done].
  - injection H as <- <-. by eapply Hm.
  - assert (continues w w1) as H1 by (by eapply Hm).
    induction Hc as [|[classes handler] rest Hh _ IH].
    + injection H as <- <-. exact H1.
    + destruct (isinstance e classes); [|by apply IH].
      eapply continues_trans; [exact H1|]. by eapply (Hh e).
Qed.

Lemma PM_continues_retry {A} fuel retry_ stop attempt (fn : PM World A) :
  PM_continues fn ->
  PM_continues (retry fuel retry_ wait_to_retry stop attempt fn).
Proof.
  intros Hfn. revert attempt. induction fuel as [|fuel IH]; intros attempt w r w' H;
    [done|].
  cbn [retry] in H.
  destruct (fn w) as [[[a|e] w1]|] eqn:E; [| |done].
  - injection H as <- <-. by eapply Hfn.
  - assert (continues w w1) as H1 by (by eapply Hfn).
    destruct (retry_ e); [|by injection H as <- <-].
    destruct (stop attempt); [by injection H as <- <-|].
    unfold random_random in H.
    eapply continues_trans; [exact H1|].
    eapply continues_trans; [|by eapply IH].
    unfold continues, emit. cbn. split_and!; try reflexivity.
    eexists. split; [reflexivity|]. constructor; [|constructor].
    cbn. by eexists.
Qed.

Ltac continues_step :=
  first [ apply PM_continues_pbind; [|intros ?]
        | apply PM_continues_lift
        | apply PM_continues_pret
        | apply PM_continues_praise
        | apply M_continues_bind; [|intros ?]
        | apply M_continues_get
        | apply M_continues_ret
        | apply M_continues_logger_error
        | apply M_continues_logger_info
        | apply M_continues_print
        | apply M_continues_raise_for_status
        | apply M_continues_response_json
        | apply M_continues_session_get
        | apply M_continues_update_session_headers
        | apply M_continues_clear_cookies ].

Lemma PM_continues_scopus_auth_attempt constants reset :
  PM_continues reset -> PM_continues (scopus_auth_attempt constants reset).
Proof.
  intros Hr. unfold scopus_auth_attempt. apply PM_continues_ptry_except.
  - repeat continues_step.
  - (constructor; [|constructor; [|constructor]]); intros e; cbn [snd]; repeat continues_step; exact Hr.
Qed.

Lemma PM_continues_reset_client_then auth :
  PM_continues auth -> PM_continues (reset_client_then auth).
Proof.
  intros Ha. unfold reset_client_then. repeat continues_step. exact Ha.
Qed.

Lemma PM_continues_scopus_auth constants fuel :
  PM_continues (_scopus_auth constants fuel).
Proof.
  induction fuel as [|fuel IH]; [by intros w r w' H|].
  cbn [_scopus_auth]. apply PM_continues_retry.
  apply PM_continues_scopus_auth_attempt.
  by apply PM_continues_reset_client_then.
Qed.

Lemma PM_continues_reset_client constants fuel :
  PM_continues (_reset_client constants fuel).
Proof.
  apply PM_continues_reset_client_then, PM_continues_scopus_auth.
Qed.



Lemma PM_continues_enter constants fuel w r w' :
  __enter__ constants fuel w = Some (r, w') -> continues (with_proxies w) w'.
Proof.
  unfold __enter__, _init_client. unfold pbind at 1, lift at 1, modify.
  fold (with_proxies w).
  apply (PM_continues_pbind (lift (_update_session_headers))
           (fun _ => _scopus_auth constants fuel)).
  - repeat continues_step.
  - intros _. apply PM_continues_scopus_auth.
Qed.






(** X12. Entering the client puts the client's proxies into the session,
    over what the session had under the same keys, and whenever
    [__enter__] comes back every request of the authentication went
    through these proxies and they are still the session's. *)
Theorem entering_routes_through_the_client_proxies :
  forall constants fuel w r w',
    __enter__ constants fuel w = Some (r, w') ->
    proxies (_session w') = _proxies w ∪ proxies (_session w)
    /\ exists events,
         trace w' = trace w ++ events
         /\ forall request, Sent request ∈ events ->
              request_proxies request = _proxies w ∪ proxies (_session w).
Proof.
  intros constants fuel w r w' H.
  apply PM_continues_enter in H as (_ & Hp & _ & _ & _ & events & Ht & Hf).
  split; [exact Hp|]. exists events. split; [exact Ht|].
  rewrite Forall_forall in Hf. intros request Hin. exact (Hf _ Hin).
Qed.

Lemma entering_routes_through_the_client_proxies_witness :
  match __enter__ constants 5 (client_with_proxies listing) with
  | Some (r, w') =>
      proxies (_session w') = {[ "https" := "http://proxy.test:3128" ]}
  | None => False
  end.
Proof.
  destruct (__enter__ constants 5 (client_with_proxies listing))
    as [[r w']|] eqn:E; [|vm_compute in E; discriminate E].
  destruct (entering_routes_through_the_client_proxies constants 5
              (client_with_proxies listing) r w' E) as (-> & _).
  vm_compute. reflexivity.
Defined.

(** ** No way out with a request exception *)

Lemma retry_stop_never {A} fuel retry_ wait attempt (fn : PM World A) w e w' :
  retry fuel retry_ wait stop_never attempt fn w = Some (Raise e, w') ->
  retry_ e = false.
Proof.
  revert attempt w. induction fuel as [|fuel IH]; intros attempt w H; [done|].
  cbn [retry] in H.
  destruct (fn w) as [[[a|e0] w1]|]; [done| |done].
  destruct (retry_ e0) eqn:E; [|by injection H as <- <-].
  cbn [stop_never] in H. unfold random_random in H. by eapply IH.
Qed.

(** X13. No request exception ever leaves the client.  [retry] is given
    no [stop], so when [get_author], [get_author_documents],
    [_scopus_auth] or [__enter__] ends with an exception, after however
    many attempts, that exception is none that the retry condition
    accepts: a failure of the network is retried for as long as it lasts. *)
Theorem a_request_exception_never_leaves_the_client :
  forall constants fuel author_id w e w',
    get_author constants fuel author_id w = Some (Raise e, w')
    \/ get_author_documents constants fuel author_id w = Some (Raise e, w')
    \/ _scopus_auth constants fuel w = Some (Raise e, w')
    \/ __enter__ constants fuel w = Some (Raise e, w') ->
    retry_if_exc_type request_exc e = false.
Proof.
  intros constants fuel author_id w e w' H.
  assert (forall w, _scopus_auth constants fuel w = Some (Raise e, w') ->
                    retry_if_exc_type request_exc e = false) as Hauth.
  { intros w0 H0. destruct fuel as [|fuel]; [done|].
    cbn [_scopus_auth] in H0. by eapply retry_stop_never. }
  destruct H as [H|[H|[H|H]]].
  - by eapply retry_stop_never.
  - by eapply retry_stop_never.
  - by eapply Hauth.
  - unfold __enter__, _init_client in H.
    unfold pbind at 1, lift at 1, modify in H.
    unfold pbind at 1, lift at 1 in H.
    destruct (_update_session_headers _) as [[[]|e0] w1] eqn:E.
    + by eapply Hauth.
    + unfold _update_session_headers, bind, ua_generator_generate, modify in E.
      discriminate E.
Qed.

Lemma a_request_exception_never_leaves_the_client_witness :
  match get_author constants 5 "42" (client unexpected) with
  | Some (Raise e, _) => e = TypeError /\ retry_if_exc_type request_exc e = false
  | _ => False
  end.
Proof.
  destruct (get_author constants 5 "42" (client unexpected))
    as [[[j|e] w']|] eqn:E;
    [vm_compute in E; discriminate E | | vm_compute in E; discriminate E].
  split.
  - vm_compute in E. by injection E as <- _.
  - exact (a_request_exception_never_leaves_the_client constants 5 "42"
             (client unexpected) e w' (or_introl E)).
Defined.

(** ** A fetch that goes through *)

Lemma status_ok_not_soft status :
  status_ok status = true -> soft_empty status = false.
Proof.
  unfold status_ok, soft_empty. intros H. apply bool_decide_eq_false.
  intros Hin. repeat (apply elem_of_cons in Hin as [->|Hin]; [discriminate H|]).
  by apply elem_of_nil in Hin.
Qed.

Lemma status_ok_range status :
  status_ok status = true -> Z.leb 400 status && Z.ltb status 600 = false.
Proof. unfold status_ok. by intros H%negb_true_iff. Qed.

(** X14. A fetch that goes through.  When the answer to the request has a
    status that is no error status and a body that decodes, [get_author]
    and [get_author_documents] return the decoded body from the first
    attempt: one request, one info line in the log, no sleep, no reset, no
    new identity. *)
Theorem a_decodable_answer_is_returned_at_once :
  forall constants fuel author_id w response j,
    status_ok (status_code response) = true ->
    json_body response = Some j ->
    (network w (requests_sent w) (author_request constants author_id w)
       = Return response ->
     exists w',
       get_author constants (S fuel) author_id w = Some (Return j, w')
       /\ one_request_only w w' response
       /\ trace w' = trace w ++
            [Sent (author_request constants author_id w);
             LogInfo [Lit "Author ID: "; Lit author_id; Lit " | "; Fmt j]])
    /\
    (network w (requests_sent w) (author_documents_request constants author_id w)
       = Return response ->
     exists w',
       get_author_documents constants (S fuel) author_id w = Some (Return j, w')
       /\ one_request_only w w' response
       /\ trace w' = trace w ++
            [Sent (author_documents_request constants author_id w);
             LogInfo [Lit "Author ID: "; Lit author_id; Lit " | "; Fmt j]]).
Proof.
  intros constants fuel author_id w response j Hok Hj.
  pose proof (status_ok_not_soft _ Hok) as Hsoft.
  pose proof (status_ok_range _ Hok) as Hrange.
  split; intros Hnet.
  - unfold get_author. cbn [retry].
    unfold get_author_attempt, ptry_except, pbind, lift, session_get.
    fold (author_request constants author_id w). rewrite Hnet. cbn.
    rewrite Hsoft. unfold raise_for_status, response_json.
    rewrite Hrange, Hj. cbn. unfold emit, set_session. cbn.
    eexists. split; [reflexivity|].
    unfold one_request_only. cbn. rewrite <- !app_assoc. cbn.
    split_and!; try reflexivity.
    unfold sleeps at 1. cbn [trace]. rewrite sleeps_app. apply app_nil_r.
  - unfold get_author_documents. cbn [retry].
    unfold get_author_documents_attempt, ptry_except, pbind, lift, session_get.
    fold (author_documents_request constants author_id w). rewrite Hnet. cbn.
    rewrite Hsoft. unfold raise_for_status, response_json.
    rewrite Hrange, Hj. cbn. unfold emit, set_session. cbn.
    eexists. split; [reflexivity|].
    unfold one_request_only. cbn. rewrite <- !app_assoc. cbn.
    split_and!; try reflexivity.
    unfold sleeps at 1. cbn [trace]. rewrite sleeps_app. apply app_nil_r.
Qed.

Lemma a_decodable_answer_is_returned_at_once_witness :
  exists w',
    get_author_documents constants 1 "42" (client listing)
      = Some (Return (JDict [("items", JList [doc_2023; doc_2024; doc_no_year])]),
              w')
    /\ one_request_only (client listing) w' listing_200.
Proof.
  destruct (proj2 (a_decodable_answer_is_returned_at_once constants 0 "42"
                     (client listing) listing_200
                     (JDict [("items", JList [doc_2023; doc_2024; doc_no_year])])
                     eq_refl eq_refl) eq_refl) as (w' & H & H1 & _).
  exists w'. split; [exact H | exact H1].
Defined.

(** ** A fetch that fails *)

Lemma proxy_clause_is_covered e :
  isinstance e [ProxyError; ConnectTimeout] = true ->
  isinstance e [RequestException; JSONDecodeError] = true.
Proof. destruct e; vm_compute; congruence. Qed.

Lemma session_get_trace url_ headers_ params_ w r w1 :
  session_get url_ headers_ params_ w = (r, w1) ->
  trace w1 = trace w ++
    [Sent (mk_request url_ params_ (headers_ ∪ headers (_session w))
                      (cookies (_session w)) (proxies (_session w)))]
  /\ requests_sent w1 = S (requests_sent w).
Proof.
  unfold session_get. destruct (network w _ _); intros H; injection H as <- <-;
    split; reflexivity.
Qed.

(** What a handler of the first clause of a fetch does. *)
Lemma log_reset_raise {A} msg (reset : PM World unit) e0 w0 e w' :
  (pbind (lift (logger_error msg e0))
         (fun _ => pbind reset (fun _ => @praise World A e0))) w0
    = Some (Raise e, w') ->
  exists r0,
    reset (emit (LogError msg e0) w0) = Some (r0, w')
    /\ match r0 with Return _ => e = e0 | Raise e' => e = e' end.
Proof.
  unfold pbind at 1, lift at 1, logger_error, modify. cbn.
  unfold pbind. destruct (reset _) as [[[[]|e'] w2]|]; [| |done].
  - unfold praise. intros H. injection H as <- <-. by eexists.
  - intros H. injection H as <- <-. by eexists.
Qed.

(** X15. No fetch attempt ends with a request exception without having
    reset the client.  Whatever made the attempt fail (the request itself,
    an error status, a body that does not decode), when one call of the
    body of [get_author] or of [get_author_documents] ends with a
    [RequestException], one request was sent, the failure was logged as a
    failed fetch (never as a proxy error), [_reset_client] was run from
    there, and the attempt ends where the reset ended. *)
Theorem a_failed_fetch_has_reset_the_client :
  forall constants reset author_id w e w',
    isinstance e [RequestException; JSONDecodeError] = true ->
    (get_author_attempt constants reset author_id w = Some (Raise e, w') ->
     exists e0 w0 r0,
       trace w0 = trace w ++ [Sent (author_request constants author_id w)]
       /\ reset (emit (LogError [Lit "Author ID: "; Lit author_id;
                                 Lit " | Unable to get author description: "]
                                e0) w0) = Some (r0, w')
       /\ match r0 with Return _ => e = e0 | Raise e' => e = e' end)
    /\
    (get_author_documents_attempt constants reset author_id w
       = Some (Raise e, w') ->
     exists e0 w0 r0,
       trace w0 = trace w ++ [Sent (author_documents_request constants author_id w)]
       /\ reset (emit (LogError [Lit "Author ID: "; Lit author_id;
                                 Lit " | Unable to get author documents: "]
                                e0) w0) = Some (r0, w')
       /\ match r0 with Return _ => e = e0 | Raise e' => e = e' end).
Proof.
  intros constants reset author_id w e w' He. split; intros H.
  - unfold get_author_attempt, ptry_except in H.
    unfold pbind at 1, lift at 1 in H.
    destruct (session_get _ _ _ w) as [[response|e0] w0] eqn:Hget;
      apply session_get_trace in Hget as [Ht _].
    + destruct (soft_empty _); [discriminate H|].
      unfold pbind at 1, lift at 1, raise_for_status in H.
      destruct (_ && _).
      * cbn [raise] in H. change (isinstance HTTPError [RequestException; JSONDecodeError]) with true in H.
        apply log_reset_raise in H as (r0 & Hr & Hm). by exists HTTPError, w0, r0.
      * cbn [ret] in H. unfold pbind at 1, lift at 1, response_json in H.
        destruct (json_body response).
        -- discriminate H.
        -- cbn [raise] in H. change (isinstance JSONDecodeError [RequestException; JSONDecodeError]) with true in H.
           apply log_reset_raise in H as (r0 & Hr & Hm).
           by exists JSONDecodeError, w0, r0.
    + destruct (isinstance e0 [RequestException; JSONDecodeError]) eqn:E1.
      * apply log_reset_raise in H as (r0 & Hr & Hm). by exists e0, w0, r0.
      * destruct (isinstance e0 [ProxyError; ConnectTimeout]) eqn:E2.
        -- apply proxy_clause_is_covered in E2. congruence.
        -- injection H as <- <-. congruence.
  - unfold get_author_documents_attempt, ptry_except in H.
    unfold pbind at 1, lift at 1 in H.
    destruct (session_get _ _ _ w) as [[response|e0] w0] eqn:Hget;
      apply session_get_trace in Hget as [Ht _].
    + destruct (soft_empty _); [discriminate H|].
      unfold pbind at 1, lift at 1, raise_for_status in H.
      destruct (_ && _).
      * cbn [raise] in H. change (isinstance HTTPError [RequestException; JSONDecodeError]) with true in H.
        apply log_reset_raise in H as (r0 & Hr & Hm). by exists HTTPError, w0, r0.
      * cbn [ret] in H. unfold pbind at 1, lift at 1, response_json in H.
        destruct (json_body response).
        -- discriminate H.
        -- cbn [raise] in H. change (isinstance JSONDecodeError [RequestException; JSONDecodeError]) with true in H.
           apply log_reset_raise in H as (r0 & Hr & Hm).
           by exists JSONDecodeError, w0, r0.
    + destruct (isinstance e0 [RequestException; JSONDecodeError]) eqn:E1.
      * apply log_reset_raise in H as (r0 & Hr & Hm). by exists e0, w0, r0.
      * destruct (isinstance e0 [ProxyError; ConnectTimeout]) eqn:E2.
        -- apply proxy_clause_is_covered in E2. congruence.
        -- injection H as <- <-. congruence.
Qed.

Lemma a_failed_fetch_has_reset_the_client_witness :
  match get_author_attempt constants (_reset_client constants 5) "42"
                           (client (proxy_fails 1)) with
  | Some (Raise e, w') =>
      e = ProxyError
      /\ exists e0 w0 r0,
           trace w0 = trace (client (proxy_fails 1)) ++
                      [Sent (author_request constants "42" (client (proxy_fails 1)))]
           /\ _reset_client constants 5
                (emit (LogError [Lit "Author ID: "; Lit "42";
                                 Lit " | Unable to get author description: "]
                                e0) w0) = Some (r0, w')
  | _ => False
  end.
Proof.
  destruct (get_author_attempt constants (_reset_client constants 5) "42"
                               (client (proxy_fails 1)))
    as [[[j|e] w']|] eqn:E;
    [vm_compute in E; discriminate E | | vm_compute in E; discriminate E].
  assert (e = ProxyError) as -> by (vm_compute in E; by injection E as <- _).
  split; [reflexivity|].
  destruct (proj1 (a_failed_fetch_has_reset_the_client constants
                     (_reset_client constants 5) "42" (client (proxy_fails 1))
                     ProxyError w' eq_refl) E)
    as (e0 & w0 & r0 & H1 & H2 & _).
  by exists e0, w0, r0.
Defined.

(** ** Authentication *)

Lemma ptry_except_lift_bind {A B} (m : M World A) (k : A -> PM World B)
    clauses w :
  ptry_except (pbind (lift m) k) clauses w =
  match m w with
  | (Return a, w1) => ptry_except (k a) clauses w1
  | (Raise e, w1) => ptry_except (praise e) clauses w1
  end.
Proof.
  unfold ptry_except, pbind, lift, praise. by destruct (m w) as [[a|e] w1].
Qed.

(** X16. An authentication that goes through.  When the claim address and
    then the site answer with a status that is no error status,
    [_scopus_auth] returns from the first attempt after exactly these two
    requests: the claim with the headers made from the session's, then the
    site with the cookies that the answer to the claim set; the text of the
    first answer is printed, nothing is logged, nothing sleeps, and the
    jar ends with the cookies of both answers over the ones it had. *)
Theorem an_authentication_that_goes_through :
  forall constants fuel w claim site,
    network w (requests_sent w) (auth_claim_request constants w) = Return claim ->
    status_ok (status_code claim) = true ->
    network w (S (requests_sent w)) (scopus_request constants claim w)
      = Return site ->
    status_ok (status_code site) = true ->
    exists w',
      _scopus_auth constants (S fuel) w = Some (Return tt, w')
      /\ trace w' = trace w ++ [Sent (auth_claim_request constants w);
                                Print (Text (text claim));
                                Sent (scopus_request constants claim w)]
      /\ requests_sent w' = S (S (requests_sent w))
      /\ cookies (_session w')
         = set_cookie site ∪ (set_cookie claim ∪ cookies (_session w))
      /\ headers (_session w') = headers (_session w)
      /\ proxies (_session w') = proxies (_session w)
      /\ ua_drawn w' = ua_drawn w
      /\ randoms_drawn w' = randoms_drawn w.
Proof.
  intros constants fuel w claim site Hclaim Hok1 Hsite Hok2.
  apply status_ok_range in Hok1, Hok2.
  cbn [_scopus_auth retry].
  unfold scopus_auth_attempt, ptry_except.
  unfold pbind at 1, lift at 1, get.
  unfold pbind at 1, lift at 1, session_get.
  fold (auth_claim_request constants w). rewrite Hclaim.
  unfold pbind at 1, lift at 1, print, modify.
  unfold pbind at 1, lift at 1, raise_for_status. rewrite Hok1.
  cbn [ret]. unfold pbind at 1, lift at 1, session_get.
  cbn [emit set_session _session requests_sent network headers cookies proxies
       _proxies ua_source random_source ua_drawn randoms_drawn trace].
  fold (scopus_request constants claim w). rewrite Hsite.
  unfold lift, raise_for_status. rewrite Hok2. cbn [ret].
  eexists. split; [reflexivity|].
  cbn. rewrite <- !app_assoc. split_and!; reflexivity.
Qed.

Lemma an_authentication_that_goes_through_witness :
  exists w',
    _scopus_auth constants 1 (client listing) = Some (Return tt, w')
    /\ requests_sent w' = 2%nat.
Proof.
  destruct (an_authentication_that_goes_through constants 0 (client listing)
              ok_200 ok_200 eq_refl eq_refl eq_refl eq_refl)
    as (w' & H & _ & Hn & _).
  exists w'. split; [exact H | exact Hn].
Defined.

(** ** A reset *)

Lemma retry_after_first {A} fuel retry_ stop attempt (fn : PM World A) w r w' :
  PM_continues fn ->
  retry (S fuel) retry_ wait_to_retry stop attempt fn w = Some (r, w') ->
  exists r2 w2, fn w = Some (r2, w2) /\ continues w2 w'.
Proof.
  intros Hfn H. cbn [retry] in H.
  destruct (fn w) as [[[a|e] w2]|] eqn:E; [| |done].
  - injection H as <- <-. do 2 eexists. split; [done|apply continues_refl].
  - do 2 eexists. split; [done|].
    destruct (retry_ e); [|injection H as <- <-; apply continues_refl].
    destruct (stop attempt); [injection H as <- <-; apply continues_refl|].
    unfold random_random in H.
    eapply continues_trans; [|by eapply PM_continues_retry].
    unfold continues, emit. cbn. split_and!; try reflexivity.
    eexists. split; [reflexivity|]. constructor; [|constructor].
    cbn. by eexists.
Qed.

Lemma scopus_auth_attempt_first constants reset w r w2 :
  PM_continues reset ->
  scopus_auth_attempt constants reset w = Some (r, w2) ->
  exists w1,
    trace w1 = trace w ++ [Sent (auth_claim_request constants w)]
    /\ continues w1 w2.
Proof.
  intros Hreset H. unfold scopus_auth_attempt in H.
  rewrite ptry_except_lift_bind in H. cbn [get] in H.
  rewrite ptry_except_lift_bind in H.
  fold (auth_claim_request constants w) in H.
  destruct (session_get _ _ _ w) as [[response|e] w1] eqn:Hget;
    apply session_get_trace in Hget as [Ht _]; exists w1; (split; [exact Ht|]).
  - revert H. apply PM_continues_ptry_except.
    + repeat continues_step.
    + (constructor; [|constructor; [|constructor]]); intros e; cbn [snd];
        repeat continues_step; exact Hreset.
  - revert H. apply PM_continues_ptry_except.
    + repeat continues_step.
    + (constructor; [|constructor; [|constructor]]); intros e'; cbn [snd];
        repeat continues_step; exact Hreset.
Qed.

(** X17. A reset starts from a clean identity.  Whenever [_reset_client]
    comes back, the first thing it sent was the claim request, with an
    empty cookie jar, with the user agent that [ua_generator] had just
    drawn, and through the session's proxies. *)
Theorem a_reset_starts_from_a_clean_identity :
  forall constants fuel w r w',
    _reset_client constants fuel w = Some (r, w') ->
    exists request events,
      trace w' = trace w ++ Sent request :: events
      /\ url request = AUTH_CLAIM_URI constants
      /\ request_cookies request = ∅
      /\ request_headers request !! "user-agent"
         = Some (ua_text (ua_source w (ua_drawn w)))
      /\ request_proxies request = proxies (_session w).
Proof.
  intros constants fuel w r w' H.
  destruct fuel as [|fuel].
  { unfold _reset_client, reset_client_then, pbind, lift in H.
    cbn in H. discriminate H. }
  unfold _reset_client, reset_client_then in H.
  unfold pbind at 1, lift at 1, modify in H.
  unfold pbind at 1, lift at 1 in H.
  unfold _update_session_headers, bind, ua_generator_generate, modify in H.
  cbn [_scopus_auth] in H.
  apply retry_after_first in H as (r2 & w2 & Ha & Hc);
    [|apply PM_continues_scopus_auth_attempt, PM_continues_reset_client].
  apply scopus_auth_attempt_first in Ha as (w1 & Ht & Hc1);
    [|apply PM_continues_reset_client].
  destruct (continues_trans _ _ _ Hc1 Hc) as (_ & _ & _ & _ & _ & events & Ht' & _).
  eexists _, events. split; [by rewrite Ht', Ht, <- app_assoc|].
  split; [reflexivity|]. split; [reflexivity|]. split; [|reflexivity].
  cbn [auth_claim_request request_headers set_session _session headers].
  apply lookup_union_Some_l.
  match goal with |- context [default "" (?h !! "user-agent")] =>
    assert (h !! "user-agent" = Some (ua_text (ua_source w (ua_drawn w)))) as ->
      by (apply lookup_union_Some_l; reflexivity)
  end.
  reflexivity.
Qed.

Lemma a_reset_starts_from_a_clean_identity_witness :
  match _reset_client constants 5 (client listing) with
  | Some (r, w') =>
      exists request events,
        trace w' = Sent request :: events
        /\ request_cookies request = ∅
        /\ request_headers request !! "user-agent" = Some "UA-0"
  | None => False
  end.
Proof.
  destruct (_reset_client constants 5 (client listing)) as [[r w']|] eqn:E;
    [|vm_compute in E; discriminate E].
  destruct (a_reset_starts_from_a_clean_identity constants 5 (client listing)
              r w' E) as (request & events & Ht & _ & Hc & Hu & _).
  exists request, events. split; [exact Ht|]. split; [exact Hc|exact Hu].
Defined.

End scraper_extras.

(* ===================================================================== *)
(** * The driver: what the units store, and what the filter keeps *)
(* ===================================================================== *)

Module main_extras.
Import main_facts db_extras.
Import Py engine connector main examples.
Local Open Scope Z_scope.
Local Open Scope string_scope.
Local Open Scope list_scope.

Lemma document_unit_raises document db :
  (document_unit document db).1 <> Return tt.
Proof.
  intros H. destruct (document_unit document db) as [r db'] eqn:E.
  cbn [fst] in H. subst r. unfold document_unit in E.
  apply bind_Return in E as ([] & db1 & _ & E).
  apply bind_Return in E as ([] & db2 & _ & E).
  apply (insert_document_raises document db2). by rewrite E.
Qed.

(** The call of [_insert_document], whatever it is given. *)
Lemma insert_document_call :
  forall validate author_id document_desc p,
    exists r p',
      _insert_document validate author_id document_desc p = Some (r, p')
      /\ committed (database p') = committed (database p)
      /\ session (database p') = committed (database p).
Proof.
  intros validate author_id document_desc p.
  unfold _insert_document, with_, lift, try_except.
  unfold on_db at 1. cbn [connector.__enter__ modify].
  destruct (validate document_desc) as [document|e] eqn:Hv.
  - unfold bind at 1. unfold on_db at 1. cbn [database].
    change (mk_db (committed (database p)) (committed (database p))
             (sequence_values (database p))) with (entered (database p)).
    pose proof (keeps_committed_document_unit document (entered (database p))) as Hc.
    pose proof (document_unit_raises document (entered (database p))) as Hr.
    destruct (document_unit document (entered (database p))) as [[[]|e] db1];
      cbn [fst snd] in *; [done|].
    destruct (isinstance e [ValidationError]) eqn:E1;
      [|destruct (isinstance e [SQLAlchemyError]) eqn:E2].
    all: do 2 eexists; (split; [reflexivity|]); cbn -[isinstance];
      rewrite ?Hc; split; reflexivity.
  - destruct (isinstance e [ValidationError]) eqn:E1;
      [|destruct (isinstance e [SQLAlchemyError]) eqn:E2].
    all: do 2 eexists; (split; [reflexivity|]); cbn -[isinstance];
      split; reflexivity.
Qed.

(** X8. [_insert_document] stores nothing.  Whatever the payload, the
    validator and the database, the call comes back with the committed
    tables as they were and nothing pending: the unit's last operation is
    [insert_document], which cannot go through, so the commit is never
    reached. *)
Theorem _insert_document_stores_nothing :
  forall validate author_id document_desc p,
    exists r p',
      _insert_document validate author_id document_desc p = Some (r, p')
      /\ committed (database p') = committed (database p)
      /\ session (database p') = committed (database p).
Proof. exact insert_document_call. Qed.


Lemma for_each_unsupplied areas db :
  Exists (fun sa => supplied sa = None) areas ->
  (for_each areas insert_subject_area db).1 <> Return tt.
Proof.
  intros Hex H. destruct (for_each _ _ _) as [r db'] eqn:E.
  cbn [fst] in H. subst r. apply for_each_Return in E.
  apply Exists_exists in Hex as (sa & Hin & Hsa).
  rewrite Forall_forall in E. destruct (E sa Hin) as (s1 & s2 & Hs).
  rewrite (insert_subject_area_unsupplied sa s1 Hsa) in Hs. discriminate.
Qed.

Lemma author_unit_unsupplied author db :
  Exists (fun sa => supplied sa = None) (schemes.Author.subject_areas author) ->
  (author_unit author db).1 <> Return tt.
Proof.
  intros Hex H. destruct (author_unit author db) as [r db'] eqn:E.
  cbn [fst] in H. subst r. unfold author_unit in E.
  apply bind_Return in E as ([] & db1 & _ & E).
  apply bind_Return in E as ([] & db2 & E & _).
  apply (for_each_unsupplied _ db1 Hex). by rewrite E.
Qed.

Lemma author_unit_first_unsupplied author db sa rest :
  schemes.Author.subject_areas author = sa :: rest ->
  supplied sa = None ->
  (insert_affiliated_institution
     (schemes.Author.affiliated_institution author) db).1 = Return tt ->
  (author_unit author db).1 = Raise ValueError.
Proof.
  intros Hs Hsa Hi. unfold author_unit. unfold bind at 1.
  destruct (insert_affiliated_institution _ db) as [r db1]. cbn in Hi. subst r.
  rewrite Hs. unfold bind at 1. cbn [for_each]. unfold bind at 1.
  by rewrite (insert_subject_area_unsupplied sa db1 Hsa).
Qed.

(** X9. A subject area with both a code and a codename, or with neither,
    keeps its author out of the database.  If the validated author is of an
    institution looked for and one of the subject areas is such,
    [_insert_author] comes back with the committed tables as they were;
    and when that subject area is the first one and the institution went
    in, the ValueError of the empty [set_] is none of the classes that
    [_insert_author] handles and reaches the caller. *)
Theorem unsupplied_subject_area_keeps_the_author_out :
  forall validate author_desc p author,
    validate author_desc = Return author ->
    schemes.Author.affiliated_institution_id author ∈ OMSTU_AFF_INST_IDS ->
    Exists (fun sa => supplied sa = None) (schemes.Author.subject_areas author) ->
    exists r p',
      _insert_author validate author_desc p = Some (r, p')
      /\ committed (database p') = committed (database p)
      /\ (forall sa rest,
            schemes.Author.subject_areas author = sa :: rest ->
            supplied sa = None ->
            (insert_affiliated_institution
               (schemes.Author.affiliated_institution author)
               (entered (database p))).1 = Return tt ->
            r = Raise ValueError).
Proof.
  intros validate author_desc p author Hv Hin Hex.
  unfold _insert_author, with_, lift, try_except.
  unfold on_db at 1. cbn [connector.__enter__ modify].
  rewrite Hv. rewrite bool_decide_eq_true_2 by done. cbn [negb].
  unfold bind at 1. unfold on_db at 1. cbn [database].
  change (mk_db (committed (database p)) (committed (database p))
           (sequence_values (database p))) with (entered (database p)).
  pose proof (keeps_committed_author_unit author (entered (database p))) as Hc.
  pose proof (author_unit_unsupplied author (entered (database p)) Hex) as Hr.
  pose proof (author_unit_first_unsupplied author (entered (database p))) as Hf.
  destruct (author_unit author (entered (database p))) as [[[]|e] db1];
    cbn [fst snd] in *; [done|].
  destruct (isinstance e [ValidationError]) eqn:E1;
    [|destruct (isinstance e [SQLAlchemyError]) eqn:E2].
  - destruct author_desc; do 2 eexists; (split; [reflexivity|]);
      cbn -[isinstance]; rewrite ?Hc; (split; [reflexivity|]);
      intros sa rest H1 H2 H3; specialize (Hf sa rest H1 H2 H3);
      injection Hf as ->; discriminate E1.
  - do 2 eexists; (split; [reflexivity|]);
      cbn -[isinstance]; rewrite ?Hc; (split; [reflexivity|]).
    intros sa rest H1 H2 H3; specialize (Hf sa rest H1 H2 H3).
    injection Hf as ->; discriminate E2.
  - do 2 eexists; (split; [reflexivity|]);
      cbn -[isinstance]; rewrite ?Hc; (split; [reflexivity|]).
    intros sa rest H1 H2 H3; specialize (Hf sa rest H1 H2 H3).
    by injection Hf as ->.
Qed.

Lemma unsupplied_subject_area_keeps_the_author_out_witness :
  match _insert_author validates_to_A2 (JDict []) (process all_404) with
  | Some (r, p') =>
      r = Raise ValueError
      /\ committed (database p') = committed (database (process all_404))
  | None => False
  end.
Proof.
  destruct (unsupplied_subject_area_keeps_the_author_out validates_to_A2
              (JDict []) (process all_404) author_A2 eq_refl)
    as (r & p' & -> & Hc & Hr).
  - vm_compute. do 1 right. left.
  - left. reflexivity.
  - split; [|exact Hc].
    apply (Hr X_both []); [reflexivity|reflexivity|vm_compute; reflexivity].
Defined.

Lemma PUB_YEAR_has_no_zero : existsb (Z.eqb 0) PUB_YEAR = false.
Proof. reflexivity. Qed.

(** X10. What the filter of [_get_documents] keeps.  With the [PUB_YEAR]
    of the code, the comprehension over a list of payloads that are all
    dicts returns exactly those whose [pubYear] Python takes as true, in
    their order, whatever the database holds, and leaves the database as
    it was; a payload that is no dict raises AttributeError. *)
Theorem the_filter_keeps_the_payloads_with_a_year :
  (forall items db,
     Forall is_dict items ->
     comprehension items db = (Return (List.filter has_year items), db))
  /\ (forall document db,
        ~ is_dict document ->
        keep_document document db = (Raise AttributeError, db)).
Proof.
  split.
  - intros items db H. induction H as [|document items [d ->] _ IH].
    + reflexivity.
    + cbn [comprehension List.filter has_year]. unfold bind at 1.
      unfold keep_document. rewrite PUB_YEAR_has_no_zero.
      destruct (truthy _); unfold ret at 1; unfold bind at 1; rewrite IH;
        reflexivity.
  - intros document db H. destruct document; try reflexivity.
    exfalso. apply H. by eexists.
Qed.

Lemma the_filter_keeps_the_payloads_with_a_year_witness :
  comprehension [doc_2023; doc_2024; doc_no_year] empty_db
  = (Return [doc_2023; doc_2024], empty_db).
Proof.
  apply (proj1 the_filter_keeps_the_payloads_with_a_year
               [doc_2023; doc_2024; doc_no_year] empty_db).
  repeat constructor; by eexists.
Defined.

End main_extras.

(* ===================================================================== *)
(** * The validators of subject areas, institutions and source relationships *)
(* ===================================================================== *)

Module schemes_extras.
Import schemes_facts.
Import Py objects schemes examples.
Local Open Scope Z_scope.
Local Open Scope string_scope.
Local Open Scope list_scope.

(** ** The subject-area validator *)

Lemma delitem_dict data key h items v :
  h !! data = Some (ODict items) -> items !! key = Some v ->
  delitem data key h = (Return tt, <[data := ODict (delete key items)]> h).
Proof. intros H Hk. unfold delitem. by rewrite H, Hk. Qed.

Lemma prevalidate_subject_area_dict isdecimal h d items :
  h !! d = Some (ODict items) ->
  SubjectArea.prevalidate_subject_area_data isdecimal (VRef d) h =
    (Return (VRef d),
     <[d := ODict (SubjectArea.items_after isdecimal h items)]> h).
Proof.
  intros H. unfold SubjectArea.prevalidate_subject_area_data. cbn [as_dict].
  rewrite H. unfold bind at 1. rewrite (setitem_dict _ _ _ _ _ H).
  unfold SubjectArea.items_after.
  set (name_ := if truthy h _ then _ else _).
  change (get items "code") with (default VNone (items !! "code")).
  destruct (items !! "code") as [[| | |c|]|] eqn:Hc; cbn [default from_option id];
    try (unfold bind, ret; reflexivity).
  destruct (isdecimal c); cbn [negb]; [unfold bind, ret; reflexivity|].
  unfold bind at 1. unfold bind at 1.
  rewrite (delitem_dict d "code" _ (<["name" := name_]> items) (VStr c))
    by (by rewrite ?lookup_insert_eq, ?lookup_insert_ne).
  rewrite insert_insert_eq.
  rewrite (setitem_dict d "codename" _ _ (delete "code" (<["name" := name_]> items)))
    by apply lookup_insert_eq.
  rewrite insert_insert_eq. reflexivity.
Qed.

Lemma prevalidate_subject_area_other isdecimal h data :
  as_dict h data = None ->
  SubjectArea.prevalidate_subject_area_data isdecimal data h = (Return data, h).
Proof.
  intros H. unfold SubjectArea.prevalidate_subject_area_data.
  destruct data as [| | | |d]; try reflexivity. by rewrite H.
Qed.

Lemma truthy_present_key h d items items' key v :
  h !! d = Some (ODict items) -> items !! key = Some v ->
  items' <> ∅ ->
  truthy (<[d := ODict items']> h) v = truthy h v.
Proof.
  intros H Hk Hne. destruct v as [| | | |l]; try reflexivity. cbn.
  destruct (decide (l = d)) as [->|Hl].
  - rewrite lookup_insert_eq, H.
    rewrite !bool_decide_eq_false_2; [done| |done].
    intros ->. by rewrite lookup_empty in Hk.
  - by rewrite lookup_insert_ne.
Qed.

Lemma items_after_not_empty isdecimal h items :
  SubjectArea.items_after isdecimal h items <> ∅.
Proof.
  unfold SubjectArea.items_after.
  destruct (get items "code") as [| | |c|]; try apply insert_non_empty.
  destruct (isdecimal c); apply insert_non_empty.
Qed.

Lemma items_after_lookup isdecimal h items key :
  key <> "name" -> key <> "code" -> key <> "codename" ->
  SubjectArea.items_after isdecimal h items !! key = items !! key.
Proof.
  intros H1 H2 H3. unfold SubjectArea.items_after.
  destruct (get items "code") as [| | |c|]; try (by rewrite lookup_insert_ne).
  destruct (isdecimal c); [by rewrite lookup_insert_ne|].
  rewrite lookup_insert_ne by done. rewrite lookup_delete_ne by done.
  by rewrite lookup_insert_ne.
Qed.

Lemma items_after_name isdecimal h items :
  SubjectArea.items_after isdecimal h items !! "name"
  = Some (if truthy h (get items "displayName")
          then get items "displayName" else get items "name").
Proof.
  unfold SubjectArea.items_after.
  destruct (get items "code") as [| | |c|]; try apply lookup_insert_eq.
  destruct (isdecimal c); [apply lookup_insert_eq|].
  rewrite lookup_insert_ne by done. rewrite lookup_delete_ne by done.
  apply lookup_insert_eq.
Qed.

Lemma items_after_code isdecimal h items c :
  SubjectArea.items_after isdecimal h items !! "code" = Some (VStr c) ->
  isdecimal c = true.
Proof.
  unfold SubjectArea.items_after, get.
  destruct (items !! "code") as [[| | |c'|]|] eqn:Hc; cbn [default from_option id];
    rewrite ?lookup_insert_ne by done; try congruence.
  destruct (isdecimal c') eqn:Hd.
  - rewrite lookup_insert_ne by done. congruence.
  - rewrite lookup_insert_ne by done. by rewrite lookup_delete_eq.
Qed.

Lemma items_after_again isdecimal h d items :
  h !! d = Some (ODict items) ->
  let items' := SubjectArea.items_after isdecimal h items in
  SubjectArea.items_after isdecimal (<[d := ODict items']> h) items' = items'.
Proof.
  intros H items'.
  assert (get items' "displayName" = get items "displayName") as Hdn
    by (unfold get, items'; by rewrite items_after_lookup).
  assert (truthy (<[d := ODict items']> h) (get items "displayName")
          = truthy h (get items "displayName")) as Ht.
  { unfold get. destruct (items !! "displayName") as [v|] eqn:Hv; [|done].
    cbn [default from_option id]. eapply truthy_present_key; [exact H|exact Hv|].
    apply items_after_not_empty. }
  pose proof (items_after_name isdecimal h items) as Hname. fold items' in Hname.
  set (name_ := if truthy h _ then _ else _) in Hname.
  unfold SubjectArea.items_after at 1.
  rewrite Hdn, Ht.
  assert ((if truthy h (get items "displayName")
           then get items "displayName" else get items' "name") = name_) as ->.
  { subst name_. destruct (truthy h _); [done|]. unfold get at 1.
    rewrite Hname. reflexivity. }
  rewrite (insert_id items' "name" name_ Hname).
  destruct (get items' "code") as [| | |c|] eqn:Hc; try reflexivity.
  assert (isdecimal c = true) as ->; [|reflexivity].
  apply (items_after_code isdecimal h items). fold items'.
  unfold get in Hc. destruct (items' !! "code") as [v|]; cbn in Hc; congruence.
Qed.

(** X18. The subject-area validator.  It never raises and hands back the
    very payload it was given; a payload that is no dict is left alone.
    On a dict, a code that is a string and not all decimal digits is moved:
    afterwards the dict has it under ['codename'] and has no ['code'], so
    that no string is left under ['code'] but a decimal one.  Validating
    the same dict once more changes nothing. *)
Theorem subject_area_code_is_told_from_codename :
  forall isdecimal data h,
    let res := SubjectArea.prevalidate_subject_area_data isdecimal data h in
    res.1 = Return data
    /\ (as_dict h data = None -> res.2 = h)
    /\ SubjectArea.prevalidate_subject_area_data isdecimal data res.2 = res
    /\ (forall items', as_dict res.2 data = Some items' ->
          forall c, items' !! "code" = Some (VStr c) -> isdecimal c = true)
    /\ (forall items c,
          as_dict h data = Some items ->
          items !! "code" = Some (VStr c) -> isdecimal c = false ->
          exists items',
            as_dict res.2 data = Some items'
            /\ items' !! "code" = None
            /\ items' !! "codename" = Some (VStr c)).
Proof.
  intros isdecimal data h res. subst res.
  destruct (as_dict h data) as [items|] eqn:Hd.
  - destruct data as [| | | |d]; try discriminate Hd.
    assert (h !! d = Some (ODict items)) as H.
    { cbn in Hd. destruct (h !! d) as [[|]|]; congruence. }
    rewrite (prevalidate_subject_area_dict _ _ _ _ H). cbn [fst snd].
    split; [reflexivity|]. split; [discriminate|]. split.
    { rewrite (prevalidate_subject_area_dict isdecimal _ d
                 (SubjectArea.items_after isdecimal h items))
        by apply lookup_insert_eq.
      rewrite (items_after_again isdecimal h d items H).
      by rewrite insert_insert_eq. }
    split.
    + intros items' Hi c Hc. cbn in Hi. rewrite lookup_insert_eq in Hi.
      injection Hi as <-. by eapply items_after_code.
    + intros items0 c Hi Hc Hdec. injection Hi as <-.
      eexists. split; [cbn; by rewrite lookup_insert_eq|].
      unfold SubjectArea.items_after, get. rewrite Hc. cbn [default from_option id].
      rewrite Hdec. split.
      * rewrite lookup_insert_ne by done. apply lookup_delete_eq.
      * apply lookup_insert_eq.
  - rewrite (prevalidate_subject_area_other _ _ _ Hd). cbn [fst snd].
    split; [reflexivity|]. split; [reflexivity|]. split.
    { by apply prevalidate_subject_area_other. }
    split.
    + intros items' Hi. congruence.
    + intros items c Hi. discriminate Hi.
Qed.

Lemma subject_area_code_is_told_from_codename_witness :
  let res := SubjectArea.prevalidate_subject_area_data ascii_isdecimal
               subject_area_data subject_area_heap in
  exists items',
    as_dict res.2 subject_area_data = Some items'
    /\ items' !! "code" = None
    /\ items' !! "codename" = Some (VStr "COMP").
Proof.
  intros res.
  destruct (subject_area_code_is_told_from_codename ascii_isdecimal
              subject_area_data subject_area_heap) as (_ & _ & _ & _ & H).
  apply (H (default ∅ (as_dict subject_area_heap subject_area_data)) "COMP").
  - vm_compute. reflexivity.
  - vm_compute. reflexivity.
  - reflexivity.
Defined.

(** ** The validators that splice a nested dict in *)

Section splice.
Variable (V : val -> M heap val) (key : string).
Hypothesis V_dict : forall h d items,
  h !! d = Some (ODict items) ->
  V (VRef d) h =
    (Return (VRef d), <[d := ODict (nested_written h items key ∪ items)]> h).
Hypothesis V_other : forall h data,
  as_dict h data = None -> V data h = (Return data, h).

Lemma nested_written_again h d items :
  h !! d = Some (ODict items) ->
  nested_written h items key !! key = None ->
  let items' := nested_written h items key ∪ items in
  nested_written (<[d := ODict items']> h) items' key
  = nested_written h items key.
Proof.
  intros H Hk items'.
  assert (items' !! key = items !! key) as Hsame.
  { unfold items'. destruct (items !! key) as [v|] eqn:Hv.
    - apply lookup_union_Some_raw. by right.
    - by apply lookup_union_None. }
  unfold nested_written, get_or_empty in Hk |- *. rewrite Hsame.
  destruct (items !! key) as [v|] eqn:Hv; [|done].
  destruct v as [|b|z|s|l];
    [ by cbn | destruct b; by cbn | cbn; destruct (negb _); by cbn
    | cbn; destruct (negb _); by cbn | ].
  destruct (decide (l = d)) as [->|Hl].
  - exfalso. cbn in Hk. rewrite H in Hk.
    rewrite bool_decide_eq_false_2 in Hk
      by (intros ->; by rewrite lookup_empty in Hv).
    cbn in Hk. rewrite ?H in Hk. cbn in Hk. congruence.
  - cbn. rewrite ?lookup_insert_ne by congruence.
    match goal with |- context [if ?b then _ else _] => destruct b end;
      [|reflexivity].
    cbn. by rewrite lookup_insert_ne by congruence.
Qed.

Lemma splice_properties data h :
  let res := V data h in
  res.1 = Return data
  /\ (as_dict h data = None -> res.2 = h)
  /\ (forall l, data <> VRef l -> res.2 !! l = h !! l)
  /\ (forall items k,
        as_dict h data = Some items ->
        nested_written h items key !! k = None ->
        exists items', as_dict res.2 data = Some items'
                       /\ items' !! k = items !! k)
  /\ (forall items,
        as_dict h data = Some items ->
        nested_written h items key !! key = None ->
        V data res.2 = res).
Proof.
  intros res. subst res.
  destruct (as_dict h data) as [items|] eqn:Hd.
  - destruct data as [| | | |d]; try discriminate Hd.
    assert (h !! d = Some (ODict items)) as H.
    { cbn in Hd. destruct (h !! d) as [[|]|]; congruence. }
    rewrite (V_dict _ _ _ H). cbn [fst snd].
    split; [reflexivity|]. split; [discriminate|]. split.
    { intros l Hl. rewrite lookup_insert_ne; [done|]. congruence. }
    split.
    + intros items0 k Hi Hk. injection Hi as <-.
      eexists. split; [cbn; by rewrite lookup_insert_eq|].
      destruct (items !! k) as [v|] eqn:Hv.
      * apply lookup_union_Some_raw. right. by rewrite Hv.
      * apply lookup_union_None. by rewrite Hv.
    + intros items0 Hi Hk. injection Hi as <-.
      rewrite (V_dict _ d (nested_written h items key ∪ items))
        by apply lookup_insert_eq.
      rewrite (nested_written_again h d items H Hk).
      rewrite insert_insert_eq.
      by rewrite (assoc_L (∪)), (idemp_L (∪)).
  - rewrite (V_other _ _ Hd). cbn [fst snd].
    split; [reflexivity|]. split; [reflexivity|]. split; [reflexivity|].
    split; intros items; discriminate.
Qed.

End splice.

Lemma extract_address_dict h d items :
  h !! d = Some (ODict items) ->
  AffiliatedInstitution.extract_address (VRef d) h =
    (Return (VRef d),
     <[d := ODict (nested_written h items "address" ∪ items)]> h).
Proof.
  intros H. unfold AffiliatedInstitution.extract_address, nested_written.
  cbn [as_dict]. rewrite H. unfold bind.
  destruct (get_or_empty h items "address") as [address|].
  - destruct (as_dict h address) as [a|]; cbn [default from_option id].
    + by rewrite (update_dict _ _ _ _ H).
    + unfold ret. rewrite map_empty_union. by rewrite insert_id.
  - by rewrite (update_dict _ _ _ _ H).
Qed.

Lemma extract_address_other h data :
  as_dict h data = None ->
  AffiliatedInstitution.extract_address data h = (Return data, h).
Proof.
  intros H. unfold AffiliatedInstitution.extract_address.
  destruct data as [| | | |d]; try reflexivity. by rewrite H.
Qed.

Lemma extract_pages_nums_dict h d items :
  h !! d = Some (ODict items) ->
  SourceRelationship.extract_pages_nums (VRef d) h =
    (Return (VRef d),
     <[d := ODict (nested_written h items "pages" ∪ items)]> h).
Proof.
  intros H. unfold SourceRelationship.extract_pages_nums, nested_written.
  cbn [as_dict]. rewrite H. unfold bind.
  destruct (get_or_empty h items "pages") as [pages|].
  - destruct (as_dict h pages) as [a|]; cbn [default from_option id].
    + by rewrite (update_dict _ _ _ _ H).
    + unfold ret. rewrite map_empty_union. by rewrite insert_id.
  - by rewrite (update_dict _ _ _ _ H).
Qed.

Lemma extract_pages_nums_other h data :
  as_dict h data = None ->
  SourceRelationship.extract_pages_nums data h = (Return data, h).
Proof.
  intros H. unfold SourceRelationship.extract_pages_nums.
  destruct data as [| | | |d]; try reflexivity. by rewrite H.
Qed.

(** X19. The validators that splice a nested dict into the payload: the
    address of an institution and the pages of a source relationship.
    Each never raises, hands back the payload it was given, leaves a
    payload that is no dict and every other object alone, and keeps every
    top-level entry that the nested dict does not name.  When the nested
    dict has no entry under its own key, validating the same dict once
    more changes nothing. *)
Theorem splicing_validators_keep_what_they_do_not_name :
  forall data h,
    (let res := AffiliatedInstitution.extract_address data h in
     res.1 = Return data
     /\ (as_dict h data = None -> res.2 = h)
     /\ (forall l, data <> VRef l -> res.2 !! l = h !! l)
     /\ (forall items k,
           as_dict h data = Some items ->
           nested_written h items "address" !! k = None ->
           exists items', as_dict res.2 data = Some items'
                          /\ items' !! k = items !! k)
     /\ (forall items,
           as_dict h data = Some items ->
           nested_written h items "address" !! "address" = None ->
           AffiliatedInstitution.extract_address data res.2 = res))
    /\
    (let res := SourceRelationship.extract_pages_nums data h in
     res.1 = Return data
     /\ (as_dict h data = None -> res.2 = h)
     /\ (forall l, data <> VRef l -> res.2 !! l = h !! l)
     /\ (forall items k,
           as_dict h data = Some items ->
           nested_written h items "pages" !! k = None ->
           exists items', as_dict res.2 data = Some items'
                          /\ items' !! k = items !! k)
     /\ (forall items,
           as_dict h data = Some items ->
           nested_written h items "pages" !! "pages" = None ->
           SourceRelationship.extract_pages_nums data res.2 = res)).
Proof.
  intros data h. split.
  - apply (splice_properties AffiliatedInstitution.extract_address "address"
             extract_address_dict extract_address_other).
  - apply (splice_properties SourceRelationship.extract_pages_nums "pages"
             extract_pages_nums_dict extract_pages_nums_other).
Qed.

Lemma splicing_validators_keep_what_they_do_not_name_witness :
  let res := AffiliatedInstitution.extract_address institution_data
               institution_heap in
  AffiliatedInstitution.extract_address institution_data res.2 = res
  /\ exists items',
       as_dict res.2 institution_data = Some items'
       /\ items' !! "name" = Some (VStr "OmSTU").
Proof.
  intros res.
  destruct (proj1 (splicing_validators_keep_what_they_do_not_name
                     institution_data institution_heap))
    as (_ & _ & _ & Hkeep & Hagain).
  split.
  - apply (Hagain (default ∅ (as_dict institution_heap institution_data)));
      vm_compute; reflexivity.
  - destruct (Hkeep (default ∅ (as_dict institution_heap institution_data))
                "name") as (items' & H1 & H2);
      [vm_compute; reflexivity | vm_compute; reflexivity |].
    exists items'. split; [exact H1|]. rewrite H2. vm_compute. reflexivity.
Defined.

End schemes_extras.

(* ===================================================================== *)
(** * The run over all authors: what it can commit *)
(* ===================================================================== *)

Module run_extras.
Import main_facts db_extras main_extras.
Import Py engine connector main examples.
Local Open Scope Z_scope.
Local Open Scope string_scope.
Local Open Scope list_scope.

(** ** What a call may commit *)

Lemma commits_within_pret {A} tbls (a : A) : commits_within tbls (pret a).
Proof. intros p r p' H. by injection H as <- <-. Qed.

Lemma commits_within_praise {A} tbls e :
  commits_within tbls (@praise Process A e).
Proof. intros p r p' H. by injection H as <- <-. Qed.

Lemma commits_within_pbind {A B} tbls (m : PM Process A) (k : A -> PM Process B) :
  commits_within tbls m -> (forall a, commits_within tbls (k a)) ->
  commits_within tbls (pbind m k).
Proof.
  intros Hm Hk p r p' H tbl Hn. unfold pbind in H.
  destruct (m p) as [[[a|e] p1]|] eqn:E; [| |done].
  - rewrite (Hk a p1 r p' H tbl Hn). by eapply Hm.
  - injection H as <- <-. by eapply Hm.
Qed.

Lemma commits_within_pfor_each {A} tbls (xs : list A) (body : A -> PM Process unit) :
  (forall x, commits_within tbls (body x)) ->
  commits_within tbls (pfor_each xs body).
Proof.
  intros Hb. induction xs as [|x xs IH]; [apply commits_within_pret|].
  cbn [pfor_each]. apply commits_within_pbind; auto.
Qed.

Lemma commits_within_lift {A} tbls (m : M Process A) :
  (forall p, committed (database (m p).2) = committed (database p)) ->
  commits_within tbls (lift m).
Proof.
  intros Hm p r p' H tbl _. unfold lift in H. specialize (Hm p).
  destruct (m p) as [r1 p1]. injection H as <- <-. cbn in Hm. by rewrite Hm.
Qed.

Lemma commits_within_on_world {A} tbls (m : PM scraper.World A) :
  commits_within tbls (on_world m).
Proof.
  intros p r p' H tbl _. unfold on_world in H.
  destruct (m (world p)) as [[r1 w]|]; [|done]. by injection H as <- <-.
Qed.

Lemma commits_within_with {A} tbls (enter : PM Process unit) exit
    (body : PM Process A) :
  commits_within tbls enter ->
  (forall p, committed (database (exit p)) = committed (database p)) ->
  commits_within tbls body ->
  commits_within tbls (with_ enter exit body).
Proof.
  intros He Hx Hb p r p' H tbl Hn. unfold with_ in H.
  destruct (enter p) as [[[[]|e] p1]|] eqn:E; [| |done].
  - destruct (body p1) as [[r2 p2]|] eqn:E2; [|done].
    injection H as <- <-. rewrite Hx.
    rewrite (Hb p1 r2 p2 E2 tbl Hn). by eapply He.
  - injection H as <- <-. by eapply He.
Qed.

Lemma on_db_keeps {A} (m : M Database A) p :
  keeps_committed m ->
  committed (database (on_db m p).2) = committed (database p).
Proof.
  intros Hm. unfold on_db. specialize (Hm (database p)).
  by destruct (m (database p)) as [r db].
Qed.

Lemma connector_exit_keeps p :
  committed (database (connector_exit p)) = committed (database p).
Proof. reflexivity. Qed.

Lemma keeps_committed_enter : keeps_committed connector.__enter__.
Proof. done. Qed.

Lemma keeps_committed_record_exists model column_name v :
  keeps_committed (record_exists model column_name v).
Proof. done. Qed.

Lemma keeps_committed_keep_document document : keeps_committed (keep_document document).
Proof.
  intros db. unfold keep_document. destruct document; try done.
  destruct (truthy _); [done|]. destruct (existsb _ _); [|done].
  unfold bind. destruct (default _ _); done.
Qed.

Lemma keeps_committed_comprehension items : keeps_committed (comprehension items).
Proof.
  induction items as [|document items IH]; [done|].
  cbn [comprehension]. apply keeps_committed_bind.
  - apply keeps_committed_keep_document.
  - intros keep. apply keeps_committed_bind; [exact IH|done].
Qed.

(** Reading a payload does nothing to the process. *)
Lemma items_of_pure documents (p : Process) : (items_of documents p).2 = p.
Proof.
  unfold items_of. destruct documents; try done.
  by destruct (default _ _).
Qed.

Lemma iterate_pure v (p : Process) : (iterate v p).2 = p.
Proof. by destruct v. Qed.

Lemma bind_pure {A B} (m : M Process A) (k : A -> M Process B) p :
  (m p).2 = p -> (forall a, (k a p).2 = p) -> (bind m k p).2 = p.
Proof.
  intros Hm Hk. unfold bind. destruct (m p) as [[a|e] p1]; cbn in *; subst p1;
    [apply Hk|done].
Qed.

Lemma authors_ids_of_pure authors (p : Process) : (authors_ids_of authors p).2 = p.
Proof.
  induction authors as [|author rest IH]; [done|].
  cbn [authors_ids_of]. destruct author; try done.
  by apply bind_pure.
Qed.

Lemma documents_authors_ids_pure documents (p : Process) :
  (documents_authors_ids documents p).2 = p.
Proof.
  induction documents as [|document rest IH]; [done|].
  cbn [documents_authors_ids]. destruct document; try done.
  apply bind_pure.
  - destruct (truthy _); [apply iterate_pure|done].
  - intros authors_. apply bind_pure; [apply authors_ids_of_pure|].
    intros ids. by apply bind_pure.
Qed.

Lemma hash_all_pure values (p : Process) : (hash_all values p).2 = p.
Proof.
  induction values as [|v rest IH]; [done|].
  cbn [hash_all]. destruct v; try done; by apply bind_pure.
Qed.

Lemma ScopusClient_keeps Session proxies p :
  committed (database (ScopusClient Session proxies p).2) = committed (database p).
Proof. unfold ScopusClient. by destruct (client_created p). Qed.

Lemma commits_within_get_documents tbls constants proxies Session fuel author_id :
  commits_within tbls (_get_documents constants proxies Session fuel author_id).
Proof.
  unfold _get_documents.
  apply commits_within_pbind; [|intros _].
  { apply commits_within_lift. apply ScopusClient_keeps. }
  apply commits_within_with;
    [apply commits_within_on_world|done|].
  apply commits_within_with;
    [apply commits_within_lift; intros p; apply on_db_keeps, keeps_committed_enter
    |apply connector_exit_keeps|].
  apply commits_within_pbind; [apply commits_within_on_world|intros documents].
  apply commits_within_pbind; [|intros items].
  { apply commits_within_lift. intros p. by rewrite items_of_pure. }
  apply commits_within_lift. intros p.
  apply on_db_keeps, keeps_committed_comprehension.
Qed.

Lemma commits_within_fetch_new tbls constants fuel authors_ids :
  commits_within tbls (fetch_new constants fuel authors_ids).
Proof.
  induction authors_ids as [|doc_author_id rest IH];
    [apply commits_within_pret|].
  cbn [fetch_new]. destruct (as_author_id doc_author_id) as [[parameter rendered]|];
    [|apply commits_within_praise].
  apply commits_within_pbind; [|intros found].
  { apply commits_within_lift. intros p.
    apply on_db_keeps, keeps_committed_record_exists. }
  destruct found; [exact IH|].
  apply commits_within_pbind; [apply commits_within_on_world|intros author].
  apply commits_within_pbind; [exact IH|intros authors].
  apply commits_within_pret.
Qed.

Lemma commits_within_get_documents_authors tbls constants proxies Session
    list_set fuel author_id documents :
  commits_within tbls
    (_get_documents_authors constants proxies Session list_set fuel author_id
                            documents).
Proof.
  unfold _get_documents_authors.
  apply commits_within_pbind; [|intros authors_ids].
  { apply commits_within_lift. intros p. by rewrite documents_authors_ids_pure. }
  apply commits_within_pbind; [|intros members].
  { apply commits_within_lift. intros p. by rewrite hash_all_pure. }
  apply commits_within_pbind; [|intros _].
  { apply commits_within_lift. apply ScopusClient_keeps. }
  apply commits_within_with;
    [apply commits_within_on_world|done|].
  apply commits_within_with;
    [apply commits_within_lift; intros p; apply on_db_keeps, keeps_committed_enter
    |apply connector_exit_keeps|].
  apply commits_within_fetch_new.
Qed.

Lemma author_unit_touches author :
  touches_only author_tables (author_unit author).
Proof.
  unfold author_unit, insert_affiliated_institution, insert_author, author_tables.
  touches.
Qed.

Lemma insert_author_call validate author_desc p :
  exists r p',
    _insert_author validate author_desc p = Some (r, p')
    /\ forall tbl, tbl ∉ author_tables ->
         committed (database p') !! tbl = committed (database p) !! tbl.
Proof.
  unfold _insert_author, with_, lift, try_except.
  unfold on_db at 1. cbn [connector.__enter__ modify].
  destruct (validate author_desc) as [author|e] eqn:Hv.
  - destruct (bool_decide _) eqn:Hin; cbn [negb].
    + unfold bind at 1. unfold on_db at 1. cbn [database].
      change (mk_db (committed (database p)) (committed (database p))
               (sequence_values (database p))) with (entered (database p)).
      pose proof (keeps_committed_author_unit author (entered (database p))) as Hc.
      pose proof (author_unit_touches author (entered (database p))) as Ht.
      destruct (author_unit author (entered (database p))) as [[[]|e] db1];
        cbn [fst snd] in *.
      * do 2 eexists. split; [reflexivity|]. cbn. intros tbl Hn.
        by rewrite (Ht tbl Hn).
      * destruct (isinstance e [ValidationError]) eqn:E1;
          [|destruct (isinstance e [SQLAlchemyError]) eqn:E2].
        -- destruct author_desc; do 2 eexists; (split; [reflexivity|]);
             cbn -[isinstance]; intros tbl Hn; by rewrite ?Hc.
        -- do 2 eexists; (split; [reflexivity|]); cbn -[isinstance];
             intros tbl Hn; by rewrite ?Hc.
        -- do 2 eexists; (split; [reflexivity|]); cbn -[isinstance];
             intros tbl Hn; by rewrite ?Hc.
    + do 2 eexists. split; [reflexivity|]. done.
  - destruct (isinstance e [ValidationError]) eqn:E1;
      [|destruct (isinstance e [SQLAlchemyError]) eqn:E2].
    + destruct author_desc; do 2 eexists; (split; [reflexivity|]);
        cbn -[isinstance]; done.
    + do 2 eexists; (split; [reflexivity|]); cbn -[isinstance]; done.
    + do 2 eexists; (split; [reflexivity|]); cbn -[isinstance]; done.
Qed.

Lemma commits_within_insert_author validate author_desc :
  commits_within author_tables (_insert_author validate author_desc).
Proof.
  intros p r p' H.
  destruct (insert_author_call validate author_desc p) as (r0 & p0 & H0 & Hc).
  rewrite H0 in H. by injection H as <- <-.
Qed.

Lemma commits_within_insert_document tbls validate author_id document_desc :
  commits_within tbls (_insert_document validate author_id document_desc).
Proof.
  intros p r p' H tbl _.
  destruct (insert_document_call validate author_id document_desc p)
    as (r0 & p0 & H0 & Hc & _).
  rewrite H0 in H. injection H as <- <-. by rewrite Hc.
Qed.

Lemma commits_within_main constants proxies Session Author_model_validate
    Document_model_validate list_set fuel authors_id :
  commits_within author_tables
    (main.main constants proxies Session Author_model_validate
               Document_model_validate list_set fuel authors_id).
Proof.
  unfold main.main. apply commits_within_pfor_each. intros author_id.
  apply commits_within_pbind;
    [apply commits_within_get_documents|intros documents].
  apply commits_within_pbind;
    [apply commits_within_get_documents_authors|intros authors].
  apply commits_within_pbind; [|intros _].
  - apply commits_within_pfor_each. intros author.
    apply commits_within_insert_author.
  - apply commits_within_pfor_each. intros document.
    apply commits_within_insert_document.
Qed.

(** X20. A run stores no document.  Whatever the network answers, the
    validators make of the payloads and the order of the author ids,
    whenever [main] comes back, with or without an exception, every
    committed table but the five tables of the authors is as it was: the
    sources and the seven tables of the documents never change.  The two
    look-ups, [_get_documents] and [_get_documents_authors], commit
    nothing at all. *)
Theorem a_run_stores_no_document :
  forall constants proxies Session Author_model_validate
         Document_model_validate list_set fuel,
    (forall authors_id p r p',
       main.main constants proxies Session Author_model_validate
                 Document_model_validate list_set fuel authors_id p
         = Some (r, p') ->
       forall tbl, tbl ∈ document_tables ->
         committed (database p') !! tbl = committed (database p) !! tbl)
    /\ (forall author_id p r p',
          _get_documents constants proxies Session fuel author_id p
            = Some (r, p') ->
          committed (database p') = committed (database p))
    /\ (forall author_id documents p r p',
          _get_documents_authors constants proxies Session list_set fuel
                                 author_id documents p = Some (r, p') ->
          committed (database p') = committed (database p)).
Proof.
  intros constants proxies Session Av Dv list_set fuel. split_and!.
  - intros authors_id p r p' H tbl Hin.
    eapply commits_within_main; [exact H|].
    intros Hn. unfold document_tables in Hin. unfold author_tables in Hn.
    repeat (apply elem_of_cons in Hin as [->|Hin];
            [repeat (apply elem_of_cons in Hn as [Hn|Hn]; [discriminate Hn|]);
             by apply elem_of_nil in Hn|]).
    by apply elem_of_nil in Hin.
  - intros author_id p r p' H. apply map_eq. intros tbl.
    eapply (commits_within_get_documents []); [exact H|apply not_elem_of_nil].
  - intros author_id documents p r p' H. apply map_eq. intros tbl.
    eapply (commits_within_get_documents_authors []);
      [exact H|apply not_elem_of_nil].
Qed.

Lemma a_run_stores_no_document_witness :
  match main.main constants ∅ fresh_session validates_to_A1 never_validates
                  first_occurrences 5 ["42"] (process listing_without_profiles)
  with
  | Some (r, p') =>
      r = Return tt
      /\ committed (database p') !! "documents"
         = committed (database (process listing_without_profiles)) !! "documents"
  | None => False
  end.
Proof.
  destruct (main.main constants ∅ fresh_session validates_to_A1 never_validates
              first_occurrences 5 ["42"] (process listing_without_profiles))
    as [[r p']|] eqn:E; [|vm_compute in E; discriminate E].
  split.
  - vm_compute in E. by injection E as <- _.
  - apply (proj1 (a_run_stores_no_document constants ∅ fresh_session
                    validates_to_A1 never_validates first_occurrences 5)
                 ["42"] (process listing_without_profiles) r p' E).
    unfold document_tables. right. left.
Defined.

End run_extras.
